(** * Voltage demo wallet: a shallow embedding of the wallet's view-model logic

    The development follows the TypeScript sources of the wallet:

    - [JS]: the JavaScript built-ins the components call ([parseInt],
      [Number], [String.prototype.trim], [split], [Array.prototype.sort],
      [Array.prototype.slice], [Date]);
    - [EventBus]: [utils/eventBus] (publish/subscribe);
    - [Send]: [components/LightningSend.tsx];
    - [Receive]: [components/LightningReceive.tsx] and its earlier variant;
    - [History]: [components/TransactionHistory/index.tsx].

    Numbers.  A JavaScript number is modelled by [JS.number]: [NaN], the two
    infinities, or a rational.  The operations [num_add], [num_mul], ...
    compute the exact result; JavaScript rounds it to the nearest double,
    which is [JS.double].  The conversions from strings ([parseInt],
    [Number]) round, and so does every operation whose result need not be a
    double: the division of [mSatsToSats], the products by 1000 and the sum
    of creation date and expiry.  The page arithmetic of the history stays
    exact: an array length is below 2^32, and for such a length [Math.ceil]
    of the exact and of the rounded quotient by an integer page size agree;
    [Date.now()] is an integer below 2^53, for which [Math.floor] of the
    exact and of the rounded quotient by 1000 agree.  The sign of zero is
    not modelled.

    Strings.  A [string] holds the UTF-8 encoding of the JavaScript string,
    one character per byte, so that a string literal reads as in the source;
    concatenation, equality and [split] at a line feed act on the bytes as
    they act on the text.  White space is the white space of ECMAScript
    (WhiteSpace and LineTerminator), recognised by its encoding. *)

From Stdlib Require Import ZArith QArith Qcanon Qround List String Ascii Lia Bool.
From Stdlib Require Import Sorting.Sorted Sorting.Permutation.
From stdpp Require Import base numbers option list gmap strings pretty.

Local Open Scope Z_scope.

(** ** JavaScript built-ins *)

Module JS.

(** *** Numbers *)

Inductive number : Type :=
| NaN
| Inf (negative : bool)
| Fin (q : Qc).

#[global] Instance number_eq_dec : EqDecision number.
Proof. solve_decision. Defined.

(** Integer-valued numbers. *)
Definition int (z : Z) : number := Fin (Qc_of_Z z).

Definition Qc_negb (q : Qc) : bool := bool_decide (q < 0)%Qc.
Definition Qc_ltb (x y : Qc) : bool := bool_decide (x < y)%Qc.

Definition num_neg (a : number) : number :=
  match a with
  | NaN => NaN
  | Inf s => Inf (negb s)
  | Fin q => Fin (- q)%Qc
  end.

(** [a + b] *)
Definition num_add (a b : number) : number :=
  match a, b with
  | NaN, _ | _, NaN => NaN
  | Inf s, Inf t => if Bool.eqb s t then Inf s else NaN
  | Inf s, Fin _ => Inf s
  | Fin _, Inf t => Inf t
  | Fin x, Fin y => Fin (x + y)%Qc
  end.

(** [a - b] *)
Definition num_sub (a b : number) : number := num_add a (num_neg b).

(** [a * b] *)
Definition num_mul (a b : number) : number :=
  match a, b with
  | NaN, _ | _, NaN => NaN
  | Inf s, Inf t => Inf (xorb s t)
  | Inf s, Fin q | Fin q, Inf s =>
      if bool_decide (q = 0%Qc) then NaN else Inf (xorb s (Qc_negb q))
  | Fin x, Fin y => Fin (x * y)%Qc
  end.

(** [a / b] *)
Definition num_div (a b : number) : number :=
  match a, b with
  | NaN, _ | _, NaN => NaN
  | Inf _, Inf _ => NaN
  | Inf s, Fin q => Inf (xorb s (Qc_negb q))
  | Fin _, Inf _ => Fin 0%Qc
  | Fin x, Fin y =>
      if bool_decide (y = 0%Qc)
      then (if bool_decide (x = 0%Qc) then NaN else Inf (Qc_negb x))
      else Fin (x / y)%Qc
  end.

(** [a < b]; every comparison with [NaN] is false. *)
Definition num_lt (a b : number) : bool :=
  match a, b with
  | NaN, _ | _, NaN => false
  | Inf s, Inf t => s && negb t
  | Inf s, Fin _ => s
  | Fin _, Inf t => negb t
  | Fin x, Fin y => Qc_ltb x y
  end.

(** [a <= b] *)
Definition num_le (a b : number) : bool :=
  match a, b with
  | NaN, _ | _, NaN => false
  | _, _ => negb (num_lt b a)
  end.

(** [a > b] and [a >= b] *)
Definition num_gt (a b : number) : bool := num_lt b a.
Definition num_ge (a b : number) : bool := num_le b a.

(** Truthiness of a number: [0] and [NaN] are falsy. *)
Definition num_truthy (a : number) : bool :=
  match a with
  | NaN => false
  | Inf _ => true
  | Fin q => negb (bool_decide (q = 0%Qc))
  end.

(** Rounding of a rational toward zero. *)
Definition Qtrunc (q : Q) : Z := Z.quot (Qnum q) (Zpos (Qden q)).

(** [Math.floor] and [Math.ceil] *)
Definition Math_floor (a : number) : number :=
  match a with
  | Fin q => int (Qfloor q)
  | _ => a
  end.

Definition Math_ceil (a : number) : number :=
  match a with
  | Fin q => int (Qceiling q)
  | _ => a
  end.

(** *** Doubles

    [double x] is the number that JavaScript holds for the exact value [x]:
    the nearest binary64 value, ties to the even significand, an infinity
    from 2^1024 on.  For a positive rational [n / d] with binary exponent
    [e] (at least -1022, where the subnormal numbers start), the significand
    is [n / d * 2^(52 - e)] rounded to an integer. *)

Definition round_half_even (n d : Z) : Z :=
  let q := n / d in
  let r := n mod d in
  if 2 * r <? d then q
  else if d <? 2 * r then q + 1
  else if Z.even q then q else q + 1.

(** [floor (log2 (n / d))] *)
Definition binade (n d : Z) : Z :=
  let e0 := Z.log2 n - Z.log2 d in
  if (if 0 <=? e0 then d * 2 ^ e0 <=? n else d <=? n * 2 ^ (- e0)) then e0 else e0 - 1.

Definition double_pos (n d : Z) : number :=
  let e := Z.max (binade n d) (-1022) in
  let s := 52 - e in
  if 0 <=? s then
    Fin (Qc_of_Z (round_half_even (n * 2 ^ s) d) / Qc_of_Z (2 ^ s))%Qc
  else
    let v := round_half_even n (d * 2 ^ (- s)) * 2 ^ (- s) in
    if 2 ^ 1024 <=? v then Inf false else Fin (Qc_of_Z v).

(** An integer of magnitude up to 2^53 is a double. *)
Definition safe_integer (q : Qc) : bool :=
  (Z.pos (Qden (this q)) =? 1) && (Z.abs (Qnum (this q)) <=? 2 ^ 53).

Definition double (x : number) : number :=
  match x with
  | Fin q =>
      let n := Qnum (this q) in
      let d := Z.pos (Qden (this q)) in
      if safe_integer q then x
      else if 0 <? n then double_pos n d
      else num_neg (double_pos (- n) d)
  | _ => x
  end.

(** [ceil (a / b)] on integers. *)
Definition ceil_div (a b : Z) : Z := - ((- a) / b).

(** [ToIntegerOrInfinity] followed by the clamping that
    [Array.prototype.slice] applies to a relative index: a negative index
    counts from the end of an array of length [len]. *)
Definition relative_index (len : Z) (a : number) : Z :=
  match a with
  | NaN => 0
  | Inf true => 0
  | Inf false => len
  | Fin q => let r := Qtrunc q in
             if r <? 0 then Z.max (len + r) 0 else Z.min r len
  end.

(** *** Strings *)

Definition chars (s : string) : list ascii := list_ascii_of_string s.
Definition str (cs : list ascii) : string := string_of_list_ascii cs.
Definition code (c : ascii) : Z := Z.of_N (N_of_ascii c).

(** A string is falsy exactly when it is empty. *)
Definition str_truthy (s : string) : bool := negb (String.eqb s "").

(** An optional property holding a string: [undefined] is falsy. *)
Definition opt_truthy (o : option string) : bool :=
  match o with
  | Some s => str_truthy s
  | None => false
  end.

(** [o || d] for an optional string property. *)
Definition or_default (o : option string) (d : string) : string :=
  match o with
  | Some s => if str_truthy s then s else d
  | None => d
  end.

(** [arr.includes(x)] on an array of strings. *)
Definition includes (arr : list string) (x : string) : bool :=
  existsb (String.eqb x) arr.

(** White space, as [trim], [parseInt] and [Number] skip it, by the bytes of
    its encoding: TAB, LF, VT, FF, CR and SP (one byte); U+00A0 (two bytes);
    U+1680, U+2000 to U+200A, U+2028, U+2029, U+202F, U+205F, U+3000 and
    U+FEFF (three bytes). *)
Definition is_ws1 (a : Z) : bool :=
  ((9 <=? a) && (a <=? 13)) || (a =? 32).

Definition is_ws2 (a b : Z) : bool :=
  (a =? 194) && (b =? 160).

Definition is_ws3 (a b c : Z) : bool :=
  ((a =? 225) && (b =? 154) && (c =? 128)) ||
  ((a =? 226) && (b =? 128) &&
   (((128 <=? c) && (c <=? 138)) || (c =? 168) || (c =? 169) || (c =? 175))) ||
  ((a =? 226) && (b =? 129) && (c =? 159)) ||
  ((a =? 227) && (b =? 128) && (c =? 128)) ||
  ((a =? 239) && (b =? 187) && (c =? 191)).

(** The string without its leading white space. *)
Fixpoint drop_ws (cs : list ascii) : list ascii :=
  match cs with
  | [] => []
  | a :: r1 =>
      if is_ws1 (code a) then drop_ws r1
      else
        match r1 with
        | [] => cs
        | b :: r2 =>
            if is_ws2 (code a) (code b) then drop_ws r2
            else
              match r2 with
              | [] => cs
              | c :: r3 =>
                  if is_ws3 (code a) (code b) (code c) then drop_ws r3 else cs
              end
        end
  end.

(** The same on the reversed string, where the bytes of a character come
    last byte first. *)
Fixpoint drop_ws_rev (cs : list ascii) : list ascii :=
  match cs with
  | [] => []
  | a :: r1 =>
      if is_ws1 (code a) then drop_ws_rev r1
      else
        match r1 with
        | [] => cs
        | b :: r2 =>
            if is_ws2 (code b) (code a) then drop_ws_rev r2
            else
              match r2 with
              | [] => cs
              | c :: r3 =>
                  if is_ws3 (code c) (code b) (code a) then drop_ws_rev r3 else cs
              end
        end
  end.

Definition trim_chars (cs : list ascii) : list ascii :=
  rev (drop_ws_rev (rev (drop_ws cs))).

(** [s.trim()] *)
Definition trim (s : string) : string := str (trim_chars (chars s)).

(** A printable ASCII character: it is not white space, and it is not a
    byte of the encoding of a white space character. *)
Definition printable (c : ascii) : Prop := 32 < code c < 128.

Fixpoint split_chars (sep : ascii) (cs : list ascii) : list (list ascii) :=
  match cs with
  | [] => [[]]
  | c :: r =>
      if Ascii.eqb c sep then [] :: split_chars sep r
      else match split_chars sep r with
           | cur :: rest => (c :: cur) :: rest
           | [] => [[c]]
           end
  end.

(** [s.split(sep)] for a separator of one character. *)
Definition split (sep : ascii) (s : string) : list string :=
  map str (split_chars sep (chars s)).

Definition newline : ascii := ascii_of_N 10.

(** *** Numeric literals *)

(** The value of [c] as a digit in base [radix], if it is one. *)
Definition digit_val (radix : Z) (c : ascii) : option Z :=
  let n := code c in
  let v := if (48 <=? n) && (n <=? 57) then Some (n - 48)
           else if (97 <=? n) && (n <=? 122) then Some (n - 87)
           else if (65 <=? n) && (n <=? 90) then Some (n - 55)
           else None in
  match v with
  | Some d => if d <? radix then Some d else None
  | None => None
  end.

(** The longest prefix of digits, and what follows it. *)
Fixpoint span_digits (radix : Z) (cs : list ascii) : list Z * list ascii :=
  match cs with
  | [] => ([], [])
  | c :: r =>
      match digit_val radix c with
      | Some d => let (ds, rest) := span_digits radix r in (d :: ds, rest)
      | None => ([], cs)
      end
  end.

Definition digits_value (radix : Z) (ds : list Z) : Z :=
  fold_left (fun acc d => acc * radix + d) ds 0.

Definition strip_sign (cs : list ascii) : bool * list ascii :=
  match cs with
  | c :: r =>
      if Ascii.eqb c "-" then (true, r)
      else if Ascii.eqb c "+" then (false, r)
      else (false, cs)
  | [] => (false, [])
  end.

Definition signed (negative : bool) (z : Z) : Z := if negative then - z else z.

(** A prefix [0x], [0o] or [0b] (either case) and the base it announces. *)
Definition radix_prefix (cs : list ascii) : option (Z * list ascii) :=
  match cs with
  | z :: c :: r =>
      if Ascii.eqb z "0" then
        if Ascii.eqb c "x" || Ascii.eqb c "X" then Some (16, r)
        else if Ascii.eqb c "o" || Ascii.eqb c "O" then Some (8, r)
        else if Ascii.eqb c "b" || Ascii.eqb c "B" then Some (2, r)
        else None
      else None
  | _ => None
  end.

(** [parseInt(s)] without a radix argument: leading white space, a sign, an
    optional [0x] prefix, then the longest run of digits.  [parseInt_Z] is
    the integer these digits denote, [None] when there is no digit;
    [parseInt] is the double nearest to it, [NaN] when there is no digit. *)
Definition parseInt_Z (s : string) : option Z :=
  let (negative, cs) := strip_sign (drop_ws (chars s)) in
  let (radix, ds) :=
    match radix_prefix cs with
    | Some (16, r) => (16, r)
    | _ => (10, cs)
    end in
  match fst (span_digits radix ds) with
  | [] => None
  | d :: ds' => Some (signed negative (digits_value radix (d :: ds')))
  end.

Definition parseInt (s : string) : number :=
  match parseInt_Z s with
  | Some z => double (int z)
  | None => NaN
  end.

Definition all_digits (radix : Z) (cs : list ascii) : number :=
  match span_digits radix cs with
  | (d :: ds, []) => int (digits_value radix (d :: ds))
  | _ => NaN
  end.

Definition pow10 (k : Z) : Qc :=
  if 0 <=? k then Qc_of_Z (10 ^ k) else (/ Qc_of_Z (10 ^ (- k)))%Qc.

Definition exponent_part (cs : list ascii) : option Z :=
  match cs with
  | [] => Some 0
  | c :: r =>
      if Ascii.eqb c "e" || Ascii.eqb c "E" then
        let (negative, r') := strip_sign r in
        match span_digits 10 r' with
        | (d :: ds, []) => Some (signed negative (digits_value 10 (d :: ds)))
        | _ => None
        end
      else None
  end.

(** [StrUnsignedDecimalLiteral] without [Infinity]: digits, an optional
    fraction and an optional exponent, at least one digit in the mantissa. *)
Definition unsigned_decimal (cs : list ascii) : option Qc :=
  let (ip, r1) := span_digits 10 cs in
  let (fp, r2) :=
    match r1 with
    | c :: r => if Ascii.eqb c "." then span_digits 10 r else ([], r1)
    | [] => ([], [])
    end in
  match ip ++ fp with
  | [] => None
  | d :: ds =>
      match exponent_part r2 with
      | Some e =>
          Some (Qc_of_Z (digits_value 10 (d :: ds)) * pow10 (e - Z.of_nat (length fp)))%Qc
      | None => None
      end
  end.

(** The mathematical value of a string as a numeric literal: white space
    around it is ignored, the empty string is 0. *)
Definition StringNumericLiteral (s : string) : number :=
  let cs := trim_chars (chars s) in
  match cs with
  | [] => int 0
  | _ :: _ =>
      match radix_prefix cs with
      | Some (radix, r) => all_digits radix r
      | None =>
          let (negative, r) := strip_sign cs in
          if String.eqb (str r) "Infinity" then Inf negative
          else match unsigned_decimal r with
               | Some q => Fin (if negative then - q else q)%Qc
               | None => NaN
               end
      end
  end.

(** [StringToNumber]: the conversion that [Number(s)] applies to a string,
    the double nearest to the value of the literal. *)
Definition StringToNumber (s : string) : number :=
  double (StringNumericLiteral s).

(** A value of TypeScript type [string | number]. *)
Inductive str_or_num : Type :=
| OfStr (s : string)
| OfNum (n : number).

(** [Number(v)] *)
Definition Number_ (v : str_or_num) : number :=
  match v with
  | OfStr s => StringToNumber s
  | OfNum n => n
  end.

(** *** Printing of numbers *)

Fixpoint drop_zeros (cs : list ascii) : list ascii :=
  match cs with
  | [] => []
  | c :: r => if Ascii.eqb c "0" then drop_zeros r else cs
  end.

(** The decimal exponent of a positive rational [a / b]: the [n] with
    [10^(n-1) <= a / b < 10^n]. *)
Definition decimal_exponent (a b : Z) : Z :=
  if b <=? a then Z.of_nat (String.length (pretty (a / b)))
  else 1 - Z.of_nat (String.length (pretty ((b - 1) / a))).

(** The decimals [c * 10^(n-k)] of [k] digits next to [x], below and above:
    the one that reads back as [x], the closer one if both do, the even one
    if they are equally close. *)
Definition shortest_at (x : Qc) (n k : Z) : option (Z * Z) :=
  let p := n - k in
  let t := (x / pow10 p)%Qc in
  let lo := Qfloor t in
  let reads_back c := bool_decide (double (Fin (Qc_of_Z c * pow10 p)%Qc) = Fin x) in
  match (0 <? lo) && reads_back lo, reads_back (lo + 1) with
  | true, true =>
      let below := (t - Qc_of_Z lo)%Qc in
      let above := (Qc_of_Z (lo + 1) - t)%Qc in
      if Qc_ltb below above then Some (lo, p)
      else if Qc_ltb above below then Some (lo + 1, p)
      else if Z.even lo then Some (lo, p) else Some (lo + 1, p)
  | true, false => Some (lo, p)
  | false, true => Some (lo + 1, p)
  | false, false => None
  end.

(** The decimal with the fewest digits that reads back as [x]. *)
Fixpoint shortest (fuel : nat) (x : Qc) (n k : Z) : option (Z * Z) :=
  match fuel with
  | O => None
  | S fuel' =>
      match shortest_at x n k with
      | Some r => Some r
      | None => shortest fuel' x n (k + 1)
      end
  end.

(** The notation of the decimal [digits * 10^p], [digits] without trailing
    zeros: plain digits, a decimal point, leading zeros or an exponent, as
    [Number.prototype.toString] chooses them. *)
Definition notation (digits : list ascii) (p : Z) : list ascii :=
  let k := Z.of_nat (length digits) in
  let n := p + k in
  if (k <=? n) && (n <=? 21) then digits ++ repeat "0"%char (Z.to_nat (n - k))
  else if (0 <? n) && (n <=? 21) then
    firstn (Z.to_nat n) digits ++ "."%char :: skipn (Z.to_nat n) digits
  else if (-6 <? n) && (n <=? 0) then
    "0"%char :: "."%char :: repeat "0"%char (Z.to_nat (- n)) ++ digits
  else
    let e := n - 1 in
    let mantissa :=
      match digits with
      | d :: (_ :: _) as r => d :: "."%char :: r
      | _ => digits
      end in
    mantissa ++ "e"%char :: (if 0 <=? e then "+"%char else "-"%char)
             :: chars (pretty (Z.abs e)).

(** [Number.prototype.toString] (radix 10), which is also the conversion of
    [x + '']: the shortest decimal that reads back as [x].  An integer of
    magnitude up to 2^53 is printed by its decimal digits. *)
Definition Number_toString (x : number) : string :=
  match x with
  | NaN => "NaN"
  | Inf negative => if negative then "-Infinity" else "Infinity"
  | Fin q =>
      let n := Qnum (this q) in
      let d := Z.pos (Qden (this q)) in
      if safe_integer q then pretty n
      else
        let a := (if n <? 0 then - q else q)%Qc in
        let body :=
          match shortest 17 a (decimal_exponent (Z.abs n) d) 1 with
          | Some (c, p) =>
              let ds := chars (pretty c) in
              let digits := rev (drop_zeros (rev ds)) in
              str (notation digits (p + Z.of_nat (length ds) - Z.of_nat (length digits)))
          | None => ""
          end in
        if n <? 0 then String "-" body else body
  end.

(** *** Dates *)

Definition max_time : Z := 8640000000000000.

(** [TimeClip]: the time value of a date, [NaN] for an invalid date. *)
Definition TimeClip (t : number) : number :=
  match t with
  | Fin q =>
      if Qc_ltb (Qc_of_Z max_time) q || Qc_ltb q (Qc_of_Z (- max_time)) then NaN
      else int (Qtrunc q)
  | _ => NaN
  end.

Record Date : Type := { getTime : number }.

(** [new Date(t)] for a numeric argument. *)
Definition new_Date (t : number) : Date := {| getTime := TimeClip t |}.

(** *** Arrays *)

Section Arrays.
Context {A : Type}.

(** [Array.prototype.sort(cmp)]: a stable sort.  [cmp x y > 0] moves [y]
    before [x]; a zero, negative or [NaN] result keeps the two in their
    order.  For a consistent comparator every stable sort yields this
    list. *)
Variable cmp : A -> A -> number.

Definition comes_after (x y : A) : bool := num_gt (cmp x y) (int 0).

Fixpoint insert_sorted (x : A) (l : list A) : list A :=
  match l with
  | [] => [x]
  | y :: r => if comes_after x y then y :: insert_sorted x r else x :: y :: r
  end.

Definition sort (l : list A) : list A := fold_right insert_sorted [] l.

(** [Array.prototype.slice(start, end)] *)
Definition slice (l : list A) (start end_ : number) : list A :=
  let len := Z.of_nat (length l) in
  let k := relative_index len start in
  let final := relative_index len end_ in
  firstn (Z.to_nat (final - k)) (skipn (Z.to_nat k) l).

(** The last element of an array, [arr[arr.length - 1]]. *)
Definition last_elem (l : list A) : option A := List.last (map Some l) None.
End Arrays.

(** [cs] spells the digits [ds] in base ten. *)
Definition spells (cs : list ascii) (ds : list Z) : Prop :=
  Forall2 (fun c d => digit_val 10 c = Some d) cs ds.

End JS.

(** ** Statements with state and exceptions

    The handlers of the components are sequences of state updates in which a
    call may throw.  [M A] is a computation over a state [S] that completes
    normally with a value or abruptly with a thrown value; the state written
    before a throw stays written. *)

Module Eff.

Inductive completion (Err A : Type) : Type :=
| Normal (a : A)
| Throw (e : Err).
Arguments Normal {Err A} a.
Arguments Throw {Err A} e.

Definition M (Err S A : Type) : Type := S -> completion Err A * S.

Section Eff.
Context {Err S : Type}.

Definition ret {A} (a : A) : M Err S A := fun s => (Normal a, s).

Definition bind {A B} (m : M Err S A) (k : A -> M Err S B) : M Err S B :=
  fun s =>
    match m s with
    | (Normal a, s1) => k a s1
    | (Throw e, s1) => (Throw e, s1)
    end.

(** [throw e] *)
Definition throw {A} (e : Err) : M Err S A := fun s => (Throw e, s).

(** Reading and writing the state. *)
Definition gets {A} (f : S -> A) : M Err S A := fun s => (Normal (f s), s).
Definition modify (f : S -> S) : M Err S unit := fun s => (Normal tt, f s).

(** The completion of a call that returns ([inl]) or throws ([inr]). *)
Definition lift {A} (r : A + Err) : M Err S A :=
  match r with
  | inl a => ret a
  | inr e => throw e
  end.

(** [try { body } catch (e) { handler(e) }] *)
Definition try_catch {A} (body : M Err S A) (handler : Err -> M Err S A) : M Err S A :=
  fun s =>
    match body s with
    | (Normal a, s1) => (Normal a, s1)
    | (Throw e, s1) => handler e s1
    end.

(** [try { body } finally { final }] *)
Definition try_finally {A} (body : M Err S A) (final : M Err S unit) : M Err S A :=
  fun s =>
    match body s with
    | (r, s1) =>
        match final s1 with
        | (Normal _, s2) => (r, s2)
        | (Throw e, s2) => (Throw e, s2)
        end
    end.

(** [arr.forEach(f)]: an exception thrown by [f] ends the iteration. *)
Fixpoint forEach {A} (f : A -> M Err S unit) (arr : list A) : M Err S unit :=
  match arr with
  | [] => ret tt
  | x :: rest => bind (f x) (fun _ => forEach f rest)
  end.
End Eff.

#[global] Instance M_ret {Err S} : MRet (M Err S) := @ret Err S.
#[global] Instance M_bind {Err S} : MBind (M Err S) := fun A B k m => bind m k.

End Eff.

(** ** The event bus ([utils/eventBus]) *)

Module EventBus.
Import Eff.

(** [type AppEvent = 'transaction:new' | 'invoice:created' | 'payment:sent'] *)
Inductive AppEvent : Type :=
| transaction_new
| invoice_created
| payment_sent.

#[global] Instance AppEvent_eq_dec : EqDecision AppEvent.
Proof. solve_decision. Defined.

Definition AppEvent_to_nat (e : AppEvent) : nat :=
  match e with
  | transaction_new => 0
  | invoice_created => 1
  | payment_sent => 2
  end.

Definition AppEvent_of_nat (n : nat) : AppEvent :=
  match n with
  | O => transaction_new
  | S O => invoice_created
  | _ => payment_sent
  end.

#[global] Instance AppEvent_countable : Countable AppEvent.
Proof.
  apply (inj_countable' AppEvent_to_nat AppEvent_of_nat).
  intros []; reflexivity.
Defined.

Definition event_name (e : AppEvent) : string :=
  match e with
  | transaction_new => "transaction:new"
  | invoice_created => "invoice:created"
  | payment_sent => "payment:sent"
  end.

Section Bus.
(** [Arg]: the values passed to subscribers; [Err]: thrown values; [W]: the
    part of the application a subscriber can read and write.  The registry
    of the bus itself is not part of [W]: a subscriber that subscribes or
    unsubscribes while an emission is running is outside this model. *)
Context {Arg Err W : Type}.

(** A subscriber: a function object with its identity ([indexOf] compares
    references).  Running it changes the application state and either
    returns ([None]) or throws ([Some err]); what it wrote before throwing
    stays written. *)
Record Callback : Type := {
  cb_ref : nat;
  cb_run : list Arg -> W -> W * option Err
}.

(** [private events: Map<AppEvent, EventCallback[]>] *)
Definition Events : Type := gmap AppEvent (list Callback).

(** [new EventBus()] *)
Definition empty_bus : Events := ∅.

(** [on(event, callback)] *)
Definition on (event : AppEvent) (callback : Callback) (events : Events) : Events :=
  let events1 :=
    match events !! event with
    | None => <[event := []]> events
    | Some _ => events
    end in
  match events1 !! event with
  | Some callbacks => <[event := callbacks ++ [callback]]> events1
  | None => events1
  end.

Fixpoint remove_first (r : nat) (l : list Callback) : list Callback :=
  match l with
  | [] => []
  | c :: rest => if Nat.eqb (cb_ref c) r then rest else c :: remove_first r rest
  end.

(** [off(event, callback)] *)
Definition off (event : AppEvent) (callback : Callback) (events : Events) : Events :=
  match events !! event with
  | None => events
  | Some callbacks => <[event := remove_first (cb_ref callback) callbacks]> events
  end.

(** What an emission can touch: the application state and the console. *)
Record Env : Type := {
  world : W;
  console : list (string * Err)
}.

Definition Run (A : Type) : Type := M Err Env A.

(** [callback(...args)] *)
Definition call (callback : Callback) (args : list Arg) : Run unit :=
  fun env =>
    let (w, r) := cb_run callback args (world env) in
    let env1 := {| world := w; console := console env |} in
    match r with
    | None => (Normal tt, env1)
    | Some e => (Throw e, env1)
    end.

(** [console.error(msg, error)] *)
Definition console_error (msg : string) (error : Err) : Run unit :=
  fun env =>
    (Normal tt, {| world := world env; console := console env ++ [(msg, error)] |}).

(** [emit(event, ...args)] *)
Definition emit (events : Events) (event : AppEvent) (args : list Arg) : Run unit :=
  match events !! event with
  | None => ret tt
  | Some callbacks =>
      forEach
        (fun callback =>
           try_catch (call callback args)
             (fun error =>
                console_error ("Error in event handler for " +:+ event_name event +:+ ":") error))
        callbacks
  end.

(** The callbacks registered for an event, none when the event has no entry. *)
Definition subscribers (events : Events) (event : AppEvent) : list Callback :=
  default [] (events !! event).

(** Running the subscribers one after the other, whatever they throw. *)
Definition run_all (callbacks : list Callback) (args : list Arg) (w : W) : W :=
  fold_left (fun w callback => fst (cb_run callback args w)) callbacks w.
(** Running the subscribers one after the other, whatever they throw: the
    application state at the end and the values thrown on the way. *)
Fixpoint run_log (callbacks : list Callback) (args : list Arg) (w : W) : W * list Err :=
  match callbacks with
  | [] => (w, [])
  | callback :: rest =>
      let (w1, r) := cb_run callback args w in
      let (w2, errs) := run_log rest args w1 in
      (w2, match r with Some e => e :: errs | None => errs end)
  end.


(** How many times a callback is subscribed to an event. *)
Definition subscriptions (events : Events) (event : AppEvent) (callback : Callback) : nat :=
  length (List.filter (fun c => Nat.eqb (cb_ref c) (cb_ref callback))
            (subscribers events event)).

End Bus.

Arguments Callback : clear implicits.
Arguments Events : clear implicits.
Arguments Env : clear implicits.

End EventBus.

(** ** The send form ([components/LightningSend.tsx]) *)

Module Send.
Import JS Eff.

(** A value produced by [JSON.parse]. *)
#[warnings="-register-all"] Inductive json : Type :=
| JNull
| JBool (b : bool)
| JNum (n : number)
| JStr (s : string)
| JArr (items : list json)
| JObj (fields : list (string * json)).

(** A value read from a response: a JSON value, or [undefined] ([None]). *)
Definition value : Type := option json.

Definition truthy (v : value) : bool :=
  match v with
  | None | Some JNull => false
  | Some (JBool b) => b
  | Some (JNum n) => num_truthy n
  | Some (JStr s) => str_truthy s
  | Some (JArr _) | Some (JObj _) => true
  end.

(** [typeof v === 'object'] *)
Definition typeof_object (v : value) : bool :=
  match v with
  | Some JNull | Some (JArr _) | Some (JObj _) => true
  | _ => false
  end.

Fixpoint field (k : string) (fields : list (string * json)) : value :=
  match fields with
  | [] => None
  | (k', v) :: rest => if String.eqb k' k then Some v else field k rest
  end.

(** What is thrown inside the component. *)
Inductive exn : Type :=
| SyntaxError
| TypeError
| Rejected.

(** [v.k] for the keys the component reads ([result], [status],
    [failure_reason]): the own property of an object, [undefined] on any
    other value, [TypeError] on [null] and [undefined]. *)
Definition prop (v : value) (k : string) : value + exn :=
  match v with
  | None | Some JNull => inr TypeError
  | Some (JObj fields) => inl (field k fields)
  | Some _ => inl None
  end.

(** [v === s] for a string literal [s]. *)
Definition is_str (v : value) (s : string) : bool :=
  match v with
  | Some (JStr s') => String.eqb s' s
  | _ => false
  end.

(** Component state ([useState]). *)
Record State : Type := {
  paymentRequest : string;
  paymentResult : value;
  loading : bool;
  error : option string;
  rawResponse : string
}.

Definition initial : State :=
  {| paymentRequest := ""; paymentResult := None; loading := false;
     error := None; rawResponse := "" |}.

Definition Run (A : Type) : Type := M exn State A.

Definition setPaymentRequest (x : string) : Run unit :=
  modify (fun st => {| paymentRequest := x; paymentResult := paymentResult st;
                       loading := loading st; error := error st;
                       rawResponse := rawResponse st |}).
Definition setPaymentResult (x : value) : Run unit :=
  modify (fun st => {| paymentRequest := paymentRequest st; paymentResult := x;
                       loading := loading st; error := error st;
                       rawResponse := rawResponse st |}).
Definition setLoading (x : bool) : Run unit :=
  modify (fun st => {| paymentRequest := paymentRequest st;
                       paymentResult := paymentResult st;
                       loading := x; error := error st;
                       rawResponse := rawResponse st |}).
Definition setError (x : option string) : Run unit :=
  modify (fun st => {| paymentRequest := paymentRequest st;
                       paymentResult := paymentResult st;
                       loading := loading st; error := x;
                       rawResponse := rawResponse st |}).
Definition setRawResponse (x : string) : Run unit :=
  modify (fun st => {| paymentRequest := paymentRequest st;
                       paymentResult := paymentResult st;
                       loading := loading st; error := error st;
                       rawResponse := x |}).

Section Component.
(** The environment of the component: [JSON.parse] ([None]: it throws a
    [SyntaxError]), [JSON.stringify], the conversion of a value to a string
    inside a template literal, and the node client's [sendPaymentV2]
    ([None]: the call fails). *)
Variable JSON_parse : string -> option json.
Variable JSON_stringify : json -> string.
Variable ToString : value -> string.
Variable sendPaymentV2 : string -> option json.

(** [JSON.parse(x)]; an [undefined] argument is not valid JSON. *)
Definition parse (x : option string) : Run json :=
  match x with
  | Some s =>
      match JSON_parse s with
      | Some v => ret v
      | None => throw SyntaxError
      end
  | None => throw SyntaxError
  end.

(** [handlePaymentUpdate] *)
Definition handlePaymentUpdate (paymentData : json) : Run unit :=
  setPaymentResult (Some paymentData);;
  result ← lift (prop (Some paymentData) "result");
  if negb (truthy result) then ret tt
  else
    status ← lift (prop result "status");
    if is_str status "SUCCEEDED" then
      setLoading false;;
      setError None
    else if is_str status "FAILED" then
      setLoading false;;
      failure_reason ← lift (prop result "failure_reason");
      setError (Some ("Payment failed: " +:+
                      (if truthy failure_reason then ToString failure_reason
                       else "Unknown error")))
    else if is_str status "IN_FLIGHT" then
      ret tt
    else
      setLoading false;;
      setError (Some ("Unknown payment status: " +:+ ToString status)).

(** The non-empty lines of a streamed response:
    [responseData.split('\n').filter(s => s.trim() !== '')] *)
Definition nonempty_lines (responseData : string) : list string :=
  List.filter (fun s => negb (String.eqb (trim s) "")) (split newline responseData).

(** [processPaymentResponse] *)
Definition processPaymentResponse (rawResponse : string) : Run unit :=
  try_catch
    (responseData ← parse (Some rawResponse);
     result ← (if truthy (Some responseData) && typeof_object (Some responseData)
                then lift (prop (Some responseData) "result")
                else ret None);
     if truthy result then
       handlePaymentUpdate responseData
     else
       match responseData with
       | JStr s =>
           let jsonStrings := nonempty_lines s in
           if (length jsonStrings =? 0)%nat then
             setError (Some "No valid payment response found");;
             setLoading false
           else
             let lastJsonString := last_elem jsonStrings in
             try_catch
               (paymentData ← parse lastJsonString;
                inner ← (if truthy (Some paymentData)
                          then lift (prop (Some paymentData) "result")
                          else ret None);
                if negb (truthy (Some paymentData)) || negb (truthy inner) then
                  setError (Some "Invalid payment response format");;
                  setLoading false
                else
                  handlePaymentUpdate paymentData)
               (fun _ =>
                  setError (Some "Unable to parse payment response");;
                  setLoading false)
       | _ =>
           setError (Some "Unrecognized payment response format");;
           setLoading false
       end)
    (fun _ =>
       setError (Some "Failed to process payment response");;
       setLoading false).

(** The effect on [rawResponse]:
    [if (!rawResponse) return; processPaymentResponse(rawResponse)] *)
Definition rawResponse_effect : Run unit :=
  raw ← gets rawResponse;
  if str_truthy raw then processPaymentResponse raw else ret tt.

(** [sendPayment] *)
Definition sendPayment : Run unit :=
  request ← gets paymentRequest;
  if negb (str_truthy request) || String.eqb (trim request) "" then
    setError (Some "Please enter a valid lightning invoice")
  else
    try_catch
      (setLoading true;;
       setError None;;
       setPaymentResult None;;
       setRawResponse "";;
       result ← lift (match sendPaymentV2 request with
                      | Some r => inl r
                      | None => inr Rejected
                      end);
       setRawResponse (JSON_stringify result))
      (fun _ =>
         setError (Some "Failed to send payment. Please check your invoice and node connection.");;
         setLoading false).

(** A click on "Send Payment" followed by the effect it triggers. *)
Definition pay : Run unit := sendPayment;; rawResponse_effect.
End Component.

(** [paymentData && paymentData.result], the test a line of the stream has
    to pass. *)
Definition has_result (paymentData : json) : bool :=
  truthy (Some paymentData) &&
  match prop (Some paymentData) "result" with
  | inl result => truthy result
  | inr _ => false
  end.


(** *** The rest of the component: [reset] and what is rendered *)

(** [v?.k]: the property, or [undefined] when there is nothing to read from. *)
Definition opt_prop (v : value) (k : string) : value :=
  match prop v k with
  | inl r => r
  | inr _ => None
  end.

(** [reset] *)
Definition reset : Run unit :=
  setPaymentRequest "";;
  setPaymentResult None;;
  setError None;;
  setRawResponse "".

(** What [renderUI] returns: the payment form of [renderPaymentForm], with
    or without its "Payment in progress..." note, or the result panel of
    [renderPaymentResult], headed "Payment Successful" or "Payment Failed". *)
Inductive View : Type :=
| PaymentForm (in_progress : bool)
| PaymentResultView (isSuccess : bool).

(** [renderUI] *)
Definition renderUI (st : State) : View :=
  let result := opt_prop (paymentResult st) "result" in
  if negb (truthy (paymentResult st)) || negb (truthy result)
     || (loading st && is_str (opt_prop result "status") "IN_FLIGHT")
  then PaymentForm (loading st && is_str (opt_prop result "status") "IN_FLIGHT")
  else PaymentResultView (is_str (opt_prop result "status") "SUCCEEDED").

(** The send button: [disabled={loading || !paymentRequest}] *)
Definition send_disabled (st : State) : bool :=
  loading st || negb (str_truthy (paymentRequest st)).

(** The payment result carries an update of the given status. *)
Definition update_status (st : State) (status : string) : Prop :=
  truthy (opt_prop (paymentResult st) "result") = true /\
  is_str (opt_prop (opt_prop (paymentResult st) "result") "status") status = true.


(** The state after a response was rejected with a message: the message is
    shown and the request is no longer in progress. *)
Definition failed_with (st : State) (msg : string) : State :=
  {| paymentRequest := paymentRequest st; paymentResult := paymentResult st;
     loading := false; error := Some msg; rawResponse := rawResponse st |}.

End Send.

(** ** The receive form ([components/LightningReceive.tsx]) *)

Module Receive.
Import JS Eff EventBus.

(** [interface Invoice]: the local copy of the invoice just created. *)
Record Invoice : Type := {
  payment_request : string;
  payment_hash : string;
  value_msat : string;
  timestamp : string;
  expiry : string;
  memo : option string;
  settled : bool
}.

(** The argument and the result of the node client's [addInvoice]. *)
Record AddInvoiceRequest : Type := {
  req_value_msat : string;
  req_memo : string;
  req_expiry : string
}.

Record AddInvoiceResponse : Type := {
  resp_payment_request : string;
  resp_r_hash : string
}.

(** One call of [eventBus.emit(event, payload)]. *)
Record Emission : Type := {
  emitted_event : AppEvent;
  emitted_payload : Invoice
}.

(** Component state ([useState]) and the calls made to the event bus.  The
    timers that clear [successMessage] and [checkingPayment] later on are
    not part of the state. *)
Record State : Type := {
  amount : number;
  memo_input : string;
  invoice : option Invoice;
  loading : bool;
  error : option string;
  successMessage : option string;
  checkingPayment : bool;
  emissions : list Emission
}.

Definition initial : State :=
  {| amount := int 10; memo_input := ""; invoice := None; loading := false;
     error := None; successMessage := None; checkingPayment := false;
     emissions := [] |}.

Inductive exn : Type := NodeError.

Definition Run (A : Type) : Type := M exn State A.

Definition setAmount (x : number) : Run unit :=
  modify (fun st => {| amount := x; memo_input := memo_input st; invoice := invoice st;
                       loading := loading st; error := error st;
                       successMessage := successMessage st;
                       checkingPayment := checkingPayment st;
                       emissions := emissions st |}).
Definition setMemo (x : string) : Run unit :=
  modify (fun st => {| amount := amount st; memo_input := x; invoice := invoice st;
                       loading := loading st; error := error st;
                       successMessage := successMessage st;
                       checkingPayment := checkingPayment st;
                       emissions := emissions st |}).
Definition setInvoice (x : option Invoice) : Run unit :=
  modify (fun st => {| amount := amount st; memo_input := memo_input st; invoice := x;
                       loading := loading st; error := error st;
                       successMessage := successMessage st;
                       checkingPayment := checkingPayment st;
                       emissions := emissions st |}).
Definition setLoading (x : bool) : Run unit :=
  modify (fun st => {| amount := amount st; memo_input := memo_input st;
                       invoice := invoice st; loading := x; error := error st;
                       successMessage := successMessage st;
                       checkingPayment := checkingPayment st;
                       emissions := emissions st |}).
Definition setError (x : option string) : Run unit :=
  modify (fun st => {| amount := amount st; memo_input := memo_input st;
                       invoice := invoice st; loading := loading st; error := x;
                       successMessage := successMessage st;
                       checkingPayment := checkingPayment st;
                       emissions := emissions st |}).
Definition setSuccessMessage (x : option string) : Run unit :=
  modify (fun st => {| amount := amount st; memo_input := memo_input st;
                       invoice := invoice st; loading := loading st; error := error st;
                       successMessage := x;
                       checkingPayment := checkingPayment st;
                       emissions := emissions st |}).
Definition setCheckingPayment (x : bool) : Run unit :=
  modify (fun st => {| amount := amount st; memo_input := memo_input st;
                       invoice := invoice st; loading := loading st; error := error st;
                       successMessage := successMessage st;
                       checkingPayment := x;
                       emissions := emissions st |}).

(** [eventBus.emit(event, payload)]; the bus catches what subscribers throw,
    so the call always returns. *)
Definition eventBus_emit (event : AppEvent) (payload : Invoice) : Run unit :=
  modify (fun st => {| amount := amount st; memo_input := memo_input st;
                       invoice := invoice st; loading := loading st; error := error st;
                       successMessage := successMessage st;
                       checkingPayment := checkingPayment st;
                       emissions := emissions st ++
                         [{| emitted_event := event; emitted_payload := payload |}] |}).

(** The amount field: [setAmount(parseInt(e.target.value) || 0)] *)
Definition onAmountChange (input : string) : Run unit :=
  let parsed := parseInt input in
  setAmount (if num_truthy parsed then parsed else int 0).

(** The request passed to [lnd.addInvoice]. *)
Definition addInvoice_request (st : State) : AddInvoiceRequest :=
  {| req_value_msat := Number_toString (double (num_mul (amount st) (int 1000)));
     req_memo := if str_truthy (memo_input st) then memo_input st else "Lightning Payment";
     req_expiry := "3600" |}.

(** [createInvoice], for a node client [addInvoice] ([None]: the call
    fails) and the clock reading [now_ms] of [Date.now()]. *)
Definition createInvoice (addInvoice : AddInvoiceRequest -> option AddInvoiceResponse)
    (now_ms : Z) : Run unit :=
  try_finally
    (try_catch
       (setLoading true;;
        setError None;;
        st ← gets id;
        newInvoice ← lift (match addInvoice (addInvoice_request st) with
                           | Some r => inl r
                           | None => inr NodeError
                           end);
        let formattedInvoice :=
          {| payment_request := resp_payment_request newInvoice;
             payment_hash := resp_r_hash newInvoice;
             value_msat := Number_toString (double (num_mul (amount st) (int 1000)));
             timestamp :=
               Number_toString (Math_floor (num_div (int now_ms) (int 1000)));
             expiry := "3600";
             memo := Some (if str_truthy (memo_input st) then memo_input st
                           else "Lightning Payment");
             settled := false |} in
        setInvoice (Some formattedInvoice);;
        eventBus_emit invoice_created formattedInvoice)
       (fun _ => setError (Some "Failed to create invoice. Please check your node connection.")))
    (setLoading false).

(** [{ ...invoice, settled: s }] *)
Definition with_settled (inv : Invoice) (s : bool) : Invoice :=
  {| payment_request := payment_request inv; payment_hash := payment_hash inv;
     value_msat := value_msat inv; timestamp := timestamp inv; expiry := expiry inv;
     memo := memo inv; settled := s |}.

(** [checkInvoiceStatus], for a node client [lookupInvoiceV2] that answers
    with the [settled] flag of the invoice ([None]: the call fails). *)
Definition checkInvoiceStatus (lookupInvoiceV2 : string -> option bool) : Run unit :=
  current ← gets invoice;
  match current with
  | None => ret tt
  | Some inv =>
      try_finally
        (try_catch
           (setLoading true;;
            setCheckingPayment true;;
            isSettledNow ← lift (match lookupInvoiceV2 (payment_hash inv) with
                                 | Some b => inl b
                                 | None => inr NodeError
                                 end);
            let wasSettledBefore := settled inv in
            let updatedInvoiceState := with_settled inv isSettledNow in
            setInvoice (Some updatedInvoiceState);;
            if negb wasSettledBefore && isSettledNow then
              eventBus_emit transaction_new updatedInvoiceState;;
              setSuccessMessage (Some "Payment received!")
            else if negb isSettledNow then
              setSuccessMessage (Some "Payment not detected yet. Please try again in a moment.")
            else ret tt)
           (fun _ => setError (Some "Failed to check payment status.")))
        (setLoading false)
  end.

(** Successive clicks on "Check Payment", one node answer per click. *)
Definition check_all (lookups : list (string -> option bool)) : Run unit :=
  forEach checkInvoiceStatus lookups.

(** The ['transaction:new'] emissions of a trace. *)
Definition settlement_notifications (log : list Emission) : list Emission :=
  List.filter (fun e => bool_decide (emitted_event e = transaction_new)) log.

(** The [createInvoice] of the earlier variant of the component: the payment
    hash is the hexadecimal form of [r_hash] and no event is emitted. *)
Definition createInvoice_v1 (hex : string -> string)
    (addInvoice : AddInvoiceRequest -> option AddInvoiceResponse) (now_ms : Z) : Run unit :=
  try_finally
    (try_catch
       (setLoading true;;
        setError None;;
        st ← gets id;
        newInvoice ← lift (match addInvoice (addInvoice_request st) with
                           | Some r => inl r
                           | None => inr NodeError
                           end);
        setInvoice (Some
          {| payment_request := resp_payment_request newInvoice;
             payment_hash := hex (resp_r_hash newInvoice);
             value_msat := Number_toString (double (num_mul (amount st) (int 1000)));
             timestamp :=
               Number_toString (Math_floor (num_div (int now_ms) (int 1000)));
             expiry := "3600";
             memo := Some (if str_truthy (memo_input st) then memo_input st
                           else "Lightning Payment");
             settled := false |}))
       (fun _ => setError (Some "Failed to create invoice. Please check your node connection.")))
    (setLoading false).

(** *** Vocabulary for the properties of the settlement check *)

(** One check fires the settlement notification: an invoice is stored, its
    [settled] flag is false, and the node answers [settled = true]. *)
Definition fires (lookupInvoiceV2 : string -> option bool) (st : State) : bool :=
  match invoice st with
  | Some inv =>
      negb (settled inv) && bool_decide (lookupInvoiceV2 (payment_hash inv) = Some true)
  | None => false
  end.

(** The answers of the node to successive lookups of one payment hash. *)
Definition answers (lookups : list (string -> option bool)) (hash : string)
    : list (option bool) :=
  map (fun lookupInvoiceV2 => lookupInvoiceV2 hash) lookups.

(** The node never reports an invoice unsettled after reporting it settled. *)
Definition not_unsettled (answer : option bool) : bool :=
  negb (bool_decide (answer = Some false)).

Fixpoint stays_settled (l : list (option bool)) : bool :=
  match l with
  | [] => true
  | Some true :: rest => forallb not_unsettled rest
  | _ :: rest => stays_settled rest
  end.

End Receive.

(** ** The transaction history ([components/TransactionHistory]) *)

Module History.
Import JS Eff.

(** *** Node responses ([types.ts]) *)

Record Htlc : Type := { htlc_status : string }.

Record Payment : Type := {
  pay_payment_hash : string;
  pay_value_msat : string;
  pay_fee_msat : string;
  pay_creation_date : string;
  pay_path : option (list string);
  pay_status : string;
  pay_payment_request : option string;
  pay_htlcs : option (list Htlc)
}.

Record Invoice : Type := {
  inv_r_hash : string;
  inv_value_msat : option string;
  inv_value : option string;
  inv_memo : option string;
  inv_state : string;
  inv_settle_date : string;
  inv_payment_request : string;
  inv_expiry : option string;
  inv_creation_date : option string
}.

Record DecodedPayReq : Type := { description : option string }.

Record PaymentsResponse : Type := { payments : option (list Payment) }.
Record InvoicesResponse : Type := { invoices : option (list Invoice) }.

(** The node client, as far as the component uses it.  A call answers
    [None] when it fails.  [listInvoices] takes its [pending_only] flag. *)
Record LndClient : Type := {
  listPayments : option PaymentsResponse;
  listInvoices : bool -> option InvoicesResponse;
  decodePayReq : string -> option DecodedPayReq
}.

(** *** The view model *)

Inductive TxType : Type := sent | received.

#[global] Instance TxType_eq_dec : EqDecision TxType.
Proof. solve_decision. Defined.

Definition type_name (t : TxType) : string :=
  match t with
  | sent => "sent"
  | received => "received"
  end.

Inductive RawData : Type :=
| RawPayment (p : Payment)
| RawInvoice (i : Invoice).

Record Transaction : Type := {
  tx_id : string;
  tx_type : TxType;
  tx_amount : number;
  tx_fee : option number;
  tx_date : Date;
  tx_description : string;
  tx_status : string;
  tx_paymentRequest : option string;
  tx_destination : option string;
  tx_isExpired : option bool;
  tx_expiryDate : option Date;
  tx_displayState : option string;
  tx_htlcState : option string;
  tx_rawData : RawData
}.

Record TransactionFilters : Type := {
  filter_type : list string;
  filter_status : list string;
  filter_timeRange : string
}.

(** [mSatsToSats]: [Number(mSats) / 1000] *)
Definition mSatsToSats (mSats : str_or_num) : number :=
  double (num_div (Number_ mSats) (int 1000)).

(** [decodePaymentRequest], with the client present. *)
Definition decodePaymentRequest (client : LndClient) (payReq : string) : string :=
  match decodePayReq client payReq with
  | Some decodedInvoice => or_default (description decodedInvoice) "No description"
  | None => "Unable to decode"
  end.

(** [payment.path[payment.path.length - 1]] when the path is present and not
    empty. *)
Definition last_hop (payment : Payment) : option string :=
  match pay_path payment with
  | Some path => last_elem path
  | None => None
  end.

(** The view model of a sent payment (the callback of
    [paymentsResponse.payments.map] in [loadTransactions]). *)
Definition paymentToTransaction (client : LndClient) (payment : Payment) : Transaction :=
  let description :=
    if opt_truthy (pay_payment_request payment)
    then decodePaymentRequest client (default "" (pay_payment_request payment))
    else match last_hop payment with
         | Some hop => "Payment to " +:+ hop
         | None => "Lightning payment"
         end in
  let htlcState :=
    match pay_htlcs payment with
    | Some hs => match last_elem hs with
                 | Some h => htlc_status h
                 | None => ""
                 end
    | None => ""
    end in
  {| tx_id := pay_payment_hash payment;
     tx_type := sent;
     tx_amount := mSatsToSats (OfStr (pay_value_msat payment));
     tx_fee := Some (mSatsToSats (OfStr (pay_fee_msat payment)));
     tx_date :=
       new_Date (double (num_mul (parseInt (pay_creation_date payment)) (int 1000)));
     tx_description := description;
     tx_status := pay_status payment;
     tx_paymentRequest := Some (or_default (pay_payment_request payment) "");
     tx_destination := Some (default "" (last_hop payment));
     tx_isExpired := None;
     tx_expiryDate := None;
     tx_displayState := Some (pay_status payment);
     tx_htlcState := Some htlcState;
     tx_rawData := RawPayment payment |}.

(** The pieces of the callback of [invoices.map] in [processInvoices]. *)
Definition creationDate (invoice : Invoice) : number :=
  parseInt (or_default (inv_creation_date invoice) "0").

Definition expirySeconds (invoice : Invoice) : number :=
  if opt_truthy (inv_expiry invoice)
  then parseInt (default "" (inv_expiry invoice))
  else int 3600.

Definition expiryTimestamp (invoice : Invoice) : number :=
  double (num_add (creationDate invoice) (expirySeconds invoice)).

Definition invoice_status (invoice : Invoice) : string :=
  if str_truthy (inv_state invoice) then inv_state invoice else "UNKNOWN".

Definition invoice_amount (invoice : Invoice) : number :=
  if opt_truthy (inv_value_msat invoice)
  then mSatsToSats (OfStr (default "" (inv_value_msat invoice)))
  else if opt_truthy (inv_value invoice)
       then parseInt (default "" (inv_value invoice))
       else int 0.

Definition invoiceToTransaction (currentTime : number) (invoice : Invoice) : Transaction :=
  let date :=
    if String.eqb (inv_state invoice) "SETTLED" && str_truthy (inv_settle_date invoice)
    then new_Date (double (num_mul (parseInt (inv_settle_date invoice)) (int 1000)))
    else new_Date (double (num_mul (creationDate invoice) (int 1000))) in
  let amount :=
    if String.eqb (inv_state invoice) "SETTLED"
    then invoice_amount invoice
    else invoice_amount invoice in
  let status := invoice_status invoice in
  let expiryDate := new_Date (double (num_mul (expiryTimestamp invoice) (int 1000))) in
  let isExpired :=
    String.eqb status "OPEN" && num_gt currentTime (expiryTimestamp invoice) in
  {| tx_id := inv_r_hash invoice;
     tx_type := received;
     tx_amount := amount;
     tx_fee := None;
     tx_date := date;
     tx_description := or_default (inv_memo invoice) "Lightning invoice";
     tx_status := status;
     tx_paymentRequest := Some (inv_payment_request invoice);
     tx_destination := None;
     tx_isExpired := Some isExpired;
     tx_expiryDate := Some expiryDate;
     tx_displayState := Some (inv_state invoice);
     tx_htlcState := None;
     tx_rawData := RawInvoice invoice |}.

(** [processInvoices] *)
Definition processInvoices (invoices : list Invoice) (currentTime : number) : list Transaction :=
  map (invoiceToTransaction currentTime) invoices.

(** The comparator of the final sort:
    [(a, b) => b.date.getTime() - a.date.getTime()] *)
Definition by_date_desc (a b : Transaction) : number :=
  num_sub (getTime (tx_date b)) (getTime (tx_date a)).

(** The sent payments of [loadTransactions]. *)
Definition sentPayments (client : LndClient) (paymentsResponse : PaymentsResponse)
    : list Transaction :=
  match payments paymentsResponse with
  | Some ps => map (paymentToTransaction client) ps
  | None => []
  end.

(** [combinedInvoices]: settled invoices, then pending ones. *)
Definition combinedInvoices (settledInvoicesResponse pendingInvoicesResponse : InvoicesResponse)
    : list Invoice :=
  default [] (invoices settledInvoicesResponse) ++
  default [] (invoices pendingInvoicesResponse).

(** The received payments of [loadTransactions]. *)
Definition receivedPayments (combined : list Invoice) (now : number) : list Transaction :=
  if (0 <? length combined)%nat then processInvoices combined now else [].

(** [allTransactions]: both lists, sorted by date. *)
Definition allTransactions (sentPayments receivedPayments : list Transaction)
    : list Transaction :=
  sort by_date_desc (sentPayments ++ receivedPayments).

(** *** Component state *)

Record State : Type := {
  transactions : list Transaction;
  filteredTransactions : list Transaction;
  loading : bool;
  error : option string;
  currentPage : number;
  totalPages : number;
  lastUpdated : option Date;
  filters : TransactionFilters
}.

Definition initial : State :=
  {| transactions := []; filteredTransactions := []; loading := true; error := None;
     currentPage := int 1; totalPages := int 1; lastUpdated := None;
     filters := {| filter_type := ["all"]; filter_status := ["all"];
                   filter_timeRange := "all" |} |}.

Inductive exn : Type := NodeError.

Definition Run (A : Type) : Type := M exn State A.

Definition setTransactions (x : list Transaction) : Run unit :=
  modify (fun st => {| transactions := x; filteredTransactions := filteredTransactions st;
                       loading := loading st; error := error st;
                       currentPage := currentPage st; totalPages := totalPages st;
                       lastUpdated := lastUpdated st; filters := filters st |}).
Definition setFilteredTransactions (x : list Transaction) : Run unit :=
  modify (fun st => {| transactions := transactions st; filteredTransactions := x;
                       loading := loading st; error := error st;
                       currentPage := currentPage st; totalPages := totalPages st;
                       lastUpdated := lastUpdated st; filters := filters st |}).
Definition setLoading (x : bool) : Run unit :=
  modify (fun st => {| transactions := transactions st;
                       filteredTransactions := filteredTransactions st;
                       loading := x; error := error st;
                       currentPage := currentPage st; totalPages := totalPages st;
                       lastUpdated := lastUpdated st; filters := filters st |}).
Definition setError (x : option string) : Run unit :=
  modify (fun st => {| transactions := transactions st;
                       filteredTransactions := filteredTransactions st;
                       loading := loading st; error := x;
                       currentPage := currentPage st; totalPages := totalPages st;
                       lastUpdated := lastUpdated st; filters := filters st |}).
Definition setCurrentPage (x : number) : Run unit :=
  modify (fun st => {| transactions := transactions st;
                       filteredTransactions := filteredTransactions st;
                       loading := loading st; error := error st;
                       currentPage := x; totalPages := totalPages st;
                       lastUpdated := lastUpdated st; filters := filters st |}).
Definition setTotalPages (x : number) : Run unit :=
  modify (fun st => {| transactions := transactions st;
                       filteredTransactions := filteredTransactions st;
                       loading := loading st; error := error st;
                       currentPage := currentPage st; totalPages := x;
                       lastUpdated := lastUpdated st; filters := filters st |}).
Definition setLastUpdated (x : option Date) : Run unit :=
  modify (fun st => {| transactions := transactions st;
                       filteredTransactions := filteredTransactions st;
                       loading := loading st; error := error st;
                       currentPage := currentPage st; totalPages := totalPages st;
                       lastUpdated := x; filters := filters st |}).
Definition setFilters (x : TransactionFilters) : Run unit :=
  modify (fun st => {| transactions := transactions st;
                       filteredTransactions := filteredTransactions st;
                       loading := loading st; error := error st;
                       currentPage := currentPage st; totalPages := totalPages st;
                       lastUpdated := lastUpdated st; filters := x |}).

(** Local-time arithmetic of [Date], on time values in milliseconds:
    [setHours(0, 0, 0, 0)], [setDate(getDate() - 7)] and
    [setMonth(getMonth() - 1)]. *)
Record LocalTime : Type := {
  start_of_day : Z -> Z;
  a_week_before : Z -> Z;
  a_month_before : Z -> Z
}.

Section Component.
(** The [pageSize] prop, the local calendar and the clock. *)
Variable pageSize : number.
Variable calendar : LocalTime.

(** The three filters of [applyFilters]. *)
Definition filterByType (f : TransactionFilters) (l : list Transaction) : list Transaction :=
  if negb (includes (filter_type f) "all")
  then List.filter (fun tx => includes (filter_type f) (type_name (tx_type tx))) l
  else l.

Definition filterByStatus (f : TransactionFilters) (l : list Transaction) : list Transaction :=
  if negb (includes (filter_status f) "all")
  then List.filter (fun tx => includes (filter_status f) (tx_status tx)) l
  else l.

Definition startDate (f : TransactionFilters) (now_ms : Z) : Date :=
  let t :=
    if String.eqb (filter_timeRange f) "today" then start_of_day calendar now_ms
    else if String.eqb (filter_timeRange f) "week" then a_week_before calendar now_ms
    else if String.eqb (filter_timeRange f) "month" then a_month_before calendar now_ms
    else now_ms in
  new_Date (int t).

Definition filterByTime (f : TransactionFilters) (now_ms : Z) (l : list Transaction)
    : list Transaction :=
  if negb (String.eqb (filter_timeRange f) "all")
  then List.filter
         (fun tx => num_ge (getTime (tx_date tx)) (getTime (startDate f now_ms))) l
  else l.

Definition filtered (f : TransactionFilters) (now_ms : Z) (txList : list Transaction)
    : list Transaction :=
  filterByTime f now_ms (filterByStatus f (filterByType f txList)).

(** [applyFilters(txList)], at clock reading [now_ms]. *)
Definition applyFilters (now_ms : Z) (txList : list Transaction) : Run unit :=
  f ← gets filters;
  let filtered := filtered f now_ms txList in
  let totalItems := int (Z.of_nat (length filtered)) in
  let calculatedTotalPages := Math_ceil (num_div totalItems pageSize) in
  setFilteredTransactions filtered;;
  setTotalPages (if num_gt calculatedTotalPages (int 0) then calculatedTotalPages
                 else int 1);;
  setCurrentPage (int 1).

(** [loadTransactions], at clock reading [now_ms]. *)
Definition loadTransactions (client : option LndClient) (now_ms : Z) : Run unit :=
  match client with
  | None => ret tt
  | Some client =>
      setLoading true;;
      setError None;;
      try_catch
        (paymentsResponse ← lift (match listPayments client with
                                  | Some r => inl r
                                  | None => inr NodeError
                                  end);
         let sentPayments := sentPayments client paymentsResponse in
         settledInvoicesResponse ← lift (match listInvoices client false with
                                         | Some r => inl r
                                         | None => inr NodeError
                                         end);
         pendingInvoicesResponse ← lift (match listInvoices client true with
                                         | Some r => inl r
                                         | None => inr NodeError
                                         end);
         let combinedInvoices :=
           combinedInvoices settledInvoicesResponse pendingInvoicesResponse in
         let now := Math_floor (num_div (int now_ms) (int 1000)) in
         let receivedPayments := receivedPayments combinedInvoices now in
         let allTransactions := allTransactions sentPayments receivedPayments in
         setTransactions allTransactions;;
         applyFilters now_ms allTransactions;;
         setLastUpdated (Some (new_Date (int now_ms)));;
         setLoading false)
        (fun _ =>
           setError (Some "Failed to load transaction history. Please try again later.");;
           setLoading false)
  end.

(** [getPaginatedTransactions] *)
Definition getPaginatedTransactions (st : State) : list Transaction :=
  let startIndex := num_mul (num_sub (currentPage st) (int 1)) pageSize in
  let endIndex := num_add startIndex pageSize in
  slice (filteredTransactions st) startIndex endIndex.

(** [handlePageChange] *)
Definition handlePageChange (page : number) : Run unit :=
  tp ← gets totalPages;
  if num_lt page (int 1) || num_gt page tp then ret tt
  else setCurrentPage page.
End Component.

(** *** Vocabulary for the properties of the list *)

(** The millisatoshi string a listed transaction takes its amount from. *)
Definition msat_source (tx : Transaction) : option string :=
  match tx_rawData tx with
  | RawPayment p => Some (pay_value_msat p)
  | RawInvoice i => if opt_truthy (inv_value_msat i) then inv_value_msat i else None
  end.

(** A transaction of the list: the view model of a payment or of an invoice. *)
Definition listed (client : LndClient) (currentTime : number) (tx : Transaction) : Prop :=
  (exists p, tx = paymentToTransaction client p) \/
  (exists i, tx = invoiceToTransaction currentTime i).

(** *** Vocabulary for the properties of pagination *)

(** What happens to the component: a (re)load, a run of [applyFilters] on a
    list, a click on a page button, a change of the filters. *)
Inductive action : Type :=
| Load (client : option LndClient) (now_ms : Z)
| Apply (now_ms : Z) (txList : list Transaction)
| Page (page : Z)
| Filter (f : TransactionFilters).

Definition perform (pageSize : number) (calendar : LocalTime) (a : action) : Run unit :=
  match a with
  | Load client now_ms => loadTransactions pageSize calendar client now_ms
  | Apply now_ms txList => applyFilters pageSize calendar now_ms txList
  | Page page => handlePageChange (int page)
  | Filter f => setFilters f
  end.

Definition perform_all (pageSize : number) (calendar : LocalTime) (l : list action)
    : Run unit :=
  forEach (perform pageSize calendar) l.

(** The pagination state is consistent for the page size [ps]: the current
    page is an integer between 1 and the number of pages, and the number of
    pages is [max 1 (ceil (length / ps))]. *)
Definition pagination_ok (ps : Z) (st : State) : Prop :=
  exists cp : Z,
    currentPage st = int cp /\
    totalPages st =
      int (Z.max 1 (ceil_div (Z.of_nat (length (filteredTransactions st))) ps)) /\
    1 <= cp <= Z.max 1 (ceil_div (Z.of_nat (length (filteredTransactions st))) ps).

(** *** Vocabulary for the properties of the sorted list *)

(** [a.date >= b.date], as JavaScript compares two dates. *)
Definition date_ge (a b : Transaction) : Prop :=
  num_ge (getTime (tx_date a)) (getTime (tx_date b)) = true.

(** The date of the transaction is a valid date. *)
Definition valid_date (tx : Transaction) : Prop :=
  exists t : Z, getTime (tx_date tx) = int t.

(** The list computed by [loadTransactions] from the answers of the node. *)
Definition reconciled (client : LndClient) (paymentsResponse : PaymentsResponse)
    (settledInvoicesResponse pendingInvoicesResponse : InvoicesResponse) (now : number)
    : list Transaction :=
  allTransactions
    (sentPayments client paymentsResponse)
    (receivedPayments
       (combinedInvoices settledInvoicesResponse pendingInvoicesResponse) now).


(** *** The rest of the component: filter changes, labels, page buttons *)

(** The body of [applyFilters] as run inside a handler: [filters] is the
    value the handler closed over when the component was rendered. *)
Definition applyFilters_in (pageSize : number) (calendar : LocalTime)
    (f : TransactionFilters) (now_ms : Z) (txList : list Transaction) : Run unit :=
  let filtered := filtered calendar f now_ms txList in
  let totalItems := int (Z.of_nat (length filtered)) in
  let calculatedTotalPages := Math_ceil (num_div totalItems pageSize) in
  setFilteredTransactions filtered;;
  setTotalPages (if num_gt calculatedTotalPages (int 0) then calculatedTotalPages
                 else int 1);;
  setCurrentPage (int 1).

(** A well-typed argument pair of [updateFilter]: the key and its value. *)
Inductive FilterUpdate : Type :=
| UpdateType (value : list string)
| UpdateStatus (value : list string)
| UpdateTimeRange (value : string).

(** [{ ...filters, [filterType]: value }] *)
Definition with_update (f : TransactionFilters) (u : FilterUpdate) : TransactionFilters :=
  match u with
  | UpdateType v =>
      {| filter_type := v; filter_status := filter_status f;
         filter_timeRange := filter_timeRange f |}
  | UpdateStatus v =>
      {| filter_type := filter_type f; filter_status := v;
         filter_timeRange := filter_timeRange f |}
  | UpdateTimeRange v =>
      {| filter_type := filter_type f; filter_status := filter_status f;
         filter_timeRange := v |}
  end.

(** [updateFilter]: the new filters are stored, and [applyFilters] runs with
    the filters of the render the handler belongs to. *)
Definition updateFilter (pageSize : number) (calendar : LocalTime) (now_ms : Z)
    (u : FilterUpdate) : Run unit :=
  rendered ← gets id;
  let newFilters := with_update (filters rendered) u in
  setFilters newFilters;;
  applyFilters_in pageSize calendar (filters rendered) now_ms (transactions rendered).

(** The effect on [filters]:
    [if (transactions.length > 0) applyFilters()] *)
Definition filters_effect (pageSize : number) (calendar : LocalTime) (now_ms : Z) : Run unit :=
  txs ← gets transactions;
  if (0 <? length txs)%nat then applyFilters pageSize calendar now_ms txs else ret tt.

(** The keys [toggleFilterValue] accepts. *)
Inductive ToggleKey : Type := KeyType | KeyStatus.

Definition toggle_update (k : ToggleKey) (v : list string) : FilterUpdate :=
  match k with
  | KeyType => UpdateType v
  | KeyStatus => UpdateStatus v
  end.

Definition toggle_current (k : ToggleKey) (f : TransactionFilters) : list string :=
  match k with
  | KeyType => filter_type f
  | KeyStatus => filter_status f
  end.

(** The values [toggleFilterValue] passes on for a value other than "all". *)
Definition toggled (currentValues : list string) (value : string) : list string :=
  let newValues := List.filter (fun v => negb (String.eqb v "all")) currentValues in
  if includes newValues value then
    let removed := List.filter (fun v => negb (String.eqb v value)) newValues in
    if (length removed =? 0)%nat then ["all"] else removed
  else newValues ++ [value].

(** [toggleFilterValue] *)
Definition toggleFilterValue (pageSize : number) (calendar : LocalTime) (now_ms : Z)
    (filterType : ToggleKey) (value : string) : Run unit :=
  f ← gets filters;
  let currentValues := toggle_current filterType f in
  if String.eqb value "all" then
    updateFilter pageSize calendar now_ms (toggle_update filterType ["all"])
  else
    updateFilter pageSize calendar now_ms
      (toggle_update filterType (toggled currentValues value)).

(** [getTransactionTypeDisplay] *)
Definition getTransactionTypeDisplay (tx : Transaction) : string :=
  let isPending := includes ["OPEN"; "IN_FLIGHT"; "PENDING"; "ACCEPTED"] (tx_status tx) in
  match tx_type tx with
  | received => if isPending then "Receiving" else "Received"
  | sent => if isPending then "Sending" else "Sent"
  end.

(** What [renderStatus] renders: the class and text of the badge, the
    tooltip, and whether the lines "Waiting for payment..." and "Payment
    window closed" are shown. *)
Record StatusView : Type := {
  statusClass : string;
  displayText : string;
  tooltipText : string;
  waiting_line : bool;
  closed_line : bool
}.

Definition is_true (o : option bool) : bool := default false o.

(** [renderStatus], for the string method [toUpperCase]. *)
Definition renderStatus (toUpperCase : string -> string) (tx : Transaction) : StatusView :=
  let upper := toUpperCase (tx_status tx) in
  let badge :=
    if is_true (tx_isExpired tx) && String.eqb (tx_status tx) "OPEN"
    then ("text-amber-600", "EXPIRED")
    else if String.eqb upper "SUCCEEDED" || String.eqb upper "SETTLED"
    then ("text-green-600", tx_status tx)
    else if String.eqb upper "FAILED" || String.eqb upper "CANCELED"
    then ("text-red-600", tx_status tx)
    else if String.eqb upper "IN_FLIGHT" || String.eqb upper "PENDING"
            || String.eqb upper "ACCEPTED"
    then ("text-yellow-600",
          match tx_type tx with sent => "IN PROGRESS" | received => "PENDING" end)
    else if String.eqb upper "OPEN"
    then ("text-blue-600 font-medium", "UNSETTLED")
    else if String.eqb upper "EXPIRED"
    then ("text-amber-600", tx_status tx)
    else ("text-gray-600", tx_status tx) in
  let tooltip1 :=
    if opt_truthy (tx_displayState tx)
       && negb (String.eqb (default "" (tx_displayState tx)) (tx_status tx))
    then " (" +:+ default "" (tx_displayState tx) +:+ ")"
    else "" in
  let tooltip :=
    if opt_truthy (tx_htlcState tx)
    then tooltip1 +:+ " - HTLC: " +:+ default "" (tx_htlcState tx)
    else tooltip1 in
  {| statusClass := fst badge;
     displayText := snd badge;
     tooltipText := tooltip;
     waiting_line := String.eqb (tx_status tx) "OPEN" && negb (is_true (tx_isExpired tx));
     closed_line := is_true (tx_isExpired tx) |}.

(** [a === b] on numbers. *)
Definition num_eqb (a b : number) : bool :=
  match a, b with
  | Inf s, Inf t => Bool.eqb s t
  | Fin x, Fin y => bool_decide (x = y)
  | _, _ => false
  end.

(** The page buttons of the table ([renderPagination] of
    [TransactionTable]): nothing for a single page, otherwise "Previous" and
    "Next", each possibly disabled. *)
Record PageButtons : Type := {
  previous_disabled : bool;
  next_disabled : bool
}.

Definition renderPagination (st : State) : option PageButtons :=
  if num_le (totalPages st) (int 1) then None
  else Some {| previous_disabled := num_eqb (currentPage st) (int 1);
               next_disabled := num_eqb (currentPage st) (totalPages st) |}.

(** The clicks on the two buttons: [onPageChange(currentPage - 1)] and
    [onPageChange(currentPage + 1)]. *)
Definition clickPrevious : Run unit :=
  cp ← gets currentPage;
  handlePageChange (num_sub cp (int 1)).

Definition clickNext : Run unit :=
  cp ← gets currentPage;
  handlePageChange (num_add cp (int 1)).

(** What [TransactionTable] renders: the spinner while loading, the error
    message, the note that nothing matches the filters, or the rows of the
    page followed by the result of [renderPagination].  The first three
    return before the page buttons are built. *)
Inductive TableView : Type :=
| LoadingView
| ErrorView (message : string)
| EmptyView
| RowsView (rows : list Transaction) (pagination : option PageButtons).

(** [TransactionTable], with the props the history gives it:
    [transactions={getPaginatedTransactions()}], [loading], [error],
    [currentPage], [totalPages] and [onPageChange={handlePageChange}]. *)
Definition TransactionTable (pageSize : number) (st : State) : TableView :=
  let transactions := getPaginatedTransactions pageSize st in
  if loading st then LoadingView
  else if opt_truthy (error st) then ErrorView (default "" (error st))
  else if (length transactions =? 0)%nat then EmptyView
  else RowsView transactions (renderPagination st).

(** The filter sets the buttons produce: ["all"] alone, or values without
    "all". *)
Definition normal_set (l : list string) : Prop :=
  l = ["all"] \/ (l <> [] /\ ~ In "all" l).

(** The page shown after a click on page [k]. *)
Definition page_shown (pageSize : number) (st : State) (k : Z) : list Transaction :=
  getPaginatedTransactions pageSize (snd (handlePageChange (int k) st)).


(** The description cell of the table ([TransactionTable]):
    [tx.description || 'No description'] *)
Definition table_description (tx : Transaction) : string :=
  if str_truthy (tx_description tx) then tx_description tx else "No description".

(** The three conditions of [applyFilters] taken together, for one entry. *)
Definition passes (calendar : LocalTime) (f : TransactionFilters) (now_ms : Z)
    (tx : Transaction) : bool :=
  (includes (filter_type f) "all" || includes (filter_type f) (type_name (tx_type tx))) &&
  (includes (filter_status f) "all" || includes (filter_status f) (tx_status tx)) &&
  (String.eqb (filter_timeRange f) "all" ||
   num_ge (getTime (tx_date tx)) (getTime (startDate calendar f now_ms))).

(** The page numbers [1 .. n]. *)
Definition page_numbers (n : nat) : list Z := map Z.of_nat (seq 1 n).

End History.

(** ** Sample data *)

Module Samples.
Import JS.

(** A node client whose calls all fail. *)
Definition offline_client : History.LndClient :=
  {| History.listPayments := None;
     History.listInvoices := fun _ => None;
     History.decodePayReq := fun _ => None |}.

(** A payment of 1500 millisatoshis. *)
Definition payment_1500 : History.Payment :=
  {| History.pay_payment_hash := "a1";
     History.pay_value_msat := "1500";
     History.pay_fee_msat := "0";
     History.pay_creation_date := "1700000000";
     History.pay_path := None;
     History.pay_status := "SUCCEEDED";
     History.pay_payment_request := None;
     History.pay_htlcs := None |}.

(** JSON texts, written with ['] for the double quote. *)
Definition dquote : ascii := ascii_of_N 34.
Definition backslash : ascii := ascii_of_N 92.

Fixpoint json_text (s : string) : string :=
  match s with
  | EmptyString => EmptyString
  | String c r => String (if Ascii.eqb c "'" then dquote else c) (json_text r)
  end.

(** The text of a JSON string literal. *)
Fixpoint json_escape (s : string) : string :=
  match s with
  | EmptyString => EmptyString
  | String c r =>
      if Ascii.eqb c dquote then String backslash (String dquote (json_escape r))
      else if Ascii.eqb c newline then String backslash (String "n" (json_escape r))
      else String c (json_escape r)
  end.

Definition json_string_literal (s : string) : string :=
  String dquote (json_escape s) +:+ String dquote "".

Definition line_in_flight : string := json_text "{'result':{'status':'IN_FLIGHT'}}".
Definition line_succeeded : string := json_text "{'result':{'status':'SUCCEEDED'}}".
Definition line_no_result : string := json_text "{'status':'SUCCEEDED'}".
Definition line_broken : string := json_text "{'result':".

Definition in_flight : Send.json :=
  Send.JObj [("result", Send.JObj [("status", Send.JStr "IN_FLIGHT")])].
Definition succeeded : Send.json :=
  Send.JObj [("result", Send.JObj [("status", Send.JStr "SUCCEEDED")])].
Definition no_result : Send.json :=
  Send.JObj [("status", Send.JStr "SUCCEEDED")].

(** Three streamed responses: a payment that succeeds, one whose last line
    is cut short, and one whose last line has no [result]. *)
Definition stream_ok : string := line_in_flight +:+ String newline line_succeeded.
Definition stream_broken : string := line_in_flight +:+ String newline line_broken.
Definition stream_no_result : string := line_in_flight +:+ String newline line_no_result.

(** [JSON.parse] and [JSON.stringify] on the texts above; every other text
    is rejected by this parser. *)
Definition sample_parse (text : string) : option Send.json :=
  if String.eqb text (json_string_literal stream_ok) then Some (Send.JStr stream_ok)
  else if String.eqb text (json_string_literal stream_broken) then Some (Send.JStr stream_broken)
  else if String.eqb text (json_string_literal stream_no_result)
       then Some (Send.JStr stream_no_result)
  else if String.eqb text line_in_flight then Some in_flight
  else if String.eqb text line_succeeded then Some succeeded
  else if String.eqb text line_no_result then Some no_result
  else None.

Definition sample_stringify (v : Send.json) : string :=
  match v with
  | Send.JStr s => json_string_literal s
  | _ => "null"
  end.

Definition sample_ToString (v : Send.value) : string :=
  match v with
  | Some (Send.JStr s) => s
  | Some _ => "[object Object]"
  | None => "undefined"
  end.

(** A node that streams the successful payment, and one that is down. *)
Definition node_streams_ok (request : string) : option Send.json :=
  Some (Send.JStr stream_ok).
Definition node_down (request : string) : option Send.json := None.

(** The form with an invoice typed in. *)
Definition send_ready : Send.State :=
  {| Send.paymentRequest := "lnbc100n1demo"; Send.paymentResult := None;
     Send.loading := false; Send.error := None; Send.rawResponse := "" |}.
Definition send_waiting : Send.State :=
  {| Send.paymentRequest := "lnbc100n1demo"; Send.paymentResult := None;
     Send.loading := true; Send.error := None; Send.rawResponse := "" |}.

(** A node that creates invoices. *)
Definition node_adds_invoice (request : Receive.AddInvoiceRequest)
    : option Receive.AddInvoiceResponse :=
  Some {| Receive.resp_payment_request := "lnbc100n1demo";
          Receive.resp_r_hash := "c0ffee" |}.

(** The receive form with amount 10 and memo "test". *)
Definition receive_ready : Receive.State :=
  {| Receive.amount := int 10; Receive.memo_input := "test"; Receive.invoice := None;
     Receive.loading := false; Receive.error := None;
     Receive.successMessage := None; Receive.checkingPayment := false;
     Receive.emissions := [] |}.

(** The form after "Create Invoice", at clock reading 1700000000123 ms. *)
Definition receive_created : Receive.State :=
  snd (Receive.createInvoice node_adds_invoice 1700000000123 receive_ready).

(** Node answers to a lookup. *)
Definition says (answer : option bool) (hash : string) : option bool := answer.

(** An open invoice created at 1700000000 that expires after an hour, and a
    settled one with the same dates. *)
Definition invoice_open : History.Invoice :=
  {| History.inv_r_hash := "c0ffee";
     History.inv_value_msat := Some "10000";
     History.inv_value := Some "10";
     History.inv_memo := Some "test";
     History.inv_state := "OPEN";
     History.inv_settle_date := "0";
     History.inv_payment_request := "lnbc100n1demo";
     History.inv_expiry := Some "3600";
     History.inv_creation_date := Some "1700000000" |}.

Definition invoice_settled : History.Invoice :=
  {| History.inv_r_hash := "decaf";
     History.inv_value_msat := Some "2500";
     History.inv_value := Some "2";
     History.inv_memo := None;
     History.inv_state := "SETTLED";
     History.inv_settle_date := "1700000100";
     History.inv_payment_request := "lnbc25n1demo";
     History.inv_expiry := Some "3600";
     History.inv_creation_date := Some "1700000000" |}.

(** A calendar in which days, weeks and months are fixed spans of time. *)
Definition fixed_calendar : History.LocalTime :=
  {| History.start_of_day := fun t => t - t mod 86400000;
     History.a_week_before := fun t => t - 7 * 86400000;
     History.a_month_before := fun t => t - 30 * 86400000 |}.

Definition only_sent : History.TransactionFilters :=
  {| History.filter_type := ["sent"]; History.filter_status := ["all"];
     History.filter_timeRange := "all" |}.

Definition history_only_sent : History.State :=
  {| History.transactions := []; History.filteredTransactions := [];
     History.loading := false; History.error := None;
     History.currentPage := int 3; History.totalPages := int 4;
     History.lastUpdated := None; History.filters := only_sent |}.

(** A list with one sent payment and one received invoice. *)
Definition two_transactions : list History.Transaction :=
  [History.paymentToTransaction offline_client payment_1500;
   History.invoiceToTransaction (int 1700000050) invoice_open].

(** A payment whose creation date is not a number. *)
Definition payment_undated : History.Payment :=
  {| History.pay_payment_hash := "b2";
     History.pay_value_msat := "3000";
     History.pay_fee_msat := "0";
     History.pay_creation_date := "n/a";
     History.pay_path := None;
     History.pay_status := "SUCCEEDED";
     History.pay_payment_request := None;
     History.pay_htlcs := None |}.

(** A later payment than [payment_1500]. *)
Definition payment_later : History.Payment :=
  {| History.pay_payment_hash := "c3";
     History.pay_value_msat := "7000";
     History.pay_fee_msat := "1000";
     History.pay_creation_date := "1700000200";
     History.pay_path := Some ["02aa"; "03bb"];
     History.pay_status := "SUCCEEDED";
     History.pay_payment_request := None;
     History.pay_htlcs := None |}.

Definition payments_of (l : list History.Payment) : History.PaymentsResponse :=
  {| History.payments := Some l |}.
Definition invoices_of (l : list History.Invoice) : History.InvoicesResponse :=
  {| History.invoices := Some l |}.

(** Three subscribers on a counter: the first and the last add the sum of
    the arguments, the second adds one and then throws. *)
Definition adds (ref : nat) : EventBus.Callback Z string Z :=
  {| EventBus.cb_ref := ref;
     EventBus.cb_run := fun args w => (w + fold_right Z.add 0 args, None) |}.
Definition bumps_and_throws (ref : nat) : EventBus.Callback Z string Z :=
  {| EventBus.cb_ref := ref;
     EventBus.cb_run := fun args w => (w + 1, Some "handler failed") |}.

Definition sample_bus : EventBus.Events Z string Z :=
  EventBus.on EventBus.transaction_new (adds 3)
    (EventBus.on EventBus.transaction_new (bumps_and_throws 2)
       (EventBus.on EventBus.transaction_new (adds 1) EventBus.empty_bus)).

Definition quiet : EventBus.Env string Z :=
  {| EventBus.world := 0; EventBus.console := [] |}.


(** A streamed response made of blank lines, and a parser that knows it. *)
Definition stream_blank : string := String newline " ".

Definition sample_parse_blank (text : string) : option Send.json :=
  if String.eqb text (json_string_literal stream_blank) then Some (Send.JStr stream_blank)
  else sample_parse text.

(** A node that answers with a text the form cannot read. *)
Definition node_streams_broken (request : string) : option Send.json :=
  Some (Send.JStr stream_broken).

(** The form with blanks typed in, and the form showing an earlier success. *)
Definition send_blank : Send.State :=
  {| Send.paymentRequest := "   "; Send.paymentResult := Some succeeded;
     Send.loading := false; Send.error := None;
     Send.rawResponse := json_string_literal stream_ok |}.


(** The no-break space U+00A0, as the two bytes of its encoding. *)
Definition nbsp : string := String (ascii_of_N 194) (String (ascii_of_N 160) "").

(** The successful stream followed by a line that holds a no-break space and
    by an empty line; a parser and a node that know it. *)
Definition stream_trailing : string :=
  stream_ok +:+ String newline nbsp +:+ String newline "".

Definition sample_parse_trailing (text : string) : option Send.json :=
  if String.eqb text (json_string_literal stream_trailing)
  then Some (Send.JStr stream_trailing)
  else sample_parse text.

Definition node_streams_trailing (request : string) : option Send.json :=
  Some (Send.JStr stream_trailing).

(** The same with a last line that is cut short. *)
Definition stream_broken_trailing : string :=
  stream_broken +:+ String newline nbsp +:+ String newline "".

Definition sample_parse_broken_trailing (text : string) : option Send.json :=
  if String.eqb text (json_string_literal stream_broken_trailing)
  then Some (Send.JStr stream_broken_trailing)
  else sample_parse text.

(** The form with a no-break space typed in. *)
Definition send_nbsp : Send.State :=
  {| Send.paymentRequest := nbsp; Send.paymentResult := None;
     Send.loading := false; Send.error := None; Send.rawResponse := "" |}.

(** A node that lists two payments, a settled invoice and an open one. *)
Definition listing_client : History.LndClient :=
  {| History.listPayments := Some (payments_of [payment_1500; payment_later]);
     History.listInvoices := fun pending_only =>
       Some (invoices_of (if pending_only then [invoice_open] else [invoice_settled]));
     History.decodePayReq := fun _ => None |}.

(** The history after loading from that node, with one entry per page. *)
Definition table_loaded : History.State :=
  snd (History.loadTransactions (int 1) fixed_calendar (Some listing_client)
         1700000060000 History.initial).

(** An open invoice whose creation date lies beyond 2^53 and whose expiry is
    negative; the two add up to 1700000001.  A node that lists it. *)
Definition invoice_far : History.Invoice :=
  {| History.inv_r_hash := "fa12";
     History.inv_value_msat := Some "10000";
     History.inv_value := Some "10";
     History.inv_memo := None;
     History.inv_state := "OPEN";
     History.inv_settle_date := "0";
     History.inv_payment_request := "lnbc100n1far";
     History.inv_expiry := Some "-9007199254740992";
     History.inv_creation_date := Some "9007200954740993" |}.

Definition far_client : History.LndClient :=
  {| History.listPayments := Some (payments_of []);
     History.listInvoices := fun pending_only =>
       Some (invoices_of (if pending_only then [invoice_far] else []));
     History.decodePayReq := fun _ => None |}.

(** A payment of 9007199254741001 millisatoshis, beyond 2^53. *)
Definition payment_huge : History.Payment :=
  {| History.pay_payment_hash := "d4";
     History.pay_value_msat := "9007199254741001";
     History.pay_fee_msat := "0";
     History.pay_creation_date := "1700000000";
     History.pay_path := None;
     History.pay_status := "SUCCEEDED";
     History.pay_payment_request := None;
     History.pay_htlcs := None |}.

End Samples.

(** * Properties *)

Import JS Eff.

(** ** Arithmetic on integer-valued numbers *)

Lemma num_add_int (a b : Z) : num_add (int a) (int b) = int (a + b).
Proof. unfold num_add, int. f_equal. symmetry. apply Z2Qc_inj_add. Qed.

Lemma num_sub_int (a b : Z) : num_sub (int a) (int b) = int (a - b).
Proof.
  unfold num_sub, num_neg, num_add, int. f_equal.
  rewrite Z2Qc_inj_sub. reflexivity.
Qed.

Lemma num_mul_int (a b : Z) : num_mul (int a) (int b) = int (a * b).
Proof. unfold num_mul, int. f_equal. symmetry. apply Z2Qc_inj_mul. Qed.

Lemma Qc_ltb_int (a b : Z) : Qc_ltb (Qc_of_Z a) (Qc_of_Z b) = (a <? b).
Proof.
  unfold Qc_ltb. destruct (Z.ltb_spec a b) as [H|H].
  - apply bool_decide_eq_true_2. exact (proj1 (Z2Qc_inj_lt a b) H).
  - apply bool_decide_eq_false_2. intros Hlt.
    pose proof (proj2 (Z2Qc_inj_lt a b) Hlt). lia.
Qed.

Lemma num_lt_int (a b : Z) : num_lt (int a) (int b) = (a <? b).
Proof. apply Qc_ltb_int. Qed.

Lemma num_gt_int (a b : Z) : num_gt (int a) (int b) = (b <? a).
Proof. apply num_lt_int. Qed.

Lemma num_le_int (a b : Z) : num_le (int a) (int b) = (a <=? b).
Proof.
  unfold num_le. change (negb (num_lt (int b) (int a)) = (a <=? b)).
  rewrite num_lt_int. destruct (Z.ltb_spec b a), (Z.leb_spec a b); simpl; auto; lia.
Qed.

Lemma num_ge_int (a b : Z) : num_ge (int a) (int b) = (b <=? a).
Proof. apply num_le_int. Qed.

Lemma int_inj (a b : Z) : int a = int b -> a = b.
Proof. unfold int. intros H. injection H as H. exact H. Qed.

Lemma Qc_of_Z_eq_0 (z : Z) : Qc_of_Z z = 0%Qc <-> z = 0.
Proof.
  rewrite <- Z2Qc_inj_0. split; [apply Z2Qc_inj | intros ->; reflexivity].
Qed.

Lemma Qtrunc_int (z : Z) : Qtrunc (Qc_of_Z z) = z.
Proof. unfold Qtrunc. simpl. apply Z.quot_1_r. Qed.

(** The quotient of two integers, as a rational in lowest terms. *)
Lemma this_Qcdiv_int (a b : Z) :
  (this (Qc_of_Z a / Qc_of_Z b)%Qc == inject_Z a / inject_Z b)%Q.
Proof.
  unfold Qcdiv, Qcmult, Qcinv, Q2Qc. simpl this.
  rewrite !Qred_correct. reflexivity.
Qed.

Lemma num_div_int (a b : Z) :
  b <> 0 -> num_div (int a) (int b) = Fin (Qc_of_Z a / Qc_of_Z b)%Qc.
Proof.
  intros Hb. unfold num_div, int.
  rewrite bool_decide_eq_false_2; [reflexivity|].
  rewrite Qc_of_Z_eq_0. exact Hb.
Qed.

Lemma Math_floor_div_int (a b : Z) :
  0 < b -> Math_floor (num_div (int a) (int b)) = int (a / b).
Proof.
  intros Hb. rewrite num_div_int by lia. unfold Math_floor. f_equal.
  rewrite (Qfloor_comp _ _ (this_Qcdiv_int a b)). symmetry. apply Zdiv_Qdiv.
Qed.

Lemma Math_ceil_div_int (a b : Z) :
  0 < b -> Math_ceil (num_div (int a) (int b)) = int (ceil_div a b).
Proof.
  intros Hb. rewrite num_div_int by lia. unfold Math_ceil, ceil_div. f_equal.
  rewrite (Qceiling_comp _ _ (this_Qcdiv_int a b)).
  unfold Qceiling. f_equal.
  rewrite (Zdiv_Qdiv (- a) b). apply Qfloor_comp.
  rewrite inject_Z_opp. unfold Qdiv. ring.
Qed.

Lemma ceil_div_le (a b k : Z) : 0 < b -> (ceil_div a b <= k <-> a <= k * b).
Proof.
  intros Hb. unfold ceil_div. split; intros H.
  - assert (- k <= (- a) / b) by lia.
    assert (b * (- k) <= - a).
    { etransitivity; [apply Z.mul_le_mono_nonneg_l; [lia | eassumption]|].
      apply Z.mul_div_le. lia. }
    lia.
  - assert (- k <= (- a) / b); [|lia].
    apply Z.div_le_lower_bound; lia.
Qed.

Lemma TimeClip_int (z : Z) :
  TimeClip (int z) = if (Z.abs z <=? max_time) then int z else NaN.
Proof.
  unfold TimeClip, int. rewrite !Qc_ltb_int, Qtrunc_int.
  destruct (Z.leb_spec (Z.abs z) max_time), (Z.ltb_spec max_time z),
    (Z.ltb_spec z (- max_time)); simpl; try reflexivity; lia.
Qed.

(** ** Decimal strings: printing an integer and reading it back *)

(** Two numbers computed along different paths are equal when their
    rationals are. *)
Ltac number_eq :=
  vm_compute;
  first [ reflexivity | apply (f_equal Fin); apply Qc_is_canon; reflexivity ].

Lemma chars_append (a b : string) : chars (a +:+ b) = chars a ++ chars b.
Proof. induction a as [|c a IH]; simpl; [reflexivity|]. f_equal. exact IH. Qed.

Lemma digit_val_dec (c : ascii) (d : Z) :
  digit_val 10 c = Some d -> 48 <= code c <= 57 /\ d = code c - 48.
Proof.
  unfold digit_val.
  destruct ((48 <=? code c) && (code c <=? 57)) eqn:E1.
  - destruct (code c - 48 <? 10); [|discriminate]. intros [= <-].
    apply andb_true_iff in E1 as [H1 H2]. lia.
  - destruct ((97 <=? code c) && (code c <=? 122)) eqn:E2.
    + apply andb_true_iff in E2 as [H1 H2].
      destruct (Z.ltb_spec (code c - 87) 10); [lia|discriminate].
    + destruct ((65 <=? code c) && (code c <=? 90)) eqn:E3; [|discriminate].
      apply andb_true_iff in E3 as [H1 H2].
      destruct (Z.ltb_spec (code c - 55) 10); [lia|discriminate].
Qed.

Lemma eqb_code (c c' : ascii) : code c <> code c' -> Ascii.eqb c c' = false.
Proof. intros H. destruct (Ascii.eqb_spec c c') as [->|]; [contradiction|reflexivity]. Qed.

Lemma span_digits_spells (cs : list ascii) (ds : list Z) (tail : list ascii) :
  spells cs ds ->
  span_digits 10 (cs ++ tail) =
    (ds ++ fst (span_digits 10 tail), snd (span_digits 10 tail)).
Proof.
  induction 1 as [|c d cs ds Hc _ IH]; cbn [app span_digits].
  - destruct (span_digits 10 tail); reflexivity.
  - rewrite Hc, IH. reflexivity.
Qed.

Lemma spells_printable (cs : list ascii) (ds : list Z) :
  spells cs ds -> Forall printable cs.
Proof.
  induction 1 as [|c d cs ds Hc _ IH]; constructor; [|exact IH].
  apply digit_val_dec in Hc as [Hc _]. unfold printable. lia.
Qed.

Lemma is_ws1_printable (a : Z) : 32 < a < 128 -> is_ws1 a = false.
Proof.
  intros H. unfold is_ws1.
  destruct (Z.leb_spec 9 a), (Z.leb_spec a 13), (Z.eqb_spec a 32); simpl;
    try reflexivity; lia.
Qed.

Lemma is_ws2_printable (a b : Z) : a < 128 \/ b < 128 -> is_ws2 a b = false.
Proof.
  intros H. unfold is_ws2.
  destruct (Z.eqb_spec a 194), (Z.eqb_spec b 160); simpl; try reflexivity; lia.
Qed.

Lemma is_ws3_printable (a b c : Z) : a < 128 \/ c < 128 -> is_ws3 a b c = false.
Proof.
  intros H. unfold is_ws3.
  destruct (Z.eqb_spec a 225), (Z.eqb_spec a 226), (Z.eqb_spec a 227),
    (Z.eqb_spec a 239); try lia; simpl; rewrite ?andb_false_r; simpl;
    try reflexivity;
    destruct (Z.leb_spec 128 c), (Z.leb_spec c 138), (Z.eqb_spec c 168),
      (Z.eqb_spec c 169), (Z.eqb_spec c 175), (Z.eqb_spec c 128), (Z.eqb_spec c 159),
      (Z.eqb_spec c 191); simpl; rewrite ?andb_false_r; try reflexivity; lia.
Qed.

Lemma drop_ws_id (cs : list ascii) :
  match cs with c :: _ => printable c | [] => True end -> drop_ws cs = cs.
Proof.
  destruct cs as [|a [|b [|c r]]]; cbn [drop_ws]; [reflexivity|..]; intros H;
    rewrite (is_ws1_printable _ H), ?is_ws2_printable, ?is_ws3_printable;
    first [reflexivity | left; unfold printable in H; lia].
Qed.

Lemma drop_ws_rev_id (cs : list ascii) :
  match cs with c :: _ => printable c | [] => True end -> drop_ws_rev cs = cs.
Proof.
  destruct cs as [|a [|b [|c r]]]; cbn [drop_ws_rev]; [reflexivity|..]; intros H;
    rewrite (is_ws1_printable _ H), ?is_ws2_printable, ?is_ws3_printable;
    first [reflexivity | right; unfold printable in H; lia].
Qed.

Lemma trim_chars_id (cs : list ascii) :
  Forall printable cs -> trim_chars cs = cs.
Proof.
  intros H. unfold trim_chars.
  rewrite (drop_ws_id cs) by (destruct H; auto).
  rewrite (drop_ws_rev_id (rev cs)); [apply rev_involutive|].
  apply Forall_rev in H. destruct H; auto.
Qed.

Lemma digits_value_snoc (ds : list Z) (d : Z) :
  digits_value 10 (ds ++ [d]) = digits_value 10 ds * 10 + d.
Proof. unfold digits_value. rewrite fold_left_app. reflexivity. Qed.

Lemma digit_val_pretty_N_char (k : N) :
  (k < 10)%N -> digit_val 10 (pretty_N_char k) = Some (Z.of_N k).
Proof.
  intros H.
  assert (E : (k = 0 \/ k = 1 \/ k = 2 \/ k = 3 \/ k = 4 \/ k = 5 \/ k = 6 \/
               k = 7 \/ k = 8 \/ k = 9)%N) by lia.
  repeat destruct E as [->|E]; try subst k; reflexivity.
Qed.

Lemma append_assoc (a b c : string) : (a +:+ b) +:+ c = a +:+ (b +:+ c).
Proof.
  induction a as [|x a IH]; [reflexivity|].
  change (String x ((a +:+ b) +:+ c) = String x (a +:+ (b +:+ c))). rewrite IH. reflexivity.
Qed.

Lemma pretty_N_go_append (x : N) :
  forall s, pretty_N_go x s = pretty_N_go x "" +:+ s.
Proof.
  induction (N.lt_wf_0 x) as [x _ IH]. intros s.
  destruct (N.eq_dec x 0%N) as [->|Hx].
  - rewrite !pretty_N_go_0. reflexivity.
  - rewrite (pretty_N_go_step x s), (pretty_N_go_step x "") by lia.
    assert (Hlt : (x `div` 10 < x)%N) by (apply N.div_lt; lia).
    rewrite (IH _ Hlt (String _ s)), (IH _ Hlt (String _ "")).
    rewrite append_assoc. reflexivity.
Qed.

(** The digits printed for a natural number spell that number. *)
Lemma pretty_N_go_spells (x : N) :
  exists ds,
    spells (chars (pretty_N_go x "")) ds /\
    digits_value 10 ds = Z.of_N x /\
    (x <> 0%N -> ds <> []).
Proof.
  induction (N.lt_wf_0 x) as [x _ IH].
  destruct (N.eq_dec x 0%N) as [->|Hx].
  - exists []. rewrite pretty_N_go_0. repeat split; [constructor|contradiction].
  - assert (Hlt : (x `div` 10 < x)%N) by (apply N.div_lt; lia).
    destruct (IH _ Hlt) as (ds & Hsp & Hv & _).
    exists (ds ++ [Z.of_N (x `mod` 10)]).
    rewrite (pretty_N_go_step x "") by lia. rewrite pretty_N_go_append, chars_append.
    split; [|split].
    + apply Forall2_app; [exact Hsp|]. constructor; [|constructor].
      apply digit_val_pretty_N_char. apply N.mod_lt. lia.
    + rewrite digits_value_snoc, Hv.
      pose proof (N.div_mod x 10). lia.
    + intros _ E. apply app_eq_nil in E as [_ E]. discriminate.
Qed.

Ltac code_neq :=
  match goal with
  | |- code _ <> code ?k =>
      let v := eval vm_compute in (code k) in
      change (code k) with v; lia
  end.

Lemma strip_sign_spells (cs : list ascii) (ds : list Z) :
  spells cs ds -> strip_sign cs = (false, cs).
Proof.
  destruct 1 as [|c d cs ds Hc _]; [reflexivity|]. unfold strip_sign.
  apply digit_val_dec in Hc as [Hc _].
  rewrite !eqb_code; [reflexivity| |]; code_neq.
Qed.

Lemma radix_prefix_spells (cs : list ascii) (ds : list Z) :
  spells cs ds -> radix_prefix cs = None.
Proof.
  destruct 1 as [|c d cs ds Hc Hr]; [reflexivity|].
  destruct Hr as [|c2 d2 cs ds Hc2 _]; [reflexivity|]. unfold radix_prefix.
  apply digit_val_dec in Hc2 as [Hc2 _].
  destruct (Ascii.eqb c "0"); [|reflexivity].
  rewrite !eqb_code; [reflexivity|..]; code_neq.
Qed.

Lemma span_digits_all (cs : list ascii) (ds : list Z) :
  spells cs ds -> span_digits 10 cs = (ds, []).
Proof.
  intros H. rewrite <- (app_nil_r cs) at 1. rewrite (span_digits_spells _ _ _ H).
  cbn. rewrite app_nil_r. reflexivity.
Qed.

Lemma chars_str (cs : list ascii) : chars (str cs) = cs.
Proof. apply list_ascii_of_string_of_list_ascii. Qed.

Lemma str_chars (s : string) : str (chars s) = s.
Proof. apply string_of_list_ascii_of_string. Qed.

Lemma printable_minus : printable "-".
Proof. unfold printable. vm_compute. split; reflexivity. Qed.

(** Reading back a run of decimal digits, with or without a minus sign. *)
Lemma parseInt_Z_digits (negative : bool) (s : string) (ds : list Z) :
  spells (chars s) ds -> ds <> [] ->
  parseInt_Z (if negative then String "-" s else s) = Some (signed negative (digits_value 10 ds)).
Proof.
  intros Hsp Hne. unfold parseInt_Z.
  assert (Hpre : strip_sign (drop_ws (chars (if negative then String "-" s else s)))
                 = (negative, chars s)).
  { destruct negative.
    - change (chars (String "-" s)) with ("-"%char :: chars s).
      rewrite drop_ws_id by exact printable_minus. reflexivity.
    - rewrite drop_ws_id; [exact (strip_sign_spells _ _ Hsp)|].
      pose proof (spells_printable _ _ Hsp) as Hws. destruct Hws; auto. }
  rewrite Hpre, (radix_prefix_spells _ _ Hsp), (span_digits_all _ _ Hsp).
  cbn [fst]. destruct ds; [contradiction|reflexivity].
Qed.

Lemma unsigned_decimal_digits (cs : list ascii) (ds : list Z) :
  spells cs ds -> ds <> [] ->
  unsigned_decimal cs = Some (Qc_of_Z (digits_value 10 ds)).
Proof.
  intros Hsp Hne. unfold unsigned_decimal. rewrite (span_digits_all _ _ Hsp).
  rewrite app_nil_r. destruct ds as [|d ds]; [contradiction|].
  cbn [exponent_part length]. f_equal.
  change (pow10 (0 - Z.of_nat 0)) with (Qc_of_Z 1).
  rewrite <- Z2Qc_inj_mul. f_equal. lia.
Qed.

Lemma not_Infinity (cs : list ascii) (ds : list Z) :
  spells cs ds -> String.eqb (str cs) "Infinity" = false.
Proof.
  destruct 1 as [|c d cs ds Hc _]; [reflexivity|].
  apply digit_val_dec in Hc as [Hc _]. cbn [str string_of_list_ascii String.eqb].
  rewrite eqb_code; [reflexivity|]. code_neq.
Qed.

Lemma StringNumericLiteral_digits (negative : bool) (s : string) (ds : list Z) :
  spells (chars s) ds -> ds <> [] ->
  StringNumericLiteral (if negative then String "-" s else s) =
    int (signed negative (digits_value 10 ds)).
Proof.
  intros Hsp Hne. unfold StringNumericLiteral.
  pose proof (spells_printable _ _ Hsp) as Hws.
  assert (Hcs : exists c r, chars s = c :: r).
  { destruct Hsp; [contradiction|eauto]. }
  destruct Hcs as (c & r & Hcs).
  destruct negative.
  - change (chars (String "-" s)) with ("-"%char :: chars s).
    rewrite trim_chars_id by (constructor; [exact printable_minus|exact Hws]).
    assert (Hrp : radix_prefix ("-"%char :: chars s) = None) by (rewrite Hcs; reflexivity).
    rewrite Hrp. cbn [strip_sign]. rewrite Ascii.eqb_refl.
    rewrite (not_Infinity _ _ Hsp), (unsigned_decimal_digits _ _ Hsp Hne).
    unfold int, signed. rewrite Z2Qc_inj_opp. reflexivity.
  - rewrite trim_chars_id by exact Hws.
    rewrite (radix_prefix_spells _ _ Hsp), (strip_sign_spells _ _ Hsp).
    rewrite (not_Infinity _ _ Hsp), (unsigned_decimal_digits _ _ Hsp Hne).
    rewrite Hcs. reflexivity.
Qed.

Lemma pretty_Z_shape (z : Z) :
  z <> 0 ->
  exists ds,
    pretty z = (if z <? 0 then String "-" (pretty_N_go (Z.to_N (Z.abs z)) "")
                else pretty_N_go (Z.to_N (Z.abs z)) "") /\
    spells (chars (pretty_N_go (Z.to_N (Z.abs z)) "")) ds /\
    digits_value 10 ds = Z.abs z /\ ds <> [].
Proof.
  intros Hz. destruct (pretty_N_go_spells (Z.to_N (Z.abs z))) as (ds & Hsp & Hv & Hne).
  exists ds. split; [|split; [exact Hsp|split; [lia|apply Hne; lia]]].
  destruct z as [|p|p]; [contradiction| |]; reflexivity.
Qed.

(** The digits of an integer denote that integer. *)
Lemma parseInt_Z_pretty (z : Z) : parseInt_Z (pretty z) = Some z.
Proof.
  destruct (Z.eq_dec z 0) as [->|Hz]; [reflexivity|].
  destruct (pretty_Z_shape z Hz) as (ds & -> & Hsp & Hv & Hne).
  rewrite (parseInt_Z_digits (z <? 0) _ ds Hsp Hne), Hv.
  f_equal. unfold signed. destruct (Z.ltb_spec z 0); lia.
Qed.

Lemma StringNumericLiteral_pretty (z : Z) : StringNumericLiteral (pretty z) = int z.
Proof.
  destruct (Z.eq_dec z 0) as [->|Hz]; [number_eq|].
  destruct (pretty_Z_shape z Hz) as (ds & -> & Hsp & Hv & Hne).
  rewrite (StringNumericLiteral_digits (z <? 0) _ ds Hsp Hne), Hv.
  f_equal. unfold signed. destruct (Z.ltb_spec z 0); lia.
Qed.

(** ** Doubles *)

Lemma safe_integer_int (z : Z) : safe_integer (Qc_of_Z z) = (Z.abs z <=? 2 ^ 53).
Proof. unfold safe_integer. reflexivity. Qed.

(** An integer of magnitude up to 2^53 is a double. *)
Lemma double_int (z : Z) : Z.abs z <= 2 ^ 53 -> double (int z) = int z.
Proof.
  intros H. unfold double, int. rewrite safe_integer_int.
  destruct (Z.leb_spec (Z.abs z) (2 ^ 53)); [reflexivity|lia].
Qed.

(** [parseInt] reads back what decimal printing writes, up to 2^53. *)
Lemma parseInt_pretty (z : Z) : Z.abs z <= 2 ^ 53 -> parseInt (pretty z) = int z.
Proof. intros H. unfold parseInt. rewrite parseInt_Z_pretty. apply double_int. exact H. Qed.

(** [Number] reads back what decimal printing writes, up to 2^53. *)
Lemma StringToNumber_pretty (z : Z) :
  Z.abs z <= 2 ^ 53 -> StringToNumber (pretty z) = int z.
Proof.
  intros H. unfold StringToNumber. rewrite StringNumericLiteral_pretty.
  apply double_int. exact H.
Qed.

(** An integer of magnitude up to 2^53 is printed by its decimal digits. *)
Lemma Number_toString_int (z : Z) :
  Z.abs z <= 2 ^ 53 -> Number_toString (int z) = pretty z.
Proof.
  intros H. unfold Number_toString, int. rewrite safe_integer_int.
  destruct (Z.leb_spec (Z.abs z) (2 ^ 53)); [reflexivity|lia].
Qed.

Lemma Fin_inj (q1 q2 : Qc) : Fin q1 = Fin q2 -> q1 = q2.
Proof. intros H. exact (f_equal (fun n => match n with Fin q => q | _ => q1 end) H). Qed.

Lemma Qcdiv_int_eq (m d k : Z) :
  d <> 0 -> ((Qc_of_Z m / Qc_of_Z d)%Qc = Qc_of_Z k <-> m = k * d).
Proof.
  intros Hd.
  assert (Hd' : Qc_of_Z d <> 0%Qc) by (rewrite Qc_of_Z_eq_0; exact Hd).
  split; intros H.
  - apply Z2Qc_inj. rewrite Z2Qc_inj_mul, <- H.
    rewrite Qcmult_comm. symmetry. apply Qcmult_div_r. exact Hd'.
  - subst m. rewrite Z2Qc_inj_mul. apply Qcdiv_mult_l. exact Hd'.
Qed.

Lemma round_half_even_error (n d : Z) :
  0 < d -> 2 * Z.abs (round_half_even n d * d - n) <= d.
Proof.
  intros Hd. unfold round_half_even.
  pose proof (Z.div_mod n d ltac:(lia)) as Hdm.
  pose proof (Z.mod_pos_bound n d Hd) as Hb.
  set (q := n / d) in *. set (r := n mod d) in *.
  destruct (Z.ltb_spec (2 * r) d); [nia|].
  destruct (Z.ltb_spec d (2 * r)); [nia|].
  destruct (Z.even q); nia.
Qed.

Lemma binade_upper (n d E : Z) :
  0 < n -> 0 < d -> 0 <= E -> n < 2 ^ E * d -> binade n d < E.
Proof.
  intros Hn Hd HE Hlt. unfold binade.
  destruct (Z.log2_spec n Hn) as [Hn1 Hn2]. destruct (Z.log2_spec d Hd) as [Hd1 Hd2].
  pose proof (Z.log2_nonneg n) as Hln. pose proof (Z.log2_nonneg d) as Hld.
  set (ln := Z.log2 n) in *. set (ld := Z.log2 d) in *.
  destruct (Z.lt_trichotomy (ln - ld) E) as [Hc|[Hc|Hc]].
  - destruct (if 0 <=? ln - ld then _ else _); lia.
  - rewrite Hc. destruct (Z.leb_spec 0 E); [|lia].
    destruct (Z.leb_spec (d * 2 ^ E) n); lia.
  - exfalso.
    assert (Hp : 2 ^ ln = 2 ^ ld * 2 ^ (ln - ld)).
    { rewrite <- Z.pow_add_r by lia. f_equal. lia. }
    assert (Hq : 2 ^ (E + 1) <= 2 ^ (ln - ld)) by (apply Z.pow_le_mono_r; lia).
    rewrite Z.pow_add_r in Hq by lia. change (2 ^ 1) with 2 in Hq.
    rewrite Z.pow_succ_r in Hd2 by lia.
    assert (0 < 2 ^ ld) by (apply Z.pow_pos_nonneg; lia).
    assert (0 < 2 ^ E) by (apply Z.pow_pos_nonneg; lia).
    nia.
Qed.

(** Rounding a positive rational below 2^44: when the double is an integer
    [k], the rational is within 2^-10 of [k]. *)
Lemma double_pos_int (n d k : Z) :
  0 < n -> 0 < d -> n < 2 ^ 44 * d ->
  double_pos n d = int k ->
  1024 * Z.abs (k * d - n) <= d.
Proof.
  intros Hn Hd Hlt. unfold double_pos.
  pose proof (binade_upper n d 44 Hn Hd ltac:(lia) Hlt) as He.
  set (e := Z.max (binade n d) (-1022)) in *.
  assert (He' : e <= 43) by (unfold e; lia).
  assert (Hs : 9 <= 52 - e) by lia.
  set (s := 52 - e) in *.
  destruct (Z.leb_spec 0 s); [|lia].
  intros Heq. unfold int in Heq.
  assert (Hpow : 0 < 2 ^ s) by (apply Z.pow_pos_nonneg; lia).
  assert (Hr : round_half_even (n * 2 ^ s) d = k * 2 ^ s).
  { apply Fin_inj in Heq. apply Qcdiv_int_eq in Heq; [exact Heq|lia]. }
  pose proof (round_half_even_error (n * 2 ^ s) d Hd) as Herr.
  rewrite Hr in Herr.
  assert (Hge : 2 ^ 9 <= 2 ^ s) by (apply Z.pow_le_mono_r; lia).
  change (2 ^ 9) with 512 in Hge.
  replace (k * 2 ^ s * d - n * 2 ^ s) with ((k * d - n) * 2 ^ s) in Herr by ring.
  rewrite Z.abs_mul, (Z.abs_eq (2 ^ s)) in Herr by lia.
  nia.
Qed.

(** The quotient of an integer by 1000, in lowest terms. *)
Lemma Qcdiv_1000_terms (m : Z) :
  let q := (Qc_of_Z m / Qc_of_Z 1000)%Qc in
  Qnum (this q) * 1000 = m * Z.pos (Qden (this q)).
Proof.
  intros q. pose proof (this_Qcdiv_int m 1000) as H. fold q in H.
  set (x := this q) in *. unfold Qeq in H.
  change (Qnum (inject_Z m / inject_Z 1000)) with (m * 1) in H.
  change (QDen (inject_Z m / inject_Z 1000)) with 1000 in H. lia.
Qed.

(** A quotient by 1000 that is not an integer does not round to one, up to
    2^53: the nearest double is within 2^-10 of the quotient, the nearest
    integer is at least 10^-3 away. *)
Lemma double_div_1000_not_int (m k : Z) :
  Z.abs m <= 2 ^ 53 -> m mod 1000 <> 0 ->
  double (num_div (int m) (int 1000)) <> int k.
Proof.
  intros Hm Hmod. rewrite num_div_int by lia.
  pose proof (Qcdiv_1000_terms m) as Ht. cbv zeta in Ht.
  set (q := (Qc_of_Z m / Qc_of_Z 1000)%Qc) in *.
  set (n := Qnum (this q)) in *. set (d := Z.pos (Qden (this q))) in *.
  assert (Hd : 0 < d) by (unfold d; lia).
  assert (Hd1 : d <> 1).
  { intros E. rewrite E in Ht. apply Hmod. rewrite <- (Z.mul_1_r m), <- Ht.
    apply Z.mod_mul. lia. }
  unfold double. fold n d. unfold safe_integer. fold n d.
  destruct (Z.eqb_spec d 1); [contradiction|]. cbn [andb].
  change (2 ^ 53) with 9007199254740992 in Hm.
  destruct (Z.ltb_spec 0 n) as [Hn|Hn].
  - intros H. apply double_pos_int in H; try assumption;
      [|change (2 ^ 44) with 17592186044416; nia].
    assert (m = k * 1000) by nia. subst m. apply Hmod. apply Z.mod_mul. lia.
  - assert (Hn0 : n <> 0).
    { intros E. rewrite E in Ht. apply Hmod. assert (m = 0) by nia. subst m. reflexivity. }
    intros H.
    assert (H' : double_pos (- n) d = int (- k)).
    { destruct (double_pos (- n) d) as [|b|x]; cbn [num_neg] in H; try discriminate.
      unfold int in *. apply Fin_inj in H. f_equal.
      rewrite Z2Qc_inj_opp, <- H. ring. }
    apply double_pos_int in H'; try lia;
      [|change (2 ^ 44) with 17592186044416; nia].
    assert (m = k * 1000) by nia. subst m. apply Hmod. apply Z.mod_mul. lia.
Qed.

(** A quotient by 1000 that is an integer is that integer. *)
Lemma double_div_1000_int (k : Z) :
  Z.abs k <= 2 ^ 53 ->
  double (num_div (int (k * 1000)) (int 1000)) = int k.
Proof.
  intros Hk. rewrite num_div_int by lia.
  rewrite (proj2 (Qcdiv_int_eq (k * 1000) 1000 k ltac:(lia)) eq_refl).
  apply double_int. exact Hk.
Qed.

(** ** Millisatoshi to satoshi conversion (C1) *)

Import History.

(** The amount is an integer exactly when the millisatoshi value is a
    multiple of 1000, up to 2^53. *)
Lemma mSatsToSats_int_iff (v : str_or_num) (m k : Z) :
  Number_ v = int m -> Z.abs m <= 2 ^ 53 ->
  (mSatsToSats v = int k <-> m = k * 1000).
Proof.
  intros H Hm. unfold mSatsToSats. rewrite H. split.
  - intros E. destruct (Z.eq_dec (m mod 1000) 0) as [Hz|Hnz].
    + assert (Hmk : m = (m / 1000) * 1000).
      { pose proof (Z.div_mod m 1000 ltac:(lia)). lia. }
      rewrite Hmk in E. rewrite double_div_1000_int in E.
      * apply int_inj in E. lia.
      * change (2 ^ 53) with 9007199254740992 in *. lia.
    + exfalso. exact (double_div_1000_not_int m k Hm Hnz E).
  - intros ->. apply double_div_1000_int.
    change (2 ^ 53) with 9007199254740992 in *. lia.
Qed.

Lemma mSatsToSats_floor_iff (v : str_or_num) (m : Z) :
  Number_ v = int m -> Z.abs m <= 2 ^ 53 ->
  (mSatsToSats v = int (m / 1000) <-> m mod 1000 = 0).
Proof.
  intros H Hm. rewrite (mSatsToSats_int_iff v m (m / 1000) H Hm).
  pose proof (Z.div_mod m 1000 ltac:(lia)). lia.
Qed.

Lemma listed_amount (client : LndClient) (currentTime : number) (tx : Transaction)
    (s : string) :
  listed client currentTime tx ->
  msat_source tx = Some s ->
  tx_amount tx = mSatsToSats (OfStr s).
Proof.
  intros [[p ->]|[i ->]]; unfold msat_source; simpl.
  - intros [= <-]. reflexivity.
  - unfold invoice_amount.
    destruct (opt_truthy (inv_value_msat i)) eqn:E; [|discriminate].
    intros Hs. rewrite Hs. destruct (String.eqb _ _); reflexivity.
Qed.

(** ** The send form (C2, C8) *)

Import Send.

(** Unfolding of the statement combinators. *)
Ltac run :=
  cbv beta iota delta
    [mbind mret M_bind M_ret bind ret throw gets modify lift try_catch try_finally
     Send.setLoading Send.setError Send.setPaymentResult Send.setRawResponse
     Send.setPaymentRequest].

Lemma last_elem_nil_iff {A : Type} (l : list A) : last_elem l = None <-> l = [].
Proof.
  unfold last_elem. split; [|intros ->; reflexivity].
  induction l as [|x [|y r] IH]; simpl; intros H; try reflexivity; try discriminate.
  specialize (IH H). discriminate.
Qed.

Lemma last_elem_app {A : Type} (l1 l2 : list A) :
  l2 <> [] -> last_elem (l1 ++ l2) = last_elem l2.
Proof.
  intros H2. unfold last_elem. rewrite map_app.
  induction l1 as [|x r IH]; [reflexivity|]. simpl.
  destruct (map Some r ++ map Some l2) eqn:E; [|exact IH].
  apply app_eq_nil in E as [_ E]. destruct l2; [contradiction|discriminate].
Qed.

Lemma split_chars_nonempty (sep : ascii) (l : list ascii) : split_chars sep l <> [].
Proof.
  destruct l as [|c r]; simpl; [discriminate|].
  destruct (Ascii.eqb c sep); [discriminate|].
  destruct (split_chars sep r); discriminate.
Qed.

(** Splitting at a separator distributes over concatenation at a separator. *)
Lemma split_chars_app (sep : ascii) (a b : list ascii) :
  split_chars sep (a ++ sep :: b) = split_chars sep a ++ split_chars sep b.
Proof.
  induction a as [|c r IH]; simpl.
  - rewrite Ascii.eqb_refl. reflexivity.
  - destruct (Ascii.eqb c sep); [rewrite IH; reflexivity|].
    rewrite IH. pose proof (split_chars_nonempty sep r) as Hne.
    destruct (split_chars sep r); [contradiction|reflexivity].
Qed.

Lemma split_chars_single (sep : ascii) (l : list ascii) :
  ~ In sep l -> split_chars sep l = [l].
Proof.
  induction l as [|c r IH]; simpl; intros H; [reflexivity|].
  destruct (Ascii.eqb_spec c sep) as [->|Hne]; [exfalso; apply H; left; reflexivity|].
  rewrite IH; [reflexivity|]. intros Hin. apply H. right. exact Hin.
Qed.

(** The last non-empty line of a stream that ends with the line [lastLine]. *)
Lemma nonempty_lines_last (earlier lastLine : string) :
  ~ In newline (chars lastLine) ->
  trim lastLine <> "" ->
  last_elem (nonempty_lines (earlier +:+ String newline lastLine)) = Some lastLine.
Proof.
  intros Hnl Hne. unfold nonempty_lines, split.
  rewrite chars_append. change (chars (String newline lastLine)) with (newline :: chars lastLine).
  rewrite split_chars_app, map_app, List.filter_app.
  rewrite (split_chars_single _ _ Hnl). simpl map at 2.
  unfold str at 2, chars at 2. rewrite string_of_list_ascii_of_string.
  assert (Hk : List.filter (fun s => negb (String.eqb (trim s) "")) [lastLine] = [lastLine]).
  { simpl. destruct (String.eqb_spec (trim lastLine) ""); [contradiction|reflexivity]. }
  rewrite Hk, last_elem_app by discriminate. reflexivity.
Qed.

(** The last non-empty line of a stream: the last line whose [trim] is not
    empty, whatever blank lines follow it. *)
Lemma nonempty_lines_split (s : string) (before after : list string) (lastLine : string) :
  split newline s = before ++ lastLine :: after ->
  trim lastLine <> "" ->
  Forall (fun line => trim line = "") after ->
  last_elem (nonempty_lines s) = Some lastLine.
Proof.
  intros Hs Hne Hblank.
  assert (Ha : List.filter (fun s0 => negb (String.eqb (trim s0) "")) after = []).
  { clear Hs. induction Hblank as [|line r Hl _ IH]; [reflexivity|].
    cbn [List.filter]. rewrite Hl. exact IH. }
  unfold nonempty_lines. rewrite Hs, List.filter_app.
  cbn [List.filter].
  destruct (String.eqb_spec (trim lastLine) "") as [E|_]; [contradiction|]. cbn [negb].
  rewrite Ha, last_elem_app by discriminate. reflexivity.
Qed.

Section SendFacts.
Variable JSON_parse : string -> option json.
Variable JSON_stringify : json -> string.
Variable ToString : value -> string.
Variable sendPaymentV2 : string -> option json.

(** The state after a successful payment update. *)
Lemma handlePaymentUpdate_succeeded (paymentData : json) (result : value) (st : State) :
  prop (Some paymentData) "result" = inl result ->
  truthy result = true ->
  prop result "status" = inl (Some (JStr "SUCCEEDED")) ->
  handlePaymentUpdate ToString paymentData st =
    (Normal tt,
     {| paymentRequest := paymentRequest st; paymentResult := Some paymentData;
        loading := false; error := None; rawResponse := rawResponse st |}).
Proof.
  intros Hr Ht Hs. unfold handlePaymentUpdate. run.
  rewrite Hr. simpl. rewrite Ht. simpl. rewrite Hs. reflexivity.
Qed.

(** Reading a property of a truthy value does not throw. *)
Lemma prop_truthy (v : value) (k : string) :
  truthy v = true -> exists r, prop v k = inl r.
Proof.
  destruct v as [[| | | | |]|]; simpl; intros H; try discriminate; eauto.
Qed.

(** A payment update whose [result] is present does not throw. *)
Lemma handlePaymentUpdate_normal (paymentData : json) (st : State) :
  truthy (Some paymentData) = true ->
  exists st', handlePaymentUpdate ToString paymentData st = (Normal tt, st').
Proof.
  intros Ht. unfold handlePaymentUpdate. run.
  destruct (prop_truthy _ "result" Ht) as [r Hr]. rewrite Hr. simpl.
  destruct (truthy r) eqn:Hrt; simpl; [|eauto].
  destruct (prop_truthy _ "status" Hrt) as [status Hs]. rewrite Hs. simpl.
  destruct (is_str status "SUCCEEDED"); [eauto|].
  destruct (is_str status "FAILED"); simpl.
  - destruct (prop_truthy _ "failure_reason" Hrt) as [fr Hf]. rewrite Hf. simpl. eauto.
  - destruct (is_str status "IN_FLIGHT"); eauto.
Qed.

(** No exception escapes [processPaymentResponse]. *)
Lemma processPaymentResponse_normal (raw : string) (st : State) :
  exists st', processPaymentResponse JSON_parse ToString raw st = (Normal tt, st').
Proof.
  unfold processPaymentResponse. unfold try_catch at 1.
  match goal with |- context [let (_, _) := ?b st in _] => destruct (b st) as [[[]|e] st1] end.
  - eauto.
  - run. eauto.
Qed.

(** A streamed response is handled through its last non-empty line only. *)
Lemma process_stream_last_line_only (raw1 raw2 s1 s2 : string) (st : State) :
  JSON_parse raw1 = Some (JStr s1) ->
  JSON_parse raw2 = Some (JStr s2) ->
  last_elem (nonempty_lines s1) = last_elem (nonempty_lines s2) ->
  processPaymentResponse JSON_parse ToString raw1 st =
  processPaymentResponse JSON_parse ToString raw2 st.
Proof.
  intros H1 H2 Hl. unfold processPaymentResponse, parse. run. rewrite H1, H2.
  simpl. rewrite !andb_false_r. simpl.
  destruct (nonempty_lines s1) as [|x1 r1] eqn:E1, (nonempty_lines s2) as [|x2 r2] eqn:E2.
  - reflexivity.
  - symmetry in Hl. apply last_elem_nil_iff in Hl. discriminate.
  - apply last_elem_nil_iff in Hl. discriminate.
  - cbn [length Nat.eqb]. rewrite Hl. reflexivity.
Qed.

(** The last line carries a payment update: the update is applied. *)
Lemma process_stream_update (raw s lastLine : string) (paymentData : json) (result : value)
    (st : State) :
  JSON_parse raw = Some (JStr s) ->
  last_elem (nonempty_lines s) = Some lastLine ->
  JSON_parse lastLine = Some paymentData ->
  prop (Some paymentData) "result" = inl result ->
  truthy result = true ->
  processPaymentResponse JSON_parse ToString raw st =
  handlePaymentUpdate ToString paymentData st.
Proof.
  intros H1 Hl Hp Hr Ht.
  assert (Hpd : truthy (Some paymentData) = true).
  { destruct paymentData; try reflexivity; simpl in Hr; try discriminate;
      injection Hr as <-; discriminate Ht. }
  destruct (handlePaymentUpdate_normal paymentData st Hpd) as [st' Hh].
  unfold processPaymentResponse, parse. run. rewrite H1.
  change (typeof_object (Some (JStr s))) with false. rewrite andb_false_r.
  cbv beta iota. change (truthy None) with false. cbv beta iota.
  destruct (nonempty_lines s) as [|x r] eqn:E; [discriminate Hl|].
  cbn [length Nat.eqb]. rewrite Hl, Hp, Hpd, Hr, Ht. cbn [negb orb].
  rewrite Hh. reflexivity.
Qed.

(** The last line does not parse. *)
Lemma process_stream_unparsable (raw s lastLine : string) (st : State) :
  JSON_parse raw = Some (JStr s) ->
  last_elem (nonempty_lines s) = Some lastLine ->
  JSON_parse lastLine = None ->
  processPaymentResponse JSON_parse ToString raw st =
    (Normal tt,
     {| paymentRequest := paymentRequest st; paymentResult := paymentResult st;
        loading := false; error := Some "Unable to parse payment response";
        rawResponse := rawResponse st |}).
Proof.
  intros H1 Hl Hp.
  unfold processPaymentResponse, parse. run. rewrite H1.
  change (typeof_object (Some (JStr s))) with false. rewrite andb_false_r.
  cbv beta iota. change (truthy None) with false. cbv beta iota.
  destruct (nonempty_lines s) as [|x r] eqn:E; [discriminate Hl|].
  cbn [length Nat.eqb]. rewrite Hl, Hp. reflexivity.
Qed.

(** The last line parses to a value without a usable [result]. *)
Lemma process_stream_no_result (raw s lastLine : string) (paymentData : json) (st : State) :
  JSON_parse raw = Some (JStr s) ->
  last_elem (nonempty_lines s) = Some lastLine ->
  JSON_parse lastLine = Some paymentData ->
  has_result paymentData = false ->
  processPaymentResponse JSON_parse ToString raw st =
    (Normal tt,
     {| paymentRequest := paymentRequest st; paymentResult := paymentResult st;
        loading := false; error := Some "Invalid payment response format";
        rawResponse := rawResponse st |}).
Proof.
  intros H1 Hl Hp Hr.
  unfold processPaymentResponse, parse. run. rewrite H1.
  change (typeof_object (Some (JStr s))) with false. rewrite andb_false_r.
  cbv beta iota. change (truthy None) with false. cbv beta iota.
  destruct (nonempty_lines s) as [|x r] eqn:E; [discriminate Hl|].
  cbn [length Nat.eqb]. rewrite Hl, Hp. unfold has_result in Hr.
  destruct (truthy (Some paymentData)) eqn:Ht.
  - destruct (prop_truthy _ "result" Ht) as [res Hres]. rewrite Hres in Hr |- *.
    simpl in Hr. rewrite Hr. reflexivity.
  - reflexivity.
Qed.

(** A line without a [result] field fails the test. *)
Lemma lacks_result (fields : list (string * json)) :
  field "result" fields = None -> has_result (JObj fields) = false.
Proof. intros H. unfold has_result. simpl. rewrite H. reflexivity. Qed.

(** [sendPayment] when the node client fails. *)
Lemma sendPayment_rejected (st : State) :
  str_truthy (paymentRequest st) = true ->
  trim (paymentRequest st) <> "" ->
  sendPaymentV2 (paymentRequest st) = None ->
  sendPayment JSON_stringify sendPaymentV2 st =
    (Normal tt,
     {| paymentRequest := paymentRequest st; paymentResult := None;
        loading := false;
        error := Some "Failed to send payment. Please check your invoice and node connection.";
        rawResponse := "" |}).
Proof.
  intros Ht Hb Hn. unfold sendPayment. run. rewrite Ht.
  destruct (String.eqb_spec (trim (paymentRequest st)) ""); [contradiction|].
  cbn [negb orb]. cbv beta iota. cbn [paymentRequest]. rewrite Hn. reflexivity.
Qed.

(** [sendPayment] when the node client answers. *)
Lemma sendPayment_answered (st : State) (result : json) :
  str_truthy (paymentRequest st) = true ->
  trim (paymentRequest st) <> "" ->
  sendPaymentV2 (paymentRequest st) = Some result ->
  sendPayment JSON_stringify sendPaymentV2 st =
    (Normal tt,
     {| paymentRequest := paymentRequest st; paymentResult := None;
        loading := true; error := None;
        rawResponse := JSON_stringify result |}).
Proof.
  intros Ht Hb Hn. unfold sendPayment. run. rewrite Ht.
  destruct (String.eqb_spec (trim (paymentRequest st)) ""); [contradiction|].
  cbn [negb orb]. cbv beta iota. cbn [paymentRequest]. rewrite Hn. reflexivity.
Qed.

(** No exception escapes [sendPayment]. *)
Lemma sendPayment_normal (st : State) :
  exists st', sendPayment JSON_stringify sendPaymentV2 st = (Normal tt, st').
Proof.
  unfold sendPayment. run.
  destruct (negb (str_truthy (paymentRequest st)) || _); [eauto|].
  cbn [paymentRequest]. destruct (sendPaymentV2 (paymentRequest st)); eauto.
Qed.
End SendFacts.

(** C2.  A streamed response (a JSON string of newline-separated JSON texts)
    is handled through its last non-empty line only: the last line of the
    split at newlines whose [trim] is not empty, whatever lines precede it
    and whatever blank lines (empty, or made of white space) follow it.
    When that line is a [SUCCEEDED] result the component ends with that
    record as payment result, [loading = false] and [error = null]; this is
    also where a click on "Send Payment" ends when the node streams earlier
    lines (such as an [IN_FLIGHT] result) followed by a [SUCCEEDED] line
    and by any number of blank lines. *)
Theorem c2_stream_keeps_last_line
    (JSON_parse : string -> option json) (JSON_stringify : json -> string)
    (ToString : value -> string) (sendPaymentV2 : string -> option json) :
  (forall (raw1 raw2 s1 s2 : string) (st : State),
      JSON_parse raw1 = Some (JStr s1) ->
      JSON_parse raw2 = Some (JStr s2) ->
      last_elem (nonempty_lines s1) = last_elem (nonempty_lines s2) ->
      processPaymentResponse JSON_parse ToString raw1 st =
      processPaymentResponse JSON_parse ToString raw2 st) /\
  (forall (raw s lastLine : string) (paymentData : json) (result : value) (st : State),
      JSON_parse raw = Some (JStr s) ->
      last_elem (nonempty_lines s) = Some lastLine ->
      JSON_parse lastLine = Some paymentData ->
      prop (Some paymentData) "result" = inl result ->
      truthy result = true ->
      prop result "status" = inl (Some (JStr "SUCCEEDED")) ->
      processPaymentResponse JSON_parse ToString raw st =
        (Normal tt,
         {| paymentRequest := paymentRequest st; paymentResult := Some paymentData;
            loading := false; error := None; rawResponse := rawResponse st |})) /\
  (forall (earlier lastLine raw : string) (paymentData : json) (result : value) (st : State),
      str_truthy (paymentRequest st) = true ->
      trim (paymentRequest st) <> "" ->
      sendPaymentV2 (paymentRequest st) = Some (JStr (earlier +:+ String newline lastLine)) ->
      JSON_stringify (JStr (earlier +:+ String newline lastLine)) = raw ->
      str_truthy raw = true ->
      JSON_parse raw = Some (JStr (earlier +:+ String newline lastLine)) ->
      ~ In newline (chars lastLine) ->
      trim lastLine <> "" ->
      JSON_parse lastLine = Some paymentData ->
      prop (Some paymentData) "result" = inl result ->
      truthy result = true ->
      prop result "status" = inl (Some (JStr "SUCCEEDED")) ->
      pay JSON_parse JSON_stringify ToString sendPaymentV2 st =
        (Normal tt,
         {| paymentRequest := paymentRequest st; paymentResult := Some paymentData;
            loading := false; error := None; rawResponse := raw |})) /\
  (forall (s : string) (before after : list string) (lastLine : string),
      split newline s = before ++ lastLine :: after ->
      trim lastLine <> "" ->
      Forall (fun line => trim line = "") after ->
      last_elem (nonempty_lines s) = Some lastLine) /\
  (forall (raw s : string) (before after : list string) (lastLine : string)
          (paymentData : json) (result : value) (st : State),
      JSON_parse raw = Some (JStr s) ->
      split newline s = before ++ lastLine :: after ->
      trim lastLine <> "" ->
      Forall (fun line => trim line = "") after ->
      JSON_parse lastLine = Some paymentData ->
      prop (Some paymentData) "result" = inl result ->
      truthy result = true ->
      prop result "status" = inl (Some (JStr "SUCCEEDED")) ->
      processPaymentResponse JSON_parse ToString raw st =
        (Normal tt,
         {| paymentRequest := paymentRequest st; paymentResult := Some paymentData;
            loading := false; error := None; rawResponse := rawResponse st |})) /\
  (forall (raw s : string) (before after : list string) (lastLine : string)
          (paymentData : json) (result : value) (st : State),
      str_truthy (paymentRequest st) = true ->
      trim (paymentRequest st) <> "" ->
      sendPaymentV2 (paymentRequest st) = Some (JStr s) ->
      JSON_stringify (JStr s) = raw ->
      str_truthy raw = true ->
      JSON_parse raw = Some (JStr s) ->
      split newline s = before ++ lastLine :: after ->
      trim lastLine <> "" ->
      Forall (fun line => trim line = "") after ->
      JSON_parse lastLine = Some paymentData ->
      prop (Some paymentData) "result" = inl result ->
      truthy result = true ->
      prop result "status" = inl (Some (JStr "SUCCEEDED")) ->
      pay JSON_parse JSON_stringify ToString sendPaymentV2 st =
        (Normal tt,
         {| paymentRequest := paymentRequest st; paymentResult := Some paymentData;
            loading := false; error := None; rawResponse := raw |})).
Proof.
  split; [|split; [|split; [|split; [|split]]]];
    [| | |exact nonempty_lines_split| |].
  - intros. eapply process_stream_last_line_only; eassumption.
  - intros raw s lastLine paymentData result st H1 Hl Hp Hr Ht Hs.
    rewrite (process_stream_update JSON_parse ToString raw s lastLine paymentData result st)
      by assumption.
    apply handlePaymentUpdate_succeeded with (result := result); assumption.
  - intros earlier lastLine raw paymentData result st Hq Hb Hn Hj Hraw H1 Hnl Hne Hp Hr Ht Hs.
    unfold pay. unfold mbind at 1, M_bind, bind.
    rewrite (sendPayment_answered JSON_stringify sendPaymentV2 st _ Hq Hb Hn), Hj.
    unfold rawResponse_effect. run. cbn [rawResponse]. rewrite Hraw.
    rewrite (process_stream_update JSON_parse ToString raw
               (earlier +:+ String newline lastLine) lastLine paymentData result)
      by (first [assumption | apply nonempty_lines_last; assumption]).
    rewrite (handlePaymentUpdate_succeeded ToString paymentData result) by assumption.
    reflexivity.
  - intros raw s before after lastLine paymentData result st H1 Hsp Hne Hbl Hp Hr Ht Hs.
    pose proof (nonempty_lines_split s before after lastLine Hsp Hne Hbl) as Hl.
    rewrite (process_stream_update JSON_parse ToString raw s lastLine paymentData result st)
      by assumption.
    apply handlePaymentUpdate_succeeded with (result := result); assumption.
  - intros raw s before after lastLine paymentData result st
      Hq Hb Hn Hj Hraw H1 Hsp Hne Hbl Hp Hr Ht Hs.
    pose proof (nonempty_lines_split s before after lastLine Hsp Hne Hbl) as Hl.
    unfold pay. unfold mbind at 1, M_bind, bind.
    rewrite (sendPayment_answered JSON_stringify sendPaymentV2 st _ Hq Hb Hn), Hj.
    unfold rawResponse_effect. run. cbn [rawResponse]. rewrite Hraw.
    rewrite (process_stream_update JSON_parse ToString raw s lastLine paymentData result)
      by assumption.
    rewrite (handlePaymentUpdate_succeeded ToString paymentData result) by assumption.
    reflexivity.
Qed.

Lemma c2_stream_keeps_last_line_witness :
  Samples.sample_parse (Samples.json_string_literal Samples.stream_ok)
    = Some (JStr Samples.stream_ok) /\
  last_elem (nonempty_lines Samples.stream_ok) = Some Samples.line_succeeded /\
  Samples.sample_parse Samples.line_succeeded = Some Samples.succeeded /\
  processPaymentResponse Samples.sample_parse Samples.sample_ToString
      (Samples.json_string_literal Samples.stream_ok) Samples.send_waiting =
    (Normal tt,
     {| paymentRequest := "lnbc100n1demo"; paymentResult := Some Samples.succeeded;
        loading := false; error := None; rawResponse := "" |}) /\
  pay Samples.sample_parse Samples.sample_stringify Samples.sample_ToString
      Samples.node_streams_ok Samples.send_ready =
    (Normal tt,
     {| paymentRequest := "lnbc100n1demo"; paymentResult := Some Samples.succeeded;
        loading := false; error := None;
        rawResponse := Samples.json_string_literal Samples.stream_ok |}) /\
  split newline Samples.stream_trailing
    = [Samples.line_in_flight] ++ Samples.line_succeeded :: [Samples.nbsp; ""] /\
  last_elem (nonempty_lines Samples.stream_trailing) = Some Samples.line_succeeded /\
  processPaymentResponse Samples.sample_parse_trailing Samples.sample_ToString
      (Samples.json_string_literal Samples.stream_trailing) Samples.send_waiting =
    (Normal tt,
     {| paymentRequest := "lnbc100n1demo"; paymentResult := Some Samples.succeeded;
        loading := false; error := None; rawResponse := "" |}) /\
  pay Samples.sample_parse_trailing Samples.sample_stringify Samples.sample_ToString
      Samples.node_streams_trailing Samples.send_ready =
    (Normal tt,
     {| paymentRequest := "lnbc100n1demo"; paymentResult := Some Samples.succeeded;
        loading := false; error := None;
        rawResponse := Samples.json_string_literal Samples.stream_trailing |}).
Proof.
  destruct (c2_stream_keeps_last_line Samples.sample_parse Samples.sample_stringify
              Samples.sample_ToString Samples.node_streams_ok) as (_ & Hlast & Hpay & _).
  destruct (c2_stream_keeps_last_line Samples.sample_parse_trailing Samples.sample_stringify
              Samples.sample_ToString Samples.node_streams_trailing)
    as (_ & _ & _ & Hlines & Hprocess & Hpay').
  assert (Hsplit : split newline Samples.stream_trailing
                   = [Samples.line_in_flight] ++ Samples.line_succeeded :: [Samples.nbsp; ""])
    by reflexivity.
  assert (Hblank : Forall (fun line => trim line = "") [Samples.nbsp; ""])
    by (repeat constructor).
  assert (Hne : trim Samples.line_succeeded <> "") by (vm_compute; discriminate).
  split; [reflexivity|]. split; [reflexivity|]. split; [reflexivity|].
  split; [|split; [|split; [exact Hsplit|split; [|split]]]].
  - apply (Hlast (Samples.json_string_literal Samples.stream_ok) Samples.stream_ok
             Samples.line_succeeded Samples.succeeded
             (Some (JObj [("status", JStr "SUCCEEDED")])) Samples.send_waiting);
      reflexivity.
  - apply (Hpay Samples.line_in_flight Samples.line_succeeded
             (Samples.json_string_literal Samples.stream_ok) Samples.succeeded
             (Some (JObj [("status", JStr "SUCCEEDED")])) Samples.send_ready);
      try reflexivity; try discriminate.
    vm_compute. intuition discriminate.
  - exact (Hlines _ _ _ _ Hsplit Hne Hblank).
  - apply (Hprocess (Samples.json_string_literal Samples.stream_trailing)
             Samples.stream_trailing [Samples.line_in_flight] [Samples.nbsp; ""]
             Samples.line_succeeded Samples.succeeded
             (Some (JObj [("status", JStr "SUCCEEDED")])) Samples.send_waiting);
      try reflexivity; assumption.
  - apply (Hpay' (Samples.json_string_literal Samples.stream_trailing)
             Samples.stream_trailing [Samples.line_in_flight] [Samples.nbsp; ""]
             Samples.line_succeeded Samples.succeeded
             (Some (JObj [("status", JStr "SUCCEEDED")])) Samples.send_ready);
      try reflexivity; try assumption. discriminate.
Defined.

(** C8.  No exception escapes [processPaymentResponse]: every failure ends in
    an error string with [loading = false].  When the last line of a stream
    does not parse the string is "Unable to parse payment response"; when it
    parses to a value without a [result] it is "Invalid payment response
    format"; the last line is the last one whose [trim] is not empty,
    whatever blank lines follow it.  A failure of the node client's send
    call is caught in [sendPayment] and becomes one generic string, with
    [loading = false]. *)
Theorem c8_failures_are_reported
    (JSON_parse : string -> option json) (JSON_stringify : json -> string)
    (ToString : value -> string) (sendPaymentV2 : string -> option json) :
  (forall (raw : string) (st : State),
      fst (processPaymentResponse JSON_parse ToString raw st) = Normal tt) /\
  (forall (raw s lastLine : string) (st : State),
      JSON_parse raw = Some (JStr s) ->
      last_elem (nonempty_lines s) = Some lastLine ->
      JSON_parse lastLine = None ->
      processPaymentResponse JSON_parse ToString raw st =
        (Normal tt,
         {| paymentRequest := paymentRequest st; paymentResult := paymentResult st;
            loading := false; error := Some "Unable to parse payment response";
            rawResponse := rawResponse st |})) /\
  (forall (raw s lastLine : string) (paymentData : json) (st : State),
      JSON_parse raw = Some (JStr s) ->
      last_elem (nonempty_lines s) = Some lastLine ->
      JSON_parse lastLine = Some paymentData ->
      has_result paymentData = false ->
      processPaymentResponse JSON_parse ToString raw st =
        (Normal tt,
         {| paymentRequest := paymentRequest st; paymentResult := paymentResult st;
            loading := false; error := Some "Invalid payment response format";
            rawResponse := rawResponse st |})) /\
  (forall (fields : list (string * json)),
      field "result" fields = None -> has_result (JObj fields) = false) /\
  (forall (st : State),
      fst (sendPayment JSON_stringify sendPaymentV2 st) = Normal tt) /\
  (forall (st : State),
      str_truthy (paymentRequest st) = true ->
      trim (paymentRequest st) <> "" ->
      sendPaymentV2 (paymentRequest st) = None ->
      sendPayment JSON_stringify sendPaymentV2 st =
        (Normal tt,
         {| paymentRequest := paymentRequest st; paymentResult := None;
            loading := false;
            error := Some "Failed to send payment. Please check your invoice and node connection.";
            rawResponse := "" |})) /\
  (forall (raw s : string) (before after : list string) (lastLine : string) (st : State),
      JSON_parse raw = Some (JStr s) ->
      split newline s = before ++ lastLine :: after ->
      trim lastLine <> "" ->
      Forall (fun line => trim line = "") after ->
      JSON_parse lastLine = None ->
      processPaymentResponse JSON_parse ToString raw st =
        (Normal tt,
         {| paymentRequest := paymentRequest st; paymentResult := paymentResult st;
            loading := false; error := Some "Unable to parse payment response";
            rawResponse := rawResponse st |})) /\
  (forall (raw s : string) (before after : list string) (lastLine : string)
          (paymentData : json) (st : State),
      JSON_parse raw = Some (JStr s) ->
      split newline s = before ++ lastLine :: after ->
      trim lastLine <> "" ->
      Forall (fun line => trim line = "") after ->
      JSON_parse lastLine = Some paymentData ->
      has_result paymentData = false ->
      processPaymentResponse JSON_parse ToString raw st =
        (Normal tt,
         {| paymentRequest := paymentRequest st; paymentResult := paymentResult st;
            loading := false; error := Some "Invalid payment response format";
            rawResponse := rawResponse st |})).
Proof.
  split; [|split; [|split; [|split; [|split; [|split; [|split]]]]]].
  - intros raw st.
    destruct (processPaymentResponse_normal JSON_parse ToString raw st) as [st' ->].
    reflexivity.
  - apply process_stream_unparsable.
  - apply process_stream_no_result.
  - apply lacks_result.
  - intros st.
    destruct (sendPayment_normal JSON_stringify sendPaymentV2 st) as [st' ->]. reflexivity.
  - apply sendPayment_rejected.
  - intros raw s before after lastLine st H1 Hsp Hne Hbl Hp.
    apply (process_stream_unparsable JSON_parse ToString raw s lastLine st H1); [|exact Hp].
    exact (nonempty_lines_split s before after lastLine Hsp Hne Hbl).
  - intros raw s before after lastLine paymentData st H1 Hsp Hne Hbl Hp Hr.
    apply (process_stream_no_result JSON_parse ToString raw s lastLine paymentData st H1);
      [|exact Hp|exact Hr].
    exact (nonempty_lines_split s before after lastLine Hsp Hne Hbl).
Qed.

Lemma c8_failures_are_reported_witness :
  processPaymentResponse Samples.sample_parse Samples.sample_ToString
      (Samples.json_string_literal Samples.stream_broken) Samples.send_waiting =
    (Normal tt,
     {| paymentRequest := "lnbc100n1demo"; paymentResult := None;
        loading := false; error := Some "Unable to parse payment response";
        rawResponse := "" |}) /\
  processPaymentResponse Samples.sample_parse Samples.sample_ToString
      (Samples.json_string_literal Samples.stream_no_result) Samples.send_waiting =
    (Normal tt,
     {| paymentRequest := "lnbc100n1demo"; paymentResult := None;
        loading := false; error := Some "Invalid payment response format";
        rawResponse := "" |}) /\
  sendPayment Samples.sample_stringify Samples.node_down Samples.send_ready =
    (Normal tt,
     {| paymentRequest := "lnbc100n1demo"; paymentResult := None;
        loading := false;
        error := Some "Failed to send payment. Please check your invoice and node connection.";
        rawResponse := "" |}) /\
  split newline Samples.stream_broken_trailing
    = [Samples.line_in_flight] ++ Samples.line_broken :: [Samples.nbsp; ""] /\
  processPaymentResponse Samples.sample_parse_broken_trailing Samples.sample_ToString
      (Samples.json_string_literal Samples.stream_broken_trailing) Samples.send_waiting =
    (Normal tt,
     {| paymentRequest := "lnbc100n1demo"; paymentResult := None;
        loading := false; error := Some "Unable to parse payment response";
        rawResponse := "" |}).
Proof.
  destruct (c8_failures_are_reported Samples.sample_parse Samples.sample_stringify
              Samples.sample_ToString Samples.node_down)
    as (_ & Hparse & Hres & Hlacks & _ & Hsend & _).
  destruct (c8_failures_are_reported Samples.sample_parse_broken_trailing
              Samples.sample_stringify Samples.sample_ToString Samples.node_down)
    as (_ & _ & _ & _ & _ & _ & Hblank & _).
  split; [|split; [|split; [|split; [reflexivity|]]]].
  - apply (Hparse (Samples.json_string_literal Samples.stream_broken)
             Samples.stream_broken Samples.line_broken Samples.send_waiting);
      reflexivity.
  - apply (Hres (Samples.json_string_literal Samples.stream_no_result)
             Samples.stream_no_result Samples.line_no_result Samples.no_result
             Samples.send_waiting); reflexivity.
  - apply (Hsend Samples.send_ready); try reflexivity. discriminate.
  - apply (Hblank (Samples.json_string_literal Samples.stream_broken_trailing)
             Samples.stream_broken_trailing [Samples.line_in_flight] [Samples.nbsp; ""]
             Samples.line_broken Samples.send_waiting);
      try reflexivity; [vm_compute; discriminate|repeat constructor].
Defined.

(** ** The receive form (C3, C6) *)

Import Receive EventBus.

Ltac run_receive :=
  cbv beta iota delta
    [mbind mret M_bind M_ret bind ret throw gets modify lift try_catch try_finally
     Receive.setLoading Receive.setError Receive.setInvoice Receive.setAmount
     Receive.setMemo Receive.setSuccessMessage Receive.setCheckingPayment
     Receive.eventBus_emit id].

(** One check of the invoice status: the stored invoice and the emissions
    afterwards. *)
Lemma checkInvoiceStatus_step (lookupInvoiceV2 : string -> option bool) (st : State) :
  exists st',
    checkInvoiceStatus lookupInvoiceV2 st = (Normal tt, st') /\
    emissions st' =
      emissions st ++
      match invoice st with
      | Some inv =>
          if fires lookupInvoiceV2 st
          then [{| emitted_event := transaction_new;
                   emitted_payload := with_settled inv true |}]
          else []
      | None => []
      end /\
    invoice st' =
      match invoice st with
      | Some inv =>
          match lookupInvoiceV2 (payment_hash inv) with
          | Some b => Some (with_settled inv b)
          | None => Some inv
          end
      | None => None
      end.
Proof.
  unfold checkInvoiceStatus, fires. run_receive.
  destruct (invoice st) as [inv|] eqn:Hinv.
  - destruct (lookupInvoiceV2 (payment_hash inv)) as [[|]|] eqn:Hl.
    + destruct (settled inv) eqn:Hs; cbn [negb andb]; eexists; (split; [reflexivity|]);
        cbn [emissions invoice]; rewrite ?app_nil_r; split; reflexivity.
    + destruct (settled inv) eqn:Hs; cbn [negb andb]; eexists; (split; [reflexivity|]);
        cbn [emissions invoice]; rewrite ?app_nil_r, ?andb_false_r; split; reflexivity.
    + eexists. split; [reflexivity|]. cbn [emissions invoice].
      rewrite andb_false_r, app_nil_r, Hinv. split; reflexivity.
  - eexists. split; [reflexivity|]. rewrite app_nil_r, Hinv. split; reflexivity.
Qed.

Lemma check_all_cons (lookupInvoiceV2 : string -> option bool)
    (lookups : list (string -> option bool)) (st st1 : State) :
  checkInvoiceStatus lookupInvoiceV2 st = (Normal tt, st1) ->
  check_all (lookupInvoiceV2 :: lookups) st = check_all lookups st1.
Proof.
  intros H. unfold check_all. cbn [forEach]. unfold bind. rewrite H. reflexivity.
Qed.

Lemma not_unsettled_stays (l : list (option bool)) :
  forallb not_unsettled l = true -> stays_settled l = true.
Proof.
  induction l as [|a l IH]; [reflexivity|]. cbn [forallb].
  intros H. apply andb_true_iff in H as [_ H].
  destruct a as [[|]|]; cbn [stays_settled]; auto.
Qed.

Lemma stays_settled_tail (a : option bool) (l : list (option bool)) :
  stays_settled (a :: l) = true -> stays_settled l = true.
Proof.
  destruct a as [[|]|]; cbn [stays_settled]; auto using not_unsettled_stays.
Qed.

Lemma settlement_notifications_app (l1 l2 : list Emission) :
  settlement_notifications (l1 ++ l2) =
  settlement_notifications l1 ++ settlement_notifications l2.
Proof. apply List.filter_app. Qed.

(** Checks of an invoice stored as settled, while the node keeps reporting
    it settled, emit nothing. *)
Lemma check_all_settled (lookups : list (string -> option bool)) :
  forall (st : State) (inv : Invoice),
    invoice st = Some inv ->
    settled inv = true ->
    forallb not_unsettled (answers lookups (payment_hash inv)) = true ->
    exists st', check_all lookups st = (Normal tt, st') /\ emissions st' = emissions st.
Proof.
  induction lookups as [|lk lookups IH]; intros st inv Hinv Hs Hno.
  - exists st. split; reflexivity.
  - destruct (checkInvoiceStatus_step lk st) as (st1 & Hrun & Hem & Hi).
    rewrite (check_all_cons _ _ _ _ Hrun).
    rewrite Hinv in Hem, Hi. unfold fires in Hem. rewrite Hinv, Hs in Hem.
    cbn [negb andb] in Hem. rewrite app_nil_r in Hem.
    cbn [answers map forallb] in Hno. apply andb_true_iff in Hno as [Hhead Hno].
    destruct (lk (payment_hash inv)) as [[|]|] eqn:Hl.
    + destruct (IH st1 (with_settled inv true) Hi eq_refl Hno) as (st' & Hrun' & Hem').
      exists st'. split; [exact Hrun'|]. rewrite Hem'. exact Hem.
    + discriminate Hhead.
    + destruct (IH st1 inv Hi Hs Hno) as (st' & Hrun' & Hem').
      exists st'. split; [exact Hrun'|]. rewrite Hem'. exact Hem.
Qed.

Lemma answers_settled_cons (lk : string -> option bool)
    (lookups : list (string -> option bool)) (hash : string) :
  bool_decide (Some true ∈ answers (lk :: lookups) hash) =
  bool_decide (lk hash = Some true) || bool_decide (Some true ∈ answers lookups hash).
Proof.
  cbn [answers map]. rewrite <- bool_decide_or. apply bool_decide_ext.
  rewrite elem_of_cons. intuition congruence.
Qed.

(** Checks of an invoice stored as unsettled, answered by a node that never
    takes a settlement back: one notification if the node ever reports the
    invoice settled, none otherwise. *)
Lemma check_all_unsettled (lookups : list (string -> option bool)) :
  forall (st : State) (inv : Invoice),
    invoice st = Some inv ->
    settled inv = false ->
    stays_settled (answers lookups (payment_hash inv)) = true ->
    exists st',
      check_all lookups st = (Normal tt, st') /\
      length (settlement_notifications (emissions st')) =
        (length (settlement_notifications (emissions st)) +
         if bool_decide (Some true ∈ answers lookups (payment_hash inv)) then 1 else 0)%nat.
Proof.
  induction lookups as [|lk lookups IH]; intros st inv Hinv Hs Hmono.
  - exists st. split; [reflexivity|]. cbn [answers map].
    rewrite bool_decide_eq_false_2 by apply not_elem_of_nil. lia.
  - destruct (checkInvoiceStatus_step lk st) as (st1 & Hrun & Hem & Hi).
    rewrite (check_all_cons _ _ _ _ Hrun).
    rewrite Hinv in Hem, Hi. unfold fires in Hem. rewrite Hinv, Hs in Hem.
    cbn [negb andb] in Hem. rewrite answers_settled_cons.
    cbn [answers map] in Hmono.
    destruct (lk (payment_hash inv)) as [[|]|] eqn:Hl.
    + rewrite bool_decide_eq_true_2 in Hem by reflexivity.
      destruct (check_all_settled lookups st1 (with_settled inv true) Hi eq_refl)
        as (st' & Hrun' & Hem').
      { exact Hmono. }
      exists st'. split; [exact Hrun'|].
      rewrite Hem', Hem, settlement_notifications_app, length_app.
      rewrite bool_decide_eq_true_2 by reflexivity. reflexivity.
    + rewrite bool_decide_eq_false_2 in Hem by discriminate. rewrite app_nil_r in Hem.
      destruct (IH st1 (with_settled inv false) Hi eq_refl) as (st' & Hrun' & Hlen).
      { apply stays_settled_tail in Hmono. exact Hmono. }
      exists st'. split; [exact Hrun'|]. rewrite Hlen, Hem.
      rewrite (bool_decide_eq_false_2 (Some false = Some true)) by discriminate.
      reflexivity.
    + rewrite bool_decide_eq_false_2 in Hem by discriminate. rewrite app_nil_r in Hem.
      destruct (IH st1 inv Hi Hs) as (st' & Hrun' & Hlen).
      { apply stays_settled_tail in Hmono. exact Hmono. }
      exists st'. split; [exact Hrun'|]. rewrite Hlen, Hem.
      rewrite (bool_decide_eq_false_2 (None = Some true)) by discriminate.
      reflexivity.
Qed.

(** C3, as stated, fails: the stored flag follows the node, so a node that
    answers settled, unsettled, settled makes two checks of one invoice fire
    the notification. *)
Lemma c3_counterexample :
  (exists inv, invoice Samples.receive_created = Some inv /\ settled inv = false) /\
  length (settlement_notifications (emissions Samples.receive_created)) = 0%nat /\
  length (settlement_notifications (emissions (snd
            (check_all [Samples.says (Some true); Samples.says (Some false);
                        Samples.says (Some true)]
               Samples.receive_created)))) = 2%nat.
Proof.
  split; [|split].
  - eexists. split; reflexivity.
  - reflexivity.
  - vm_compute. reflexivity.
Qed.

(** C3 (amended).  A check of the invoice status emits ['transaction:new']
    exactly when the stored invoice is unsettled and the node's lookup
    answers settled, and it emits nothing else.  Over a sequence of checks
    of one created invoice in which the node never answers unsettled after
    it answered settled, the notification fires once if the node ever
    answers settled and not at all otherwise; once the stored invoice is
    settled, checks answered without "unsettled" emit nothing. *)
Theorem c3_settlement_notified_once :
  (forall (lookupInvoiceV2 : string -> option bool) (st : State),
      exists st',
        checkInvoiceStatus lookupInvoiceV2 st = (Normal tt, st') /\
        emissions st' =
          emissions st ++
          match invoice st with
          | Some inv =>
              if fires lookupInvoiceV2 st
              then [{| emitted_event := transaction_new;
                       emitted_payload := with_settled inv true |}]
              else []
          | None => []
          end) /\
  (forall (lookups : list (string -> option bool)) (st : State) (inv : Invoice),
      invoice st = Some inv ->
      settled inv = false ->
      stays_settled (answers lookups (payment_hash inv)) = true ->
      exists st',
        check_all lookups st = (Normal tt, st') /\
        length (settlement_notifications (emissions st')) =
          (length (settlement_notifications (emissions st)) +
           if bool_decide (Some true ∈ answers lookups (payment_hash inv))
           then 1 else 0)%nat) /\
  (forall (lookups : list (string -> option bool)) (st : State) (inv : Invoice),
      invoice st = Some inv ->
      settled inv = true ->
      forallb not_unsettled (answers lookups (payment_hash inv)) = true ->
      exists st', check_all lookups st = (Normal tt, st') /\ emissions st' = emissions st).
Proof.
  split; [|split].
  - intros lk st. destruct (checkInvoiceStatus_step lk st) as (st' & Hrun & Hem & _).
    exists st'. split; assumption.
  - intros lookups. apply check_all_unsettled.
  - intros lookups. apply check_all_settled.
Qed.

Lemma c3_settlement_notified_once_witness :
  let lookups := [Samples.says None; Samples.says (Some false);
                  Samples.says (Some true); Samples.says (Some true)] in
  stays_settled (answers lookups "c0ffee") = true /\
  exists st',
    check_all lookups Samples.receive_created = (Normal tt, st') /\
    length (settlement_notifications (emissions st')) = 1%nat.
Proof.
  intros lookups. split; [reflexivity|].
  destruct c3_settlement_notified_once as (_ & Honce & _).
  destruct (Honce lookups Samples.receive_created
              {| payment_request := "lnbc100n1demo"; payment_hash := "c0ffee";
                 value_msat := "10000"; timestamp := "1700000000"; expiry := "3600";
                 memo := Some "test"; settled := false |})
    as (st' & Hrun & Hlen).
  - vm_compute. reflexivity.
  - reflexivity.
  - reflexivity.
  - exists st'. split; [exact Hrun|]. rewrite Hlen. reflexivity.
Defined.

(** ** Invoice creation (C6) *)

(** The invoice stored by a successful [createInvoice]. *)
Lemma createInvoice_created
    (addInvoice : AddInvoiceRequest -> option AddInvoiceResponse) (now_ms : Z)
    (st : State) (response : AddInvoiceResponse) :
  addInvoice (addInvoice_request st) = Some response ->
  exists st' inv,
    createInvoice addInvoice now_ms st = (Normal tt, st') /\
    invoice st' = Some inv /\
    loading st' = false /\
    emissions st' = emissions st ++ [{| emitted_event := invoice_created;
                                        emitted_payload := inv |}] /\
    payment_request inv = resp_payment_request response /\
    payment_hash inv = resp_r_hash response /\
    value_msat inv = Number_toString (double (num_mul (amount st) (int 1000))) /\
    expiry inv = "3600" /\
    settled inv = false.
Proof.
  intros H. unfold createInvoice. run_receive.
  change (addInvoice_request _) with (addInvoice_request st). rewrite H.
  do 2 eexists. split; [reflexivity|]. cbn. repeat split; reflexivity.
Qed.

Lemma createInvoice_v1_created (hex : string -> string)
    (addInvoice : AddInvoiceRequest -> option AddInvoiceResponse) (now_ms : Z)
    (st : State) (response : AddInvoiceResponse) :
  addInvoice (addInvoice_request st) = Some response ->
  exists st' inv,
    createInvoice_v1 hex addInvoice now_ms st = (Normal tt, st') /\
    invoice st' = Some inv /\
    value_msat inv = Number_toString (double (num_mul (amount st) (int 1000))) /\
    expiry inv = "3600" /\
    settled inv = false.
Proof.
  intros H. unfold createInvoice_v1. run_receive.
  change (addInvoice_request _) with (addInvoice_request st). rewrite H.
  do 2 eexists. split; [reflexivity|]. cbn. repeat split; reflexivity.
Qed.

(** The string of [A * 1000], while the product is at most 2^53. *)
Lemma value_msat_decimal (A : Z) :
  Z.abs (A * 1000) <= 2 ^ 53 ->
  Number_toString (double (num_mul (int A) (int 1000))) = pretty (A * 1000).
Proof.
  intros H. rewrite num_mul_int, double_int by exact H.
  apply Number_toString_int. exact H.
Qed.

(** Typing the decimal notation of an integer, up to 2^53. *)
Lemma onAmountChange_decimal (A : Z) (st : State) :
  Z.abs A <= 2 ^ 53 -> amount (snd (onAmountChange (pretty A) st)) = int A.
Proof.
  intros H. unfold onAmountChange. cbv zeta. rewrite (parseInt_pretty A H).
  unfold num_truthy, int. destruct (Z.eq_dec A 0) as [->|Hne]; [reflexivity|].
  rewrite bool_decide_eq_false_2; [reflexivity|].
  rewrite Qc_of_Z_eq_0. exact Hne.
Qed.

(** C6, as stated, fails from 2^53 on, where the product [A * 1000] and the
    typed amount are rounded to doubles.  With the amount 9007199254740928
    in the form (typed as such: it is below 2^53), the invoice is created
    with [value_msat] "9007199254740929000", which is not the notation of
    9007199254740928 * 1000.  Typing 9007199254740993 stores the amount
    9007199254740992, and the invoice then gets "9007199254740992000". *)
Lemma c6_counterexample :
  let typed (input : string) := snd (onAmountChange input Samples.receive_ready) in
  amount (typed "9007199254740928") = int 9007199254740928 /\
  (exists st' inv,
      createInvoice Samples.node_adds_invoice 1700000000123 (typed "9007199254740928")
        = (Normal tt, st') /\
      invoice st' = Some inv /\
      value_msat inv = "9007199254740929000" /\
      value_msat inv <> pretty (9007199254740928 * 1000)) /\
  amount (typed "9007199254740993") = int 9007199254740992 /\
  (exists st' inv,
      createInvoice Samples.node_adds_invoice 1700000000123 (typed "9007199254740993")
        = (Normal tt, st') /\
      invoice st' = Some inv /\
      value_msat inv = "9007199254740992000" /\
      value_msat inv <> pretty (9007199254740993 * 1000)).
Proof.
  intros typed. split; [|split; [|split]].
  - reflexivity.
  - do 2 eexists. split; [reflexivity|]. split; [reflexivity|].
    split; [vm_compute; reflexivity|]. vm_compute. discriminate.
  - reflexivity.
  - do 2 eexists. split; [reflexivity|]. split; [reflexivity|].
    split; [vm_compute; reflexivity|]. vm_compute. discriminate.
Qed.

(** C6 (amended).  For every integer amount [A] of the receive form with
    [A * 1000] at most 2^53 in magnitude, when the node creates the invoice,
    the invoice stored by [createInvoice] (in both variants of the
    component) has [value_msat] equal to the decimal notation of [A * 1000],
    [expiry] equal to "3600" and [settled] equal to [false]; the same
    string is sent to the node, and it reads back as the number [A * 1000].
    Typing the decimal notation of an integer [A] of magnitude at most 2^53
    into the amount field sets the amount to [A].  For every amount, the
    stored string is the notation of the double nearest to the product. *)
Theorem c6_created_invoice_value
    (hex : string -> string)
    (addInvoice : AddInvoiceRequest -> option AddInvoiceResponse) (now_ms : Z)
    (st : State) (response : AddInvoiceResponse) :
  addInvoice (addInvoice_request st) = Some response ->
  (forall A : Z,
      amount st = int A ->
      Z.abs (A * 1000) <= 2 ^ 53 ->
      req_value_msat (addInvoice_request st) = pretty (A * 1000) /\
      req_expiry (addInvoice_request st) = "3600" /\
      (exists st' inv,
          createInvoice addInvoice now_ms st = (Normal tt, st') /\
          invoice st' = Some inv /\
          value_msat inv = pretty (A * 1000) /\
          expiry inv = "3600" /\
          settled inv = false) /\
      (exists st' inv,
          createInvoice_v1 hex addInvoice now_ms st = (Normal tt, st') /\
          invoice st' = Some inv /\
          value_msat inv = pretty (A * 1000) /\
          expiry inv = "3600" /\
          settled inv = false) /\
      StringToNumber (pretty (A * 1000)) = int (A * 1000)) /\
  (forall (A : Z) (st0 : State),
      Z.abs A <= 2 ^ 53 -> amount (snd (onAmountChange (pretty A) st0)) = int A) /\
  (exists st' inv,
      createInvoice addInvoice now_ms st = (Normal tt, st') /\
      invoice st' = Some inv /\
      value_msat inv = Number_toString (double (num_mul (amount st) (int 1000))) /\
      expiry inv = "3600" /\
      settled inv = false).
Proof.
  intros H.
  destruct (createInvoice_created addInvoice now_ms st response H)
    as (st1 & inv1 & Hrun1 & Hinv1 & _ & _ & _ & _ & Hv1 & He1 & Hs1).
  destruct (createInvoice_v1_created hex addInvoice now_ms st response H)
    as (st2 & inv2 & Hrun2 & Hinv2 & Hv2 & He2 & Hs2).
  split; [|split].
  - intros A HA Hr. rewrite HA in Hv1, Hv2.
    rewrite (value_msat_decimal A Hr) in Hv1, Hv2.
    split; [|split; [reflexivity|split; [|split]]].
    + cbn [addInvoice_request req_value_msat]. rewrite HA. apply value_msat_decimal. exact Hr.
    + exists st1, inv1. repeat split; assumption.
    + exists st2, inv2. repeat split; assumption.
    + apply StringToNumber_pretty. exact Hr.
  - intros A st0. apply onAmountChange_decimal.
  - exists st1, inv1. repeat split; assumption.
Qed.

Lemma c6_created_invoice_value_witness :
  Samples.node_adds_invoice (addInvoice_request Samples.receive_ready)
    = Some {| resp_payment_request := "lnbc100n1demo"; resp_r_hash := "c0ffee" |} /\
  amount Samples.receive_ready = int 10 /\
  exists st' inv,
    createInvoice Samples.node_adds_invoice 1700000000123 Samples.receive_ready
      = (Normal tt, st') /\
    invoice st' = Some inv /\
    value_msat inv = "10000" /\
    expiry inv = "3600" /\
    settled inv = false.
Proof.
  split; [reflexivity|]. split; [reflexivity|].
  destruct (c6_created_invoice_value (fun h => h) Samples.node_adds_invoice 1700000000123
              Samples.receive_ready
              {| resp_payment_request := "lnbc100n1demo"; resp_r_hash := "c0ffee" |}
              eq_refl)
    as (Hdec & _ & _).
  destruct (Hdec 10 eq_refl ltac:(vm_compute; discriminate))
    as (_ & _ & (st' & inv & Hrun & Hinv & Hv & He & Hs) & _ & _).
  exists st', inv. repeat split; assumption.
Defined.

(** ** Expired invoices (C4) *)

Import History.

Lemma pretty_Z_truthy (z : Z) : str_truthy (pretty z) = true.
Proof.
  destruct (Z.eq_dec z 0) as [->|Hz]; [reflexivity|].
  destruct (pretty_Z_shape z Hz) as (ds & -> & Hsp & _ & Hne).
  destruct (z <? 0); [reflexivity|].
  destruct (pretty_N_go (Z.to_N (Z.abs z)) "") eqn:E; [|reflexivity].
  inversion Hsp; subst. contradiction.
Qed.

Lemma invoice_status_open (invoice : Invoice) :
  String.eqb (invoice_status invoice) "OPEN" = String.eqb (inv_state invoice) "OPEN".
Proof.
  unfold invoice_status, str_truthy.
  destruct (String.eqb_spec (inv_state invoice) "") as [->|]; reflexivity.
Qed.

(** The expiry flag, for an invoice whose dates read as integers with a sum
    of magnitude at most 2^53. *)
Lemma isExpired_int (invoice : Invoice) (now c e : Z) :
  creationDate invoice = int c ->
  expirySeconds invoice = int e ->
  Z.abs (c + e) <= 2 ^ 53 ->
  tx_isExpired (invoiceToTransaction (int now) invoice) =
    Some (String.eqb (inv_state invoice) "OPEN" && (c + e <? now)).
Proof.
  intros Hc He Hr. cbn [invoiceToTransaction tx_isExpired].
  unfold expiryTimestamp. rewrite Hc, He, num_add_int, (double_int _ Hr), num_gt_int,
    invoice_status_open.
  reflexivity.
Qed.

Lemma isExpired_not_open (invoice : Invoice) (currentTime : number) :
  inv_state invoice <> "OPEN" ->
  tx_isExpired (invoiceToTransaction currentTime invoice) = Some false.
Proof.
  intros H. cbn [invoiceToTransaction tx_isExpired]. rewrite invoice_status_open.
  destruct (String.eqb_spec (inv_state invoice) "OPEN"); [contradiction|reflexivity].
Qed.

(** ** Filters (C5) *)

Ltac run_history :=
  cbv beta iota delta
    [mbind mret M_bind M_ret bind ret throw gets modify lift try_catch try_finally
     History.setLoading History.setError History.setTransactions
     History.setFilteredTransactions History.setCurrentPage History.setTotalPages
     History.setLastUpdated History.setFilters].

Lemma Forall_filter_keeps {A : Type} (P : A -> Prop) (f : A -> bool) (l : list A) :
  Forall P l -> Forall P (List.filter f l).
Proof.
  induction 1 as [|x l Hx _ IH]; simpl; [constructor|].
  destruct (f x); [constructor; assumption|assumption].
Qed.




Lemma includes_In (arr : list string) (x : string) :
  includes arr x = true <-> In x arr.
Proof.
  unfold includes. rewrite existsb_exists. split.
  - intros (y & Hy & E). apply String.eqb_eq in E. subst. exact Hy.
  - intros H. exists x. split; [exact H|apply String.eqb_refl].
Qed.

(** The list stored by [applyFilters]. *)
Lemma applyFilters_filtered (pageSize : number) (calendar : LocalTime) (now_ms : Z)
    (txList : list Transaction) (st : State) :
  exists st',
    applyFilters pageSize calendar now_ms txList st = (Normal tt, st') /\
    filteredTransactions st' = filtered calendar (filters st) now_ms txList /\
    currentPage st' = int 1 /\
    totalPages st' =
      (let pages := Math_ceil (num_div (int (Z.of_nat (length (filteredTransactions st'))))
                                 pageSize) in
       if num_gt pages (int 0) then pages else int 1) /\
    filters st' = filters st /\
    transactions st' = transactions st /\
    loading st' = loading st /\
    error st' = error st.
Proof.
  unfold applyFilters. run_history. eexists. split; [reflexivity|].
  cbn. repeat split; reflexivity.
Qed.



(** ** Pagination (C10) *)

Lemma total_pages_int (len ps : Z) :
  0 < ps ->
  (let pages := Math_ceil (num_div (int len) (int ps)) in
   if num_gt pages (int 0) then pages else int 1) = int (Z.max 1 (ceil_div len ps)).
Proof.
  intros Hps. cbv zeta. rewrite (Math_ceil_div_int len ps Hps), num_gt_int.
  destruct (Z.ltb_spec 0 (ceil_div len ps)); f_equal; lia.
Qed.

Lemma relative_index_int (len z : Z) :
  relative_index len (int z) = if z <? 0 then Z.max (len + z) 0 else Z.min z len.
Proof. unfold relative_index, int. rewrite Qtrunc_int. reflexivity. Qed.

Lemma firstn_min_length {A : Type} (n : nat) (l : list A) :
  firstn (Nat.min n (length l)) l = firstn n l.
Proof.
  destruct (Nat.le_ge_cases n (length l)) as [H|H].
  - rewrite Nat.min_l by exact H. reflexivity.
  - rewrite Nat.min_r by exact H. rewrite !firstn_all2; [reflexivity|exact H|lia].
Qed.

(** The page shown, for an integer page number and page size. *)
Lemma getPaginatedTransactions_int (ps cp : Z) (st : State) :
  0 < ps ->
  currentPage st = int cp ->
  (length (getPaginatedTransactions (int ps) st) <= Z.to_nat ps)%nat /\
  (1 <= cp ->
   getPaginatedTransactions (int ps) st =
     firstn (Z.to_nat ps) (skipn (Z.to_nat ((cp - 1) * ps)) (filteredTransactions st))).
Proof.
  intros Hps Hcp. unfold getPaginatedTransactions, slice.
  rewrite Hcp, num_sub_int, num_mul_int, num_add_int, !relative_index_int.
  set (l := filteredTransactions st). set (s := (cp - 1) * ps).
  split.
  - rewrite length_firstn.
    destruct (Z.ltb_spec s 0), (Z.ltb_spec (s + ps) 0); lia.
  - intros H1. assert (Hs : 0 <= s) by (unfold s; nia).
    destruct (Z.ltb_spec s 0); [lia|]. destruct (Z.ltb_spec (s + ps) 0); [lia|].
    destruct (Z.le_gt_cases (Z.of_nat (length l)) s) as [Hbig|Hsmall].
    + rewrite Z.min_r by lia. rewrite !skipn_all2 by lia. rewrite !firstn_nil. reflexivity.
    + rewrite (Z.min_l s) by lia.
      rewrite <- (firstn_min_length (Z.to_nat ps)). f_equal.
      rewrite length_skipn. lia.
Qed.

(** [handlePageChange] on an integer page. *)
Lemma handlePageChange_int (page tp : Z) (st : State) :
  totalPages st = int tp ->
  handlePageChange (int page) st =
    (Normal tt,
     if (page <? 1) || (tp <? page) then st
     else {| transactions := transactions st;
             filteredTransactions := filteredTransactions st;
             loading := loading st; error := error st;
             currentPage := int page; totalPages := totalPages st;
             lastUpdated := lastUpdated st; filters := filters st |}).
Proof.
  intros Htp. unfold handlePageChange. run_history.
  rewrite Htp, num_lt_int, num_gt_int.
  destruct ((page <? 1) || (tp <? page)); rewrite <- ?Htp; reflexivity.
Qed.

Lemma applyFilters_ok (ps : Z) (calendar : LocalTime) (now_ms : Z)
    (txList : list Transaction) (st : State) :
  0 < ps ->
  exists st',
    applyFilters (int ps) calendar now_ms txList st = (Normal tt, st') /\
    filteredTransactions st' = filtered calendar (filters st) now_ms txList /\
    currentPage st' = int 1 /\
    totalPages st' =
      int (Z.max 1 (ceil_div (Z.of_nat (length (filteredTransactions st'))) ps)) /\
    pagination_ok ps st'.
Proof.
  intros Hps.
  destruct (applyFilters_filtered (int ps) calendar now_ms txList st)
    as (st' & Hrun & Hf & Hcp & Htp & _).
  rewrite total_pages_int in Htp by exact Hps.
  exists st'. repeat split; try assumption.
  exists 1. repeat split; try assumption; lia.
Qed.

Lemma handlePageChange_ok (ps page : Z) (st : State) :
  pagination_ok ps st ->
  exists st', handlePageChange (int page) st = (Normal tt, st') /\ pagination_ok ps st'.
Proof.
  intros (cp & Hcp & Htp & Hr). rewrite (handlePageChange_int page _ st Htp).
  eexists. split; [reflexivity|].
  set (tp := Z.max 1 (ceil_div (Z.of_nat (length (filteredTransactions st))) ps)) in *.
  destruct (Z.ltb_spec page 1), (Z.ltb_spec tp page); cbn [orb];
    try (exists cp; repeat split; assumption || lia).
  exists page. cbn. repeat split; try assumption; lia.
Qed.

Lemma setFilters_ok (ps : Z) (f : TransactionFilters) (st : State) :
  pagination_ok ps st ->
  exists st', setFilters f st = (Normal tt, st') /\ pagination_ok ps st'.
Proof. intros H. eexists. split; [reflexivity|]. exact H. Qed.

Lemma pagination_ok_ext (ps : Z) (st st' : State) :
  filteredTransactions st' = filteredTransactions st ->
  currentPage st' = currentPage st ->
  totalPages st' = totalPages st ->
  pagination_ok ps st -> pagination_ok ps st'.
Proof.
  intros Hf Hc Ht (cp & Hcp & Htp & Hr). exists cp. rewrite Hf, Hc, Ht. auto.
Qed.

Lemma loadTransactions_ok (ps : Z) (calendar : LocalTime) (client : option LndClient)
    (now_ms : Z) (st : State) :
  0 < ps ->
  pagination_ok ps st ->
  exists st',
    loadTransactions (int ps) calendar client now_ms st = (Normal tt, st') /\
    pagination_ok ps st'.
Proof.
  intros Hps Hok. unfold loadTransactions.
  destruct client as [client|]; [|exists st; split; [reflexivity|exact Hok]].
  run_history.
  destruct (listPayments client) as [pr|];
    [|eexists; split; [reflexivity|]; eapply pagination_ok_ext; [..|exact Hok]; reflexivity].
  destruct (listInvoices client false) as [sr|];
    [|eexists; split; [reflexivity|]; eapply pagination_ok_ext; [..|exact Hok]; reflexivity].
  destruct (listInvoices client true) as [pe|];
    [|eexists; split; [reflexivity|]; eapply pagination_ok_ext; [..|exact Hok]; reflexivity].
  match goal with
  | |- context [applyFilters (int ps) calendar now_ms ?l ?s] =>
      destruct (applyFilters_ok ps calendar now_ms l s Hps) as (st1 & Hrun & _ & _ & _ & Hok1)
  end.
  rewrite Hrun. eexists. split; [reflexivity|].
  eapply pagination_ok_ext; [..|exact Hok1]; reflexivity.
Qed.

Lemma initial_ok (ps : Z) : 0 < ps -> pagination_ok ps initial.
Proof.
  intros Hps. exists 1. cbn. repeat split; try lia.
Qed.

(** Whatever happens to the component, the pagination state stays
    consistent. *)
Lemma perform_all_ok (ps : Z) (calendar : LocalTime) (l : list action) :
  0 < ps ->
  forall st, pagination_ok ps st ->
    exists st', perform_all (int ps) calendar l st = (Normal tt, st') /\ pagination_ok ps st'.
Proof.
  intros Hps. induction l as [|a l IH]; intros st Hok.
  - exists st. split; [reflexivity|exact Hok].
  - assert (Hstep : exists st1, perform (int ps) calendar a st = (Normal tt, st1) /\
                                pagination_ok ps st1).
    { destruct a as [client now_ms|now_ms txList|page|f]; cbn [perform].
      - apply loadTransactions_ok; assumption.
      - destruct (applyFilters_ok ps calendar now_ms txList st Hps)
          as (st1 & Hrun & _ & _ & _ & Hok1). eauto.
      - apply handlePageChange_ok; assumption.
      - apply setFilters_ok; assumption. }
    destruct Hstep as (st1 & Hrun & Hok1).
    destruct (IH st1 Hok1) as (st' & Hrun' & Hok').
    exists st'. split; [|exact Hok'].
    unfold perform_all. cbn [forEach]. unfold bind. rewrite Hrun. exact Hrun'.
Qed.

(** [handlePageChange] ignores a page outside [1 .. totalPages]. *)
Lemma handlePageChange_out_of_range (page : number) (st : State) :
  num_lt page (int 1) = true \/ num_gt page (totalPages st) = true ->
  handlePageChange page st = (Normal tt, st).
Proof.
  intros H. unfold handlePageChange. run_history.
  destruct H as [-> | ->]; rewrite ?orb_true_r; reflexivity.
Qed.

(** C10.  Every run of [applyFilters] sets [currentPage] to 1, and
    [handlePageChange] leaves the state unchanged for a page below 1 or
    above [totalPages].  For a page size [ps > 0]: every run of
    [applyFilters] sets [totalPages] to
    [max 1 (ceil (filteredTransactions.length / ps))]; after any sequence of
    loads, runs of [applyFilters], page changes and filter changes,
    [totalPages] has that value and the current page is an integer between
    1 and [totalPages]; [getPaginatedTransactions] returns at most [ps]
    entries, namely the [ps] entries of [filteredTransactions] from index
    [(currentPage - 1) * ps] on. *)
Theorem c10_pagination (calendar : LocalTime) :
  (forall (pageSize : number) (now_ms : Z) (txList : list Transaction) (st : State),
      exists st',
        applyFilters pageSize calendar now_ms txList st = (Normal tt, st') /\
        currentPage st' = int 1) /\
  (forall (page : number) (st : State),
      num_lt page (int 1) = true \/ num_gt page (totalPages st) = true ->
      handlePageChange page st = (Normal tt, st)) /\
  (forall (ps : Z),
      0 < ps ->
      (forall (len k : Z), ceil_div len ps <= k <-> len <= k * ps) /\
      (forall (now_ms : Z) (txList : list Transaction) (st : State),
          exists st',
            applyFilters (int ps) calendar now_ms txList st = (Normal tt, st') /\
            totalPages st' =
              int (Z.max 1 (ceil_div (Z.of_nat (length (filteredTransactions st'))) ps))) /\
      (forall (l : list action),
          exists st,
            perform_all (int ps) calendar l initial = (Normal tt, st) /\
            pagination_ok ps st) /\
      (forall (st : State) (cp : Z),
          currentPage st = int cp ->
          (length (getPaginatedTransactions (int ps) st) <= Z.to_nat ps)%nat /\
          (1 <= cp ->
           getPaginatedTransactions (int ps) st =
             firstn (Z.to_nat ps)
               (skipn (Z.to_nat ((cp - 1) * ps)) (filteredTransactions st)))) /\
      (forall (st : State) (page tp : Z),
          totalPages st = int tp ->
          page < 1 \/ page > tp ->
          handlePageChange (int page) st = (Normal tt, st))).
Proof.
  split; [|split].
  - intros pageSize now_ms txList st.
    destruct (applyFilters_filtered pageSize calendar now_ms txList st)
      as (st' & Hrun & _ & Hcp & _).
    exists st'. split; assumption.
  - apply handlePageChange_out_of_range.
  - intros ps Hps. split; [|split; [|split; [|split]]].
    + intros len k. apply ceil_div_le. exact Hps.
    + intros now_ms txList st.
      destruct (applyFilters_ok ps calendar now_ms txList st Hps)
        as (st' & Hrun & _ & _ & Htp & _).
      exists st'. split; assumption.
    + intros l. apply perform_all_ok; [exact Hps|apply initial_ok; exact Hps].
    + intros st cp Hcp. apply getPaginatedTransactions_int; assumption.
    + intros st page tp Htp Hout. apply handlePageChange_out_of_range.
      rewrite Htp, num_lt_int, num_gt_int.
      destruct Hout; [left; apply Z.ltb_lt|right; apply Z.ltb_lt]; lia.
Qed.

Lemma c10_pagination_witness :
  0 < 5 /\
  (exists st,
      perform_all (int 5) Samples.fixed_calendar
        [Apply 1700000060000 Samples.two_transactions; Page 7; Page 1] initial
        = (Normal tt, st) /\
      pagination_ok 5 st) /\
  num_gt (int 9) (totalPages Samples.history_only_sent) = true /\
  handlePageChange (int 9) Samples.history_only_sent = (Normal tt, Samples.history_only_sent).
Proof.
  assert (H5 : 0 < 5) by lia.
  assert (H9 : num_gt (int 9) (totalPages Samples.history_only_sent) = true)
    by apply (num_gt_int 9 4).
  destruct (c10_pagination Samples.fixed_calendar) as (_ & Hpage & Hps).
  destruct (Hps 5 H5) as (_ & _ & Hinv & _ & _).
  split; [exact H5|]. split; [apply Hinv|]. split; [exact H9|].
  apply Hpage. right. exact H9.
Defined.

(** ** The sorted list (C7) *)

Lemma insert_sorted_perm {A : Type} (cmp : A -> A -> number) (x : A) (l : list A) :
  Permutation (insert_sorted cmp x l) (x :: l).
Proof.
  induction l as [|y r IH]; cbn [insert_sorted]; [reflexivity|].
  destruct (comes_after cmp x y); [|reflexivity].
  rewrite IH. apply perm_swap.
Qed.

(** Sorting permutes, whatever the comparator answers. *)
Lemma sort_perm {A : Type} (cmp : A -> A -> number) (l : list A) :
  Permutation (sort cmp l) l.
Proof.
  induction l as [|x r IH]; cbn [sort fold_right]; [reflexivity|].
  rewrite insert_sorted_perm. apply perm_skip. exact IH.
Qed.

Lemma comes_after_dates (a b : Transaction) (ta tb : Z) :
  getTime (tx_date a) = int ta ->
  getTime (tx_date b) = int tb ->
  comes_after by_date_desc a b = (ta <? tb).
Proof.
  intros Ha Hb. unfold comes_after, by_date_desc.
  rewrite Ha, Hb, num_sub_int, num_gt_int.
  destruct (Z.ltb_spec 0 (tb - ta)), (Z.ltb_spec ta tb); try reflexivity; lia.
Qed.

Lemma date_ge_dates (a b : Transaction) (ta tb : Z) :
  getTime (tx_date a) = int ta ->
  getTime (tx_date b) = int tb ->
  (date_ge a b <-> tb <= ta).
Proof.
  intros Ha Hb. unfold date_ge. rewrite Ha, Hb, num_ge_int. apply Z.leb_le.
Qed.

Lemma insert_sorted_HdRel (y x : Transaction) (l : list Transaction) :
  date_ge y x -> HdRel date_ge y l -> HdRel date_ge y (insert_sorted by_date_desc x l).
Proof.
  intros Hyx Hl. destruct l as [|z r]; cbn [insert_sorted]; [constructor; exact Hyx|].
  destruct (comes_after by_date_desc x z); constructor.
  - inversion Hl; assumption.
  - exact Hyx.
Qed.

Lemma insert_sorted_Sorted (x : Transaction) (l : list Transaction) :
  valid_date x -> Forall valid_date l ->
  Sorted date_ge l -> Sorted date_ge (insert_sorted by_date_desc x l).
Proof.
  intros [tx Hx] Hv Hs. induction l as [|y r IH]; cbn [insert_sorted].
  - constructor; constructor.
  - inversion Hv as [|? ? [ty Hy] Hvr]; subst. inversion Hs as [|? ? Hsr Hhd]; subst.
    rewrite (comes_after_dates x y tx ty Hx Hy).
    destruct (Z.ltb_spec tx ty).
    + constructor; [apply IH; assumption|].
      apply insert_sorted_HdRel; [|exact Hhd].
      apply (date_ge_dates y x ty tx Hy Hx). lia.
    + constructor; [exact Hs|]. constructor.
      apply (date_ge_dates x y tx ty Hx Hy). lia.
Qed.

(** With valid dates the sorted list is in descending order of date. *)
Lemma sort_Sorted (l : list Transaction) :
  Forall valid_date l -> Sorted date_ge (sort by_date_desc l).
Proof.
  induction 1 as [|x r Hx Hr IH]; cbn [sort fold_right]; [constructor|].
  apply insert_sorted_Sorted; [exact Hx| |exact IH].
  eapply Permutation_Forall; [|exact Hr].
  symmetry. apply sort_perm.
Qed.

Lemma receivedPayments_map (combined : list Invoice) (now : number) :
  receivedPayments combined now = processInvoices combined now.
Proof. destruct combined; reflexivity. Qed.

(** The list stored by a successful [loadTransactions]. *)
Lemma loadTransactions_transactions (pageSize : number) (calendar : LocalTime)
    (client : LndClient) (now_ms : Z) (st : State)
    (pr : PaymentsResponse) (sr pe : InvoicesResponse) :
  listPayments client = Some pr ->
  listInvoices client false = Some sr ->
  listInvoices client true = Some pe ->
  exists st',
    loadTransactions pageSize calendar (Some client) now_ms st = (Normal tt, st') /\
    transactions st' =
      reconciled client pr sr pe (Math_floor (num_div (int now_ms) (int 1000))) /\
    loading st' = false /\ error st' = None.
Proof.
  intros H1 H2 H3. unfold loadTransactions. run_history. rewrite H1, H2, H3.
  match goal with
  | |- context [applyFilters pageSize calendar now_ms ?l ?s] =>
      destruct (applyFilters_filtered pageSize calendar now_ms l s)
        as (st1 & Hrun & _ & _ & _ & _ & Ht & _ & He)
  end.
  rewrite Hrun. eexists. split; [reflexivity|]. cbn. rewrite Ht, He. repeat split.
Qed.

Lemma max_time_safe (c : Z) :
  Z.abs (c * 1000) <= max_time -> Z.abs c <= 2 ^ 53 /\ Z.abs (c * 1000) <= 2 ^ 53.
Proof. unfold max_time. lia. Qed.

(** A decimal timestamp within the range of [Date] gives a valid date. *)
Lemma payment_valid_date (client : LndClient) (payment : Payment) (c : Z) :
  pay_creation_date payment = pretty c ->
  Z.abs (c * 1000) <= max_time ->
  getTime (tx_date (paymentToTransaction client payment)) = int (c * 1000).
Proof.
  intros Hc Hr. destruct (max_time_safe c Hr) as [Hc53 Hm53].
  cbn [paymentToTransaction tx_date new_Date getTime].
  rewrite Hc, (parseInt_pretty c Hc53), num_mul_int, (double_int _ Hm53), TimeClip_int.
  destruct (Z.leb_spec (Z.abs (c * 1000)) max_time); [reflexivity|lia].
Qed.

Lemma invoice_valid_date (currentTime : number) (invoice : Invoice) (c : Z) :
  creationDate invoice = int c ->
  inv_state invoice <> "SETTLED" \/ inv_settle_date invoice = "" ->
  Z.abs (c * 1000) <= max_time ->
  getTime (tx_date (invoiceToTransaction currentTime invoice)) = int (c * 1000).
Proof.
  intros Hc Hs Hr. cbn [invoiceToTransaction tx_date].
  assert (E : String.eqb (inv_state invoice) "SETTLED"
              && str_truthy (inv_settle_date invoice) = false).
  { destruct Hs as [Hs|Hs].
    - destruct (String.eqb_spec (inv_state invoice) "SETTLED"); [contradiction|reflexivity].
    - rewrite Hs. apply andb_false_r. }
  destruct (max_time_safe c Hr) as [_ Hm53].
  rewrite E. cbn [new_Date getTime]. rewrite Hc, num_mul_int, (double_int _ Hm53), TimeClip_int.
  destruct (Z.leb_spec (Z.abs (c * 1000)) max_time); [reflexivity|lia].
Qed.

Lemma settled_invoice_valid_date (currentTime : number) (invoice : Invoice) (s : Z) :
  inv_state invoice = "SETTLED" ->
  inv_settle_date invoice = pretty s ->
  Z.abs (s * 1000) <= max_time ->
  getTime (tx_date (invoiceToTransaction currentTime invoice)) = int (s * 1000).
Proof.
  intros Hst Hs Hr. destruct (max_time_safe s Hr) as [Hs53 Hm53].
  cbn [invoiceToTransaction tx_date].
  rewrite Hst, Hs, pretty_Z_truthy.
  change (String.eqb "SETTLED" "SETTLED") with true. cbn [andb new_Date getTime].
  rewrite (parseInt_pretty s Hs53), num_mul_int, (double_int _ Hm53), TimeClip_int.
  destruct (Z.leb_spec (Z.abs (s * 1000)) max_time); [reflexivity|lia].
Qed.

(** C7, as stated, fails: a payment whose creation date does not read as a
    number gets an invalid date, which compares false with every date; no
    ordering of it and a dated payment is in descending order, the computed
    one included. *)
Lemma c7_counterexample :
  let undated := paymentToTransaction Samples.offline_client Samples.payment_undated in
  let dated := paymentToTransaction Samples.offline_client Samples.payment_1500 in
  reconciled Samples.offline_client
    (Samples.payments_of [Samples.payment_undated; Samples.payment_1500])
    (Samples.invoices_of []) (Samples.invoices_of []) (int 1700000300)
    = [undated; dated] /\
  getTime (tx_date undated) = NaN /\
  forall l, Permutation [undated; dated] l -> ~ Sorted date_ge l.
Proof.
  intros undated dated. split; [reflexivity|]. split; [reflexivity|].
  intros l Hp Hs. apply Permutation_length_2_inv in Hp as [->| ->];
    inversion Hs as [|? ? _ Hhd]; subst; inversion Hhd as [|? ? Hge]; subst;
    unfold date_ge in Hge; vm_compute in Hge; discriminate.
Qed.

(** C7 (amended).  The list computed by [loadTransactions] is a permutation
    of the mapped sent payments followed by the mapped received invoices
    (settled, then pending).  When every entry has a valid date it is in
    descending order of date: each entry's date is greater than or equal to
    the date of the entry after it.  Decimal timestamps within the range of
    [Date] give valid dates. *)
Theorem c7_sorted_by_date
    (client : LndClient) (pr : PaymentsResponse) (sr pe : InvoicesResponse)
    (now : number) :
  Permutation (reconciled client pr sr pe now)
    (sentPayments client pr ++ processInvoices (combinedInvoices sr pe) now) /\
  (Forall valid_date
     (sentPayments client pr ++ processInvoices (combinedInvoices sr pe) now) ->
   Sorted date_ge (reconciled client pr sr pe now)) /\
  (forall (pageSize : number) (calendar : LocalTime) (now_ms : Z) (st : State),
      listPayments client = Some pr ->
      listInvoices client false = Some sr ->
      listInvoices client true = Some pe ->
      transactions (snd (loadTransactions pageSize calendar (Some client) now_ms st)) =
        reconciled client pr sr pe (Math_floor (num_div (int now_ms) (int 1000)))) /\
  (forall (payment : Payment) (c : Z),
      pay_creation_date payment = pretty c ->
      Z.abs (c * 1000) <= max_time ->
      valid_date (paymentToTransaction client payment)) /\
  (forall (invoice : Invoice) (c : Z),
      creationDate invoice = int c ->
      inv_state invoice <> "SETTLED" \/ inv_settle_date invoice = "" ->
      Z.abs (c * 1000) <= max_time ->
      valid_date (invoiceToTransaction now invoice)) /\
  (forall (invoice : Invoice) (s : Z),
      inv_state invoice = "SETTLED" ->
      inv_settle_date invoice = pretty s ->
      Z.abs (s * 1000) <= max_time ->
      valid_date (invoiceToTransaction now invoice)).
Proof.
  unfold reconciled, allTransactions. rewrite receivedPayments_map.
  split; [apply sort_perm|]. split; [apply sort_Sorted|].
  split; [|split; [|split]].
  - intros pageSize calendar now_ms st H1 H2 H3.
    destruct (loadTransactions_transactions pageSize calendar client now_ms st pr sr pe
                H1 H2 H3) as (st' & Hrun & Ht & _).
    rewrite Hrun. cbn [snd]. rewrite Ht. unfold reconciled, allTransactions.
    rewrite receivedPayments_map. reflexivity.
  - intros payment c Hc Hr. exists (c * 1000). apply payment_valid_date; assumption.
  - intros invoice c Hc Hs Hr. exists (c * 1000). apply invoice_valid_date; assumption.
  - intros invoice s Hst Hs Hr. exists (s * 1000).
    apply settled_invoice_valid_date; assumption.
Qed.

Lemma c7_sorted_by_date_witness :
  let sent := sentPayments Samples.offline_client
                (Samples.payments_of [Samples.payment_1500; Samples.payment_later]) in
  let received := processInvoices
                    (combinedInvoices (Samples.invoices_of [Samples.invoice_settled])
                       (Samples.invoices_of [Samples.invoice_open])) (int 1700000300) in
  Forall valid_date (sent ++ received) /\
  Sorted date_ge
    (reconciled Samples.offline_client
       (Samples.payments_of [Samples.payment_1500; Samples.payment_later])
       (Samples.invoices_of [Samples.invoice_settled])
       (Samples.invoices_of [Samples.invoice_open]) (int 1700000300)).
Proof.
  intros sent received.
  destruct (c7_sorted_by_date Samples.offline_client
              (Samples.payments_of [Samples.payment_1500; Samples.payment_later])
              (Samples.invoices_of [Samples.invoice_settled])
              (Samples.invoices_of [Samples.invoice_open]) (int 1700000300))
    as (_ & Hsorted & _ & Hpay & Hinv & Hset).
  assert (Hv : Forall valid_date (sent ++ received)).
  { repeat constructor.
    - apply (Hpay _ 1700000000); [reflexivity|unfold max_time; lia].
    - apply (Hpay _ 1700000200); [reflexivity|unfold max_time; lia].
    - apply (Hset _ 1700000100); [reflexivity|reflexivity|unfold max_time; lia].
    - apply (Hinv _ 1700000000); [|left; discriminate|unfold max_time; lia].
      apply (parseInt_pretty 1700000000). vm_compute. discriminate. }
  split; [exact Hv|]. apply Hsorted. exact Hv.
Defined.

(** ** The entries of the loaded list (C1, C4) *)

(** The entries of the list stored by a successful [loadTransactions]: the
    view models of the listed payments and of the listed invoices, the
    latter built at the time [floor (now_ms / 1000)]. *)
Lemma loaded_entries (pageSize : number) (calendar : LocalTime)
    (client : LndClient) (now_ms : Z) (st : State)
    (pr : PaymentsResponse) (sr pe : InvoicesResponse) (tx : Transaction) :
  listPayments client = Some pr ->
  listInvoices client false = Some sr ->
  listInvoices client true = Some pe ->
  In tx (transactions (snd (loadTransactions pageSize calendar (Some client) now_ms st))) <->
  (exists payment, In payment (default [] (payments pr)) /\
                   tx = paymentToTransaction client payment) \/
  (exists invoice, In invoice (combinedInvoices sr pe) /\
                   tx = invoiceToTransaction (int (now_ms / 1000)) invoice).
Proof.
  intros H1 H2 H3.
  destruct (loadTransactions_transactions pageSize calendar client now_ms st pr sr pe
              H1 H2 H3) as (st' & Hrun & Ht & _).
  rewrite Hrun. cbn [snd]. rewrite Ht. unfold reconciled, allTransactions.
  rewrite receivedPayments_map, Math_floor_div_int by lia.
  assert (Hsent : sentPayments client pr
                  = map (paymentToTransaction client) (default [] (payments pr))).
  { unfold sentPayments. destruct (payments pr); reflexivity. }
  rewrite Hsent. unfold processInvoices. split.
  - intros Hin. apply (Permutation_in _ (sort_perm _ _)) in Hin.
    apply in_app_or in Hin as [Hin|Hin]; apply in_map_iff in Hin as (x & <- & Hx);
      [left|right]; exists x; split; [exact Hx|reflexivity|exact Hx|reflexivity].
  - intros Hin. apply (Permutation_in _ (Permutation_sym (sort_perm _ _))).
    apply in_or_app.
    destruct Hin as [(x & Hx & ->)|(x & Hx & ->)]; [left|right]; apply in_map; exact Hx.
Qed.

(** The amount of an entry that has a millisatoshi field. *)
Lemma entry_amount (client : LndClient) (currentTime : number) (tx : Transaction)
    (s : string) :
  (exists payment, tx = paymentToTransaction client payment) \/
  (exists invoice, tx = invoiceToTransaction currentTime invoice) ->
  msat_source tx = Some s ->
  tx_amount tx = mSatsToSats (OfStr s).
Proof. apply listed_amount. Qed.

(** Beyond 2^53 the millisatoshi string is rounded when it is read: a
    payment of 9007199254741001 millisatoshis is listed with the integer
    amount 9007199254741, although the remainder is not zero. *)
Lemma mSatsToSats_beyond_safe :
  tx_amount (paymentToTransaction Samples.offline_client Samples.payment_huge)
    = int (9007199254741001 / 1000) /\
  9007199254741001 mod 1000 <> 0.
Proof. split; [number_eq|vm_compute; discriminate]. Qed.

(** C1, as stated, fails: a payment of 1500 millisatoshis is listed with the
    amount 3/2, not with floor(1500 / 1000) = 1.  The node lists the
    payment, and its view model is in the loaded list. *)
Lemma c1_counterexample :
  let tx := paymentToTransaction Samples.listing_client Samples.payment_1500 in
  listPayments Samples.listing_client
    = Some (Samples.payments_of [Samples.payment_1500; Samples.payment_later]) /\
  In tx (transactions Samples.table_loaded) /\
  StringToNumber (pay_value_msat Samples.payment_1500) = int 1500 /\
  tx_amount tx = Fin (Q2Qc (3 # 2)) /\
  tx_amount tx <> int (1500 / 1000).
Proof.
  intros tx. split; [reflexivity|]. split; [|split; [|split]].
  - apply (loaded_entries (int 1) Samples.fixed_calendar Samples.listing_client
             1700000060000 initial
             (Samples.payments_of [Samples.payment_1500; Samples.payment_later])
             (Samples.invoices_of [Samples.invoice_settled])
             (Samples.invoices_of [Samples.invoice_open]) tx eq_refl eq_refl eq_refl).
    left. exists Samples.payment_1500. split; [left; reflexivity|reflexivity].
  - number_eq.
  - number_eq.
  - intros H. apply Fin_inj in H. apply (f_equal this) in H.
    vm_compute in H. discriminate.
Qed.

(** C1 (amended).  No truncation takes place.  After a successful
    [loadTransactions] the list holds the view model of every listed payment
    and of every listed invoice, and nothing else.  For every entry whose
    millisatoshi field is the decimal notation of an integer [m], the amount
    is the double nearest to the quotient by 1000 of the double nearest to
    [m]; when [m] is at most 2^53 in magnitude the amount is an integer [k]
    exactly when [m = 1000 * k], so that it equals [floor (m / 1000)]
    exactly when [m] is a multiple of 1000.  The same holds of [mSatsToSats]
    on every string or number that reads as such an [m]. *)
Theorem c1_amount_is_not_truncated
    (pageSize : number) (calendar : LocalTime) (client : LndClient) (now_ms : Z)
    (st : State) (pr : PaymentsResponse) (sr pe : InvoicesResponse) :
  listPayments client = Some pr ->
  listInvoices client false = Some sr ->
  listInvoices client true = Some pe ->
  let loaded :=
    transactions (snd (loadTransactions pageSize calendar (Some client) now_ms st)) in
  (forall payment : Payment,
      In payment (default [] (payments pr)) ->
      In (paymentToTransaction client payment) loaded) /\
  (forall invoice : Invoice,
      In invoice (combinedInvoices sr pe) ->
      In (invoiceToTransaction (int (now_ms / 1000)) invoice) loaded) /\
  (forall tx : Transaction,
      In tx loaded ->
      ((exists payment, In payment (default [] (payments pr)) /\
                        tx = paymentToTransaction client payment) \/
       (exists invoice, In invoice (combinedInvoices sr pe) /\
                        tx = invoiceToTransaction (int (now_ms / 1000)) invoice)) /\
      forall m : Z,
        msat_source tx = Some (pretty m) ->
        tx_amount tx = double (num_div (double (int m)) (int 1000)) /\
        (Z.abs m <= 2 ^ 53 ->
         tx_amount tx = double (num_div (int m) (int 1000)) /\
         (forall k : Z, tx_amount tx = int k <-> m = k * 1000) /\
         (tx_amount tx = int (m / 1000) <-> m mod 1000 = 0))) /\
  (forall (v : str_or_num) (m : Z),
      Number_ v = int m ->
      Z.abs m <= 2 ^ 53 ->
      (forall k : Z, mSatsToSats v = int k <-> m = k * 1000) /\
      (mSatsToSats v = int (m / 1000) <-> m mod 1000 = 0)).
Proof.
  intros H1 H2 H3 loaded.
  pose proof (fun tx => loaded_entries pageSize calendar client now_ms st pr sr pe tx
                          H1 H2 H3) as Hentries.
  fold loaded in Hentries.
  split; [|split; [|split]].
  - intros payment Hin. apply Hentries. left. exists payment. split; [exact Hin|reflexivity].
  - intros invoice Hin. apply Hentries. right. exists invoice. split; [exact Hin|reflexivity].
  - intros tx Hin. apply Hentries in Hin. split; [exact Hin|].
    intros m Hm.
    assert (Ha : tx_amount tx = mSatsToSats (OfStr (pretty m))).
    { apply (entry_amount client (int (now_ms / 1000))); [|exact Hm].
      destruct Hin as [(x & _ & ->)|(x & _ & ->)]; [left|right]; exists x; reflexivity. }
    rewrite Ha. split.
    + unfold mSatsToSats. cbn [Number_]. unfold StringToNumber.
      rewrite StringNumericLiteral_pretty. reflexivity.
    + intros Hb.
      assert (Hn : Number_ (OfStr (pretty m)) = int m)
        by (cbn [Number_]; apply StringToNumber_pretty; exact Hb).
      split; [|split].
      * unfold mSatsToSats. rewrite Hn. reflexivity.
      * intros k. apply mSatsToSats_int_iff; assumption.
      * apply mSatsToSats_floor_iff; assumption.
  - intros v m Hn Hb. split.
    + intros k. apply mSatsToSats_int_iff; assumption.
    + apply mSatsToSats_floor_iff; assumption.
Qed.

Lemma c1_amount_is_not_truncated_witness :
  let loaded := transactions Samples.table_loaded in
  let tx := paymentToTransaction Samples.listing_client Samples.payment_later in
  In tx loaded /\
  msat_source tx = Some (pretty 7000) /\
  tx_amount tx = int 7 /\
  (forall k : Z,
      tx_amount (paymentToTransaction Samples.listing_client Samples.payment_1500)
        <> int k).
Proof.
  intros loaded tx.
  destruct (c1_amount_is_not_truncated (int 1) Samples.fixed_calendar Samples.listing_client
              1700000060000 initial
              (Samples.payments_of [Samples.payment_1500; Samples.payment_later])
              (Samples.invoices_of [Samples.invoice_settled])
              (Samples.invoices_of [Samples.invoice_open])
              eq_refl eq_refl eq_refl) as (Hpay & _ & Hamount & _).
  assert (Hin : In tx loaded) by (apply Hpay; right; left; reflexivity).
  assert (Hin' : In (paymentToTransaction Samples.listing_client Samples.payment_1500)
                   loaded) by (apply Hpay; left; reflexivity).
  split; [exact Hin|]. split; [reflexivity|]. split.
  - destruct (Hamount tx Hin) as [_ Hm].
    destruct (Hm 7000 eq_refl) as [_ Hb].
    destruct (Hb ltac:(vm_compute; discriminate)) as (_ & Hk & _).
    apply (Hk 7). reflexivity.
  - intros k Hk.
    destruct (Hamount _ Hin') as [_ Hm].
    destruct (Hm 1500 eq_refl) as [_ Hb].
    destruct (Hb ltac:(vm_compute; discriminate)) as (_ & Hint & _).
    apply Hint in Hk. lia.
Defined.

(** C4, as stated, fails beyond 2^53, where the creation date is rounded
    when it is read.  The node lists one open invoice with the creation date
    9007200954740993 and the expiry -9007199254740992, which add up to
    1700000001; loaded at that very time, it is in the list as expired,
    although the current time is not greater than the sum. *)
Lemma c4_counterexample :
  let now_ms := 1700000001000 in
  let loaded :=
    transactions (snd (loadTransactions (int 10) Samples.fixed_calendar
                         (Some Samples.far_client) now_ms initial)) in
  let tx := invoiceToTransaction (int (now_ms / 1000)) Samples.invoice_far in
  In tx loaded /\
  length loaded = 1%nat /\
  inv_state Samples.invoice_far = "OPEN" /\
  inv_creation_date Samples.invoice_far = Some (pretty 9007200954740993) /\
  inv_expiry Samples.invoice_far = Some (pretty (-9007199254740992)) /\
  9007200954740993 + -9007199254740992 >= now_ms / 1000 /\
  creationDate Samples.invoice_far = int 9007200954740992 /\
  tx_isExpired tx = Some true.
Proof.
  intros now_ms loaded tx. split.
  { apply (loaded_entries (int 10) Samples.fixed_calendar Samples.far_client
             now_ms initial (Samples.payments_of []) (Samples.invoices_of [])
             (Samples.invoices_of [Samples.invoice_far]) tx eq_refl eq_refl eq_refl).
    right. exists Samples.invoice_far. split; [left; reflexivity|reflexivity]. }
  split; [vm_compute; reflexivity|]. split; [reflexivity|]. split; [reflexivity|].
  split; [reflexivity|]. split; [vm_compute; discriminate|].
  split; [number_eq|vm_compute; reflexivity].
Qed.

(** C4 (amended).  After a successful [loadTransactions] at the clock
    reading [now_ms], every invoice the node lists (settled or pending) is
    in the list through its view model built at the current time
    [now = floor (now_ms / 1000)], and every received entry of the list is
    such a view model.  For an invoice whose creation date and expiry read
    as the integers [c] and [e], with [c + e] at most 2^53 in magnitude,
    [isExpired] is true exactly when the state is [OPEN] and [now] is
    strictly greater than [c + e]; with [c + e >= now] the invoice is not
    expired.  An invoice in another state is never expired, whatever its
    dates.  An absent expiry counts as 3600 and an absent creation date as
    0; decimal strings of magnitude at most 2^53 read as the integers they
    denote; when the sum is [NaN] the invoice is not expired. *)
Theorem c4_expired_iff_open_and_past_expiry
    (pageSize : number) (calendar : LocalTime) (client : LndClient) (now_ms : Z)
    (st : State) (pr : PaymentsResponse) (sr pe : InvoicesResponse) :
  listPayments client = Some pr ->
  listInvoices client false = Some sr ->
  listInvoices client true = Some pe ->
  let now := now_ms / 1000 in
  let loaded :=
    transactions (snd (loadTransactions pageSize calendar (Some client) now_ms st)) in
  (forall tx : Transaction,
      In tx loaded ->
      tx_type tx = received ->
      exists invoice, In invoice (combinedInvoices sr pe) /\
                      tx = invoiceToTransaction (int now) invoice) /\
  (forall invoice : Invoice,
      In invoice (combinedInvoices sr pe) ->
      let tx := invoiceToTransaction (int now) invoice in
      In tx loaded /\
      (forall c e : Z,
          creationDate invoice = int c ->
          expirySeconds invoice = int e ->
          Z.abs (c + e) <= 2 ^ 53 ->
          (tx_isExpired tx = Some true <-> inv_state invoice = "OPEN" /\ now > c + e) /\
          (c + e >= now -> tx_isExpired tx = Some false)) /\
      (inv_state invoice <> "OPEN" -> tx_isExpired tx = Some false) /\
      (inv_expiry invoice = None -> expirySeconds invoice = int 3600) /\
      (inv_creation_date invoice = None -> creationDate invoice = int 0) /\
      (forall c : Z,
          inv_creation_date invoice = Some (pretty c) ->
          Z.abs c <= 2 ^ 53 ->
          creationDate invoice = int c) /\
      (forall e : Z,
          inv_expiry invoice = Some (pretty e) ->
          Z.abs e <= 2 ^ 53 ->
          expirySeconds invoice = int e) /\
      (expiryTimestamp invoice = NaN -> tx_isExpired tx = Some false)).
Proof.
  intros H1 H2 H3 now loaded.
  pose proof (fun tx => loaded_entries pageSize calendar client now_ms st pr sr pe tx
                          H1 H2 H3) as Hentries.
  fold loaded now in Hentries.
  split.
  - intros tx Hin Hty. apply Hentries in Hin as [(x & _ & ->)|Hin]; [discriminate|exact Hin].
  - intros invoice Hin tx.
    split; [apply Hentries; right; exists invoice; split; [exact Hin|reflexivity]|].
    split; [|split; [|split; [|split; [|split; [|split]]]]].
    + intros c e Hc He Hb. unfold tx. rewrite (isExpired_int invoice now c e Hc He Hb).
      split.
      * split.
        -- intros [= H]. apply andb_true_iff in H as [Ho Hlt].
           apply String.eqb_eq in Ho. apply Z.ltb_lt in Hlt. split; [exact Ho|lia].
        -- intros [Ho Hlt]. f_equal. apply andb_true_iff. split.
           ++ apply String.eqb_eq. exact Ho.
           ++ apply Z.ltb_lt. lia.
      * intros H. f_equal. apply andb_false_iff. right. apply Z.ltb_ge. lia.
    + apply isExpired_not_open.
    + intros H. unfold expirySeconds. rewrite H. reflexivity.
    + intros H. unfold creationDate. rewrite H. cbn [or_default].
      apply (parseInt_pretty 0). vm_compute. discriminate.
    + intros c Hc Hb. unfold creationDate. rewrite Hc.
      cbn [or_default opt_truthy default]. rewrite pretty_Z_truthy.
      apply parseInt_pretty. exact Hb.
    + intros e He Hb. unfold expirySeconds. rewrite He.
      cbn [opt_truthy default from_option id]. rewrite pretty_Z_truthy.
      apply parseInt_pretty. exact Hb.
    + intros H. unfold tx. cbn [invoiceToTransaction tx_isExpired].
      rewrite H. unfold num_gt, num_lt. rewrite andb_false_r. reflexivity.
Qed.

Lemma c4_expired_iff_open_and_past_expiry_witness :
  let late := transactions
                (snd (loadTransactions (int 1) Samples.fixed_calendar
                        (Some Samples.listing_client) 1700003601000 initial)) in
  let in_time := transactions
                   (snd (loadTransactions (int 1) Samples.fixed_calendar
                           (Some Samples.listing_client) 1700003600999 initial)) in
  creationDate Samples.invoice_open = int 1700000000 /\
  expirySeconds Samples.invoice_open = int 3600 /\
  (In (invoiceToTransaction (int 1700003601) Samples.invoice_open) late /\
   tx_isExpired (invoiceToTransaction (int 1700003601) Samples.invoice_open) = Some true) /\
  (In (invoiceToTransaction (int 1700003600) Samples.invoice_open) in_time /\
   tx_isExpired (invoiceToTransaction (int 1700003600) Samples.invoice_open) = Some false) /\
  (In (invoiceToTransaction (int 1700003601) Samples.invoice_settled) late /\
   tx_isExpired (invoiceToTransaction (int 1700003601) Samples.invoice_settled)
     = Some false).
Proof.
  intros late in_time.
  destruct (c4_expired_iff_open_and_past_expiry (int 1) Samples.fixed_calendar
              Samples.listing_client 1700003601000 initial
              (Samples.payments_of [Samples.payment_1500; Samples.payment_later])
              (Samples.invoices_of [Samples.invoice_settled])
              (Samples.invoices_of [Samples.invoice_open])
              eq_refl eq_refl eq_refl) as [_ Hlate].
  destruct (c4_expired_iff_open_and_past_expiry (int 1) Samples.fixed_calendar
              Samples.listing_client 1700003600999 initial
              (Samples.payments_of [Samples.payment_1500; Samples.payment_later])
              (Samples.invoices_of [Samples.invoice_settled])
              (Samples.invoices_of [Samples.invoice_open])
              eq_refl eq_refl eq_refl) as [_ Hin_time].
  destruct (Hlate Samples.invoice_open ltac:(right; left; reflexivity))
    as (Hin1 & Hiff1 & _ & _ & _ & Hc & He & _).
  destruct (Hin_time Samples.invoice_open ltac:(right; left; reflexivity))
    as (Hin2 & Hiff2 & _).
  destruct (Hlate Samples.invoice_settled ltac:(left; reflexivity))
    as (Hin3 & _ & Hstate & _).
  assert (Hcd : creationDate Samples.invoice_open = int 1700000000)
    by (apply Hc; [reflexivity|vm_compute; discriminate]).
  assert (Hex : expirySeconds Samples.invoice_open = int 3600)
    by (apply He; [reflexivity|vm_compute; discriminate]).
  split; [exact Hcd|]. split; [exact Hex|]. split; [|split].
  - split; [exact Hin1|].
    apply (Hiff1 1700000000 3600 Hcd Hex ltac:(vm_compute; discriminate)).
    split; [reflexivity|vm_compute; reflexivity].
  - split; [exact Hin2|].
    apply (Hiff2 1700000000 3600 Hcd Hex ltac:(vm_compute; discriminate)).
    vm_compute. discriminate.
  - split; [exact Hin3|]. apply Hstate. discriminate.
Defined.

(** ** The event bus (C9) *)

Section BusFacts.
Context {Arg Err W : Type}.

Lemma run_all_run_log (callbacks : list (Callback Arg Err W)) (args : list Arg) (w : W) :
  fst (run_log callbacks args w) = run_all callbacks args w.
Proof.
  revert w. induction callbacks as [|c r IH]; intros w; cbn [run_log run_all fold_left].
  - reflexivity.
  - destruct (cb_run c args w) as [w1 o] eqn:E. specialize (IH w1).
    destruct (run_log r args w1) as [w2 errs]. cbn [fst] in *. rewrite IH. reflexivity.
Qed.

Lemma run_all_app (l1 l2 : list (Callback Arg Err W)) (args : list Arg) (w : W) :
  run_all (l1 ++ l2) args w = run_all l2 args (run_all l1 args w).
Proof. unfold run_all. apply fold_left_app. Qed.

(** The loop of [emit]: every callback runs, every thrown value is logged,
    and the loop completes normally. *)
Lemma emit_loop (msg : string) (callbacks : list (Callback Arg Err W)) (args : list Arg) (env : Env Err W) :
  forEach
    (fun callback => try_catch (call callback args) (fun error => console_error msg error))
    callbacks env =
  (Normal tt,
   {| world := fst (run_log callbacks args (world env));
      console := console env ++ map (fun e => (msg, e)) (snd (run_log callbacks args (world env))) |}).
Proof.
  revert env. induction callbacks as [|c r IH]; intros env; cbn [forEach run_log].
  - unfold ret. cbn. rewrite app_nil_r. destruct env; reflexivity.
  - unfold bind, try_catch, call, console_error.
    destruct (cb_run c args (world env)) as [w1 [e|]] eqn:E; rewrite IH; cbn [world console];
      destruct (run_log r args w1) as [w2 errs]; cbn [fst snd map].
    + rewrite <- app_assoc. reflexivity.
    + reflexivity.
Qed.

Lemma subscribers_on (event : AppEvent) (callback : Callback Arg Err W)
    (events : Events Arg Err W) :
  subscribers (on event callback events) event = subscribers events event ++ [callback].
Proof.
  unfold subscribers, on, Events in *.
  destruct (events !! event) as [cbs|] eqn:E.
  - rewrite E. rewrite lookup_insert_eq. reflexivity.
  - rewrite !lookup_insert_eq. reflexivity.
Qed.
End BusFacts.

(** C9.  [emit] on an event without subscribers changes nothing and does
    not fail.  In general [emit] never throws: it runs every subscriber of
    the event, in order of subscription and on the same arguments, and logs
    what they throw; in particular the subscribers after one that throws
    still run.  [on] appends the callback to the subscribers of its event. *)
Theorem c9_emit_isolates_subscribers {Arg Err W : Type}
    (events : Events Arg Err W) (event : AppEvent) (args : list Arg) (env : Env Err W) :
  (subscribers events event = [] -> emit events event args env = (Normal tt, env)) /\
  (exists env',
      emit events event args env = (Normal tt, env') /\
      world env' = run_all (subscribers events event) args (world env) /\
      console env' =
        console env ++
        map (fun e => ("Error in event handler for " +:+ event_name event +:+ ":", e))
          (snd (run_log (subscribers events event) args (world env)))) /\
  (forall (before after : list (Callback Arg Err W)) (bad : Callback Arg Err W)
          (err : Err) (w : W),
      subscribers events event = before ++ bad :: after ->
      cb_run bad args (run_all before args (world env)) = (w, Some err) ->
      exists env',
        emit events event args env = (Normal tt, env') /\
        world env' = run_all after args w) /\
  (forall (callback : Callback Arg Err W),
      subscribers (on event callback events) event =
        subscribers events event ++ [callback]).
Proof.
  assert (Hemit : emit events event args env =
            (Normal tt,
             {| world := fst (run_log (subscribers events event) args (world env));
                console := console env ++
                  map (fun e => ("Error in event handler for " +:+ event_name event +:+ ":", e))
                    (snd (run_log (subscribers events event) args (world env))) |})).
  { unfold emit, subscribers. destruct (events !! event) as [cbs|]; cbn [default].
    - apply emit_loop.
    - unfold ret. cbn. rewrite app_nil_r. destruct env; reflexivity. }
  split; [|split; [|split]].
  - intros H. rewrite Hemit, H. cbn. rewrite app_nil_r. destruct env; reflexivity.
  - eexists. split; [exact Hemit|]. cbn [world console].
    split; [apply run_all_run_log|reflexivity].
  - intros before after bad err w Hs Hbad. eexists. split; [exact Hemit|].
    cbn [world]. rewrite run_all_run_log, Hs, run_all_app.
    unfold run_all at 1. cbn [fold_left]. fold (run_all before args (world env)).
    rewrite Hbad. reflexivity.
  - intros callback. apply subscribers_on.
Qed.

Lemma c9_emit_isolates_subscribers_witness :
  subscribers Samples.sample_bus payment_sent = [] /\
  emit Samples.sample_bus payment_sent [5; 6] Samples.quiet = (Normal tt, Samples.quiet) /\
  subscribers Samples.sample_bus transaction_new
    = [Samples.adds 1] ++ Samples.bumps_and_throws 2 :: [Samples.adds 3] /\
  exists env',
    emit Samples.sample_bus transaction_new [5; 6] Samples.quiet = (Normal tt, env') /\
    world env' = 23.
Proof.
  assert (H0 : subscribers Samples.sample_bus payment_sent = []) by reflexivity.
  assert (H1 : subscribers Samples.sample_bus transaction_new
               = [Samples.adds 1] ++ Samples.bumps_and_throws 2 :: [Samples.adds 3])
    by reflexivity.
  split; [exact H0|]. split; [|split; [exact H1|]].
  - apply (c9_emit_isolates_subscribers Samples.sample_bus payment_sent [5; 6] Samples.quiet).
    exact H0.
  - destruct (c9_emit_isolates_subscribers Samples.sample_bus transaction_new [5; 6]
                Samples.quiet) as (_ & _ & Hrest & _).
    destruct (Hrest [Samples.adds 1] [Samples.adds 3] (Samples.bumps_and_throws 2)
                "handler failed" 12 H1 eq_refl) as (env' & Hrun & Hw).
    exists env'. split; [exact Hrun|]. rewrite Hw. reflexivity.
Defined.

(** ** The event bus: unsubscribing *)

Section BusOffFacts.
Context {Arg Err W : Type}.

Lemma remove_first_fresh (r : nat) (l : list (Callback Arg Err W)) :
  length (List.filter (fun c => Nat.eqb (cb_ref c) r) l) = 0%nat ->
  remove_first r l = l.
Proof.
  induction l as [|c l IH]; cbn [List.filter remove_first]; [reflexivity|].
  destruct (Nat.eqb (cb_ref c) r); cbn [length]; [discriminate|].
  intros H. rewrite IH by exact H. reflexivity.
Qed.

Lemma remove_first_app_fresh (c : Callback Arg Err W) (l : list (Callback Arg Err W)) :
  length (List.filter (fun c' => Nat.eqb (cb_ref c') (cb_ref c)) l) = 0%nat ->
  remove_first (cb_ref c) (l ++ [c]) = l.
Proof.
  induction l as [|c' l IH]; cbn [List.filter remove_first app].
  - rewrite Nat.eqb_refl. reflexivity.
  - destruct (Nat.eqb (cb_ref c') (cb_ref c)); cbn [length]; [discriminate|].
    intros H. rewrite IH by exact H. reflexivity.
Qed.

(** Removing the first subscription of a callback: one subscription less for
    it, none less for the others. *)
Lemma remove_first_count (r r' : nat) (l : list (Callback Arg Err W)) :
  length (List.filter (fun c => Nat.eqb (cb_ref c) r') (remove_first r l)) =
  if Nat.eqb r r'
  then Nat.pred (length (List.filter (fun c => Nat.eqb (cb_ref c) r') l))
  else length (List.filter (fun c => Nat.eqb (cb_ref c) r') l).
Proof.
  induction l as [|c l IH]; cbn [List.filter remove_first].
  - destruct (Nat.eqb r r'); reflexivity.
  - destruct (Nat.eqb_spec (cb_ref c) r) as [Hc|Hc].
    + destruct (Nat.eqb_spec r r') as [Hr|Hr].
      * rewrite (proj2 (Nat.eqb_eq _ _)) by congruence. reflexivity.
      * rewrite (proj2 (Nat.eqb_neq _ _)) by congruence. reflexivity.
    + cbn [List.filter]. destruct (Nat.eqb_spec (cb_ref c) r') as [Hc'|Hc'].
      * rewrite (proj2 (Nat.eqb_neq r r')) in * by congruence. cbn [length]. rewrite IH.
        reflexivity.
      * exact IH.
Qed.

Lemma subscribers_off (event : AppEvent) (callback : Callback Arg Err W)
    (events : Events Arg Err W) :
  subscribers (off event callback events) event =
  remove_first (cb_ref callback) (subscribers events event).
Proof.
  unfold subscribers, off, Events in *.
  destruct (events !! event) as [cbs|] eqn:E.
  - rewrite lookup_insert_eq. reflexivity.
  - rewrite E. reflexivity.
Qed.

Lemma subscribers_on_other (event other : AppEvent) (callback : Callback Arg Err W)
    (events : Events Arg Err W) :
  other <> event ->
  subscribers (on event callback events) other = subscribers events other.
Proof.
  intros Hne. unfold subscribers, on, Events in *.
  destruct (events !! event) as [cbs|] eqn:E.
  - rewrite E. rewrite lookup_insert_ne by congruence. reflexivity.
  - rewrite lookup_insert_eq. rewrite !lookup_insert_ne by congruence. reflexivity.
Qed.

Lemma subscribers_off_other (event other : AppEvent) (callback : Callback Arg Err W)
    (events : Events Arg Err W) :
  other <> event ->
  subscribers (off event callback events) other = subscribers events other.
Proof.
  intros Hne. unfold subscribers, off, Events in *.
  destruct (events !! event) as [cbs|] eqn:E; [|reflexivity].
  rewrite lookup_insert_ne by congruence. reflexivity.
Qed.

(** What [emit] does depends on the subscribers of the event only. *)
Lemma emit_subscribers (events : Events Arg Err W) (event : AppEvent) (args : list Arg) :
  emit events event args =
  forEach
    (fun callback =>
       try_catch (call callback args)
         (fun error =>
            console_error ("Error in event handler for " +:+ event_name event +:+ ":") error))
    (subscribers events event).
Proof.
  unfold emit, subscribers. destruct (events !! event); reflexivity.
Qed.
End BusOffFacts.

(** X1.  Unsubscribing a callback right after subscribing it, when it was
    not subscribed to the event before, puts the bus back: every event has
    the subscribers it had, and every emission does what it did before. *)
Theorem x1_off_undoes_on {Arg Err W : Type}
    (events : Events Arg Err W) (event : AppEvent) (callback : Callback Arg Err W) :
  subscriptions events event callback = 0%nat ->
  (forall other : AppEvent,
      subscribers (off event callback (on event callback events)) other =
      subscribers events other) /\
  (forall (other : AppEvent) (args : list Arg),
      emit (off event callback (on event callback events)) other args =
      emit events other args).
Proof.
  intros Hfresh.
  assert (Hsub : forall other : AppEvent,
            subscribers (off event callback (on event callback events)) other =
            subscribers events other).
  { intros other. destruct (decide (other = event)) as [->|Hne].
    - rewrite subscribers_off, subscribers_on. apply remove_first_app_fresh. exact Hfresh.
    - rewrite subscribers_off_other, subscribers_on_other by exact Hne. reflexivity. }
  split; [exact Hsub|].
  intros other args. rewrite !emit_subscribers, Hsub. reflexivity.
Qed.

Lemma x1_off_undoes_on_witness :
  subscriptions Samples.sample_bus transaction_new (Samples.adds 7) = 0%nat /\
  subscribers (off transaction_new (Samples.adds 7)
                 (on transaction_new (Samples.adds 7) Samples.sample_bus)) transaction_new =
    [Samples.adds 1; Samples.bumps_and_throws 2; Samples.adds 3].
Proof.
  split; [reflexivity|].
  destruct (x1_off_undoes_on Samples.sample_bus transaction_new (Samples.adds 7) eq_refl)
    as [Hsub _].
  rewrite (Hsub transaction_new). reflexivity.
Defined.

(** X2.  The bus counts subscriptions: [on] adds one subscription of the
    callback, also when it is subscribed already; [off] takes one away, and
    changes nothing at all when the callback is not subscribed.  Neither
    touches the subscriptions of other callbacks, nor the subscribers of
    other events. *)
Theorem x2_subscriptions_are_counted {Arg Err W : Type}
    (events : Events Arg Err W) (event : AppEvent) (callback : Callback Arg Err W) :
  subscriptions (on event callback events) event callback =
    S (subscriptions events event callback) /\
  subscriptions (off event callback events) event callback =
    Nat.pred (subscriptions events event callback) /\
  (subscriptions events event callback = 0%nat -> off event callback events = events) /\
  (forall other : Callback Arg Err W,
      cb_ref other <> cb_ref callback ->
      subscriptions (on event callback events) event other =
        subscriptions events event other /\
      subscriptions (off event callback events) event other =
        subscriptions events event other) /\
  (forall other : AppEvent,
      other <> event ->
      subscribers (on event callback events) other = subscribers events other /\
      subscribers (off event callback events) other = subscribers events other).
Proof.
  unfold subscriptions. split; [|split; [|split; [|split]]].
  - rewrite subscribers_on, List.filter_app, length_app. cbn [List.filter].
    rewrite Nat.eqb_refl. cbn [length]. lia.
  - rewrite subscribers_off, remove_first_count, Nat.eqb_refl. reflexivity.
  - intros Hfresh. unfold off, subscribers, Events in *.
    destruct (events !! event) as [cbs|] eqn:E; [|reflexivity].
    cbn [default] in Hfresh. rewrite remove_first_fresh by exact Hfresh.
    apply insert_id. exact E.
  - intros other Hne. split.
    + rewrite subscribers_on, List.filter_app, length_app. cbn [List.filter].
      rewrite (proj2 (Nat.eqb_neq _ _)) by congruence. cbn [length]. lia.
    + rewrite subscribers_off, remove_first_count.
      rewrite (proj2 (Nat.eqb_neq _ _)) by congruence. reflexivity.
  - intros other Hne. split.
    + apply subscribers_on_other. exact Hne.
    + apply subscribers_off_other. exact Hne.
Qed.

Lemma x2_subscriptions_are_counted_witness :
  subscriptions Samples.sample_bus payment_sent (Samples.adds 1) = 0%nat /\
  off payment_sent (Samples.adds 1) Samples.sample_bus = Samples.sample_bus /\
  subscriptions (on transaction_new (Samples.adds 1) Samples.sample_bus)
    transaction_new (Samples.adds 1) = 2%nat.
Proof.
  destruct (x2_subscriptions_are_counted Samples.sample_bus payment_sent (Samples.adds 1))
    as (_ & _ & Hoff & _).
  destruct (x2_subscriptions_are_counted Samples.sample_bus transaction_new (Samples.adds 1))
    as (Hon & _).
  split; [reflexivity|]. split; [apply Hoff; reflexivity|].
  rewrite Hon. reflexivity.
Defined.

(** ** The send form: every outcome of a response, and what is shown *)

Import Send.

Section SendOutcomes.
Variable JSON_parse : string -> option json.
Variable JSON_stringify : json -> string.
Variable ToString : value -> string.
Variable sendPaymentV2 : string -> option json.

Lemma has_result_inv (paymentData : json) :
  has_result paymentData = true ->
  exists fields result,
    paymentData = JObj fields /\
    prop (Some paymentData) "result" = inl result /\ truthy result = true.
Proof.
  unfold has_result.
  destruct paymentData as [|b|n|s|items|fields]; cbn [prop truthy andb];
    rewrite ?andb_false_r; try discriminate.
  intros H. exists fields, (field "result" fields). repeat split. exact H.
Qed.

(** What a payment update with a [result] leaves behind. *)
Lemma handlePaymentUpdate_outcome (paymentData : json) (result : value) (st : State) :
  prop (Some paymentData) "result" = inl result ->
  truthy result = true ->
  exists st',
    handlePaymentUpdate ToString paymentData st = (Normal tt, st') /\
    paymentRequest st' = paymentRequest st /\
    rawResponse st' = rawResponse st /\
    paymentResult st' = Some paymentData /\
    ((is_str (opt_prop result "status") "SUCCEEDED" = true /\
      loading st' = false /\ error st' = None) \/
     (is_str (opt_prop result "status") "SUCCEEDED" = false /\
      is_str (opt_prop result "status") "IN_FLIGHT" = true /\
      loading st' = loading st /\ error st' = error st) \/
     (is_str (opt_prop result "status") "SUCCEEDED" = false /\
      is_str (opt_prop result "status") "IN_FLIGHT" = false /\
      loading st' = false /\ exists msg, error st' = Some msg)).
Proof.
  intros Hr Ht. unfold handlePaymentUpdate. run. rewrite Hr. cbv beta iota.
  rewrite Ht. cbn [negb]. cbv beta iota.
  destruct (prop_truthy _ "status" Ht) as [status Hs]. unfold opt_prop. rewrite Hs.
  cbv beta iota.
  destruct (is_str status "SUCCEEDED") eqn:E1.
  { eexists. split; [reflexivity|]. cbn. repeat split. left. repeat split. }
  destruct (is_str status "FAILED") eqn:E2.
  { destruct (prop_truthy _ "failure_reason" Ht) as [fr Hf]. rewrite Hf. cbv beta iota.
    assert (E3 : is_str status "IN_FLIGHT" = false).
    { destruct status as [[| | |s| |]|]; try reflexivity. cbn in E2 |- *.
      apply String.eqb_eq in E2. subst s. reflexivity. }
    eexists. split; [reflexivity|]. cbn. repeat split. right. right.
    repeat split; [exact E3|]. eauto. }
  destruct (is_str status "IN_FLIGHT") eqn:E3.
  { eexists. split; [reflexivity|]. cbn. repeat split. right. left. repeat split. }
  eexists. split; [reflexivity|]. cbn. repeat split. right. right. repeat split. eauto.
Qed.

(** A response that does not parse. *)
Lemma process_unparsable (raw : string) (st : State) :
  JSON_parse raw = None ->
  processPaymentResponse JSON_parse ToString raw st =
    (Normal tt, failed_with st "Failed to process payment response").
Proof.
  intros H. unfold processPaymentResponse, parse. run. rewrite H. reflexivity.
Qed.

(** A response that is itself a payment update. *)
Lemma process_object (raw : string) (paymentData : json) (st : State) :
  JSON_parse raw = Some paymentData ->
  has_result paymentData = true ->
  processPaymentResponse JSON_parse ToString raw st =
  handlePaymentUpdate ToString paymentData st.
Proof.
  intros H Hres. destruct (has_result_inv _ Hres) as (fields & result & -> & Hr & Ht).
  destruct (handlePaymentUpdate_normal ToString (JObj fields) st eq_refl) as [st' Hh].
  unfold processPaymentResponse, parse. run. rewrite H.
  change (truthy (Some (JObj fields)) && typeof_object (Some (JObj fields))) with true.
  cbv beta iota. rewrite Hr. cbv beta iota. rewrite Ht. rewrite Hh. reflexivity.
Qed.

(** A response that is neither a payment update nor a string. *)
Lemma process_unrecognized (raw : string) (responseData : json) (st : State) :
  JSON_parse raw = Some responseData ->
  has_result responseData = false ->
  (forall s, responseData <> JStr s) ->
  processPaymentResponse JSON_parse ToString raw st =
    (Normal tt, failed_with st "Unrecognized payment response format").
Proof.
  intros H Hres Hns. unfold processPaymentResponse, parse. run. rewrite H.
  unfold has_result in Hres.
  destruct responseData as [|b|n|s|items|fields];
    try (exfalso; apply (Hns s); reflexivity);
    cbn in Hres |- *; rewrite ?andb_false_r; try reflexivity;
    try (destruct b; reflexivity).
  rewrite Hres. reflexivity.
Qed.

(** A stream without a non-empty line. *)
Lemma process_blank_stream (raw s : string) (st : State) :
  JSON_parse raw = Some (JStr s) ->
  nonempty_lines s = [] ->
  processPaymentResponse JSON_parse ToString raw st =
    (Normal tt, failed_with st "No valid payment response found").
Proof.
  intros H Hl. unfold processPaymentResponse, parse. run. rewrite H.
  change (typeof_object (Some (JStr s))) with false. rewrite andb_false_r.
  cbv beta iota. change (truthy None) with false. cbv beta iota.
  rewrite Hl. reflexivity.
Qed.

(** Every response is either handled as one payment update that carries a
    [result], or rejected with a message. *)
Lemma processPaymentResponse_cases (raw : string) (st : State) :
  (exists paymentData result,
      prop (Some paymentData) "result" = inl result /\ truthy result = true /\
      processPaymentResponse JSON_parse ToString raw st =
      handlePaymentUpdate ToString paymentData st) \/
  (exists msg,
      processPaymentResponse JSON_parse ToString raw st = (Normal tt, failed_with st msg)).
Proof.
  destruct (JSON_parse raw) as [responseData|] eqn:Hraw;
    [|right; eexists; apply process_unparsable; exact Hraw].
  destruct (has_result responseData) eqn:Hres.
  { left. destruct (has_result_inv _ Hres) as (fields & result & Heq & Hr & Ht).
    exists responseData, result. repeat split; try assumption.
    apply process_object; assumption. }
  destruct responseData as [|b|n|s|items|fields];
    try (right; eexists; eapply process_unrecognized; [exact Hraw|exact Hres|discriminate]).
  destruct (last_elem (nonempty_lines s)) as [lastLine|] eqn:Hl.
  - destruct (JSON_parse lastLine) as [paymentData|] eqn:Hp.
    + destruct (has_result paymentData) eqn:Hpd.
      * left. destruct (has_result_inv _ Hpd) as (fields & result & Heq & Hr & Ht).
        exists paymentData, result. repeat split; try assumption.
        eapply process_stream_update; eassumption.
      * right. eexists. eapply process_stream_no_result; eassumption.
    + right. eexists. eapply process_stream_unparsable; eassumption.
  - right. eexists. apply (process_blank_stream raw s); [exact Hraw|].
    apply last_elem_nil_iff. exact Hl.
Qed.

(** A request that is empty or blank is not sent. *)
Lemma sendPayment_blank (st : State) :
  trim (paymentRequest st) = "" ->
  sendPayment JSON_stringify sendPaymentV2 st =
    (Normal tt,
     {| paymentRequest := paymentRequest st; paymentResult := paymentResult st;
        loading := loading st; error := Some "Please enter a valid lightning invoice";
        rawResponse := rawResponse st |}).
Proof.
  intros H. unfold sendPayment. run. rewrite H. rewrite orb_true_r. reflexivity.
Qed.

Lemma opt_prop_inl (v r : value) (k : string) : prop v k = inl r -> opt_prop v k = r.
Proof. intros H. unfold opt_prop. rewrite H. reflexivity. Qed.

Lemma trim_nonblank_truthy (s : string) : trim s <> "" -> str_truthy s = true.
Proof.
  intros H. unfold str_truthy. destruct (String.eqb_spec s ""); [|reflexivity].
  subst s. exfalso. apply H. reflexivity.
Qed.
End SendOutcomes.

(** X3.  Whatever the response, [processPaymentResponse] ends in one of
    three ways: a [SUCCEEDED] update is stored, with [loading = false] and
    no error; an [IN_FLIGHT] update is stored, with [loading] and the error
    left as they were; or [loading = false] and an error message is set.
    The typed request and the raw response are never touched. *)
Theorem x3_response_outcomes
    (JSON_parse : string -> option json) (ToString : value -> string)
    (raw : string) (st : State) :
  exists st',
    processPaymentResponse JSON_parse ToString raw st = (Normal tt, st') /\
    paymentRequest st' = paymentRequest st /\
    rawResponse st' = rawResponse st /\
    ((update_status st' "SUCCEEDED" /\ loading st' = false /\ error st' = None) \/
     (update_status st' "IN_FLIGHT" /\ loading st' = loading st /\ error st' = error st) \/
     (loading st' = false /\ exists msg, error st' = Some msg)).
Proof.
  destruct (processPaymentResponse_cases JSON_parse ToString raw st)
    as [(paymentData & result & Hr & Ht & ->)|(msg & ->)].
  - destruct (handlePaymentUpdate_outcome ToString paymentData result st Hr Ht)
      as (st' & -> & Hq & Hraw & Hpr & Hcases).
    exists st'. split; [reflexivity|]. split; [exact Hq|]. split; [exact Hraw|].
    unfold update_status. rewrite Hpr, (opt_prop_inl _ _ _ Hr).
    destruct Hcases as [(E1 & Hl & He)|[(E1 & E3 & Hl & He)|(E1 & E3 & Hl & He)]].
    + left. repeat split; assumption.
    + right. left. repeat split; assumption.
    + right. right. split; assumption.
  - exists (failed_with st msg). split; [reflexivity|]. split; [reflexivity|].
    split; [reflexivity|]. right. right. split; [reflexivity|]. exists msg. reflexivity.
Qed.

(** X4.  The responses the form cannot read, each with its message: a text
    that is not JSON ("Failed to process payment response"), a JSON value
    that is neither a string nor an object with a [result] ("Unrecognized
    payment response format"), and a stream in which every line is blank
    ("No valid payment response found").  In each case the payment result
    stays as it was and [loading] becomes [false].  A response that is
    itself an object with a [result] is applied as one payment update. *)
Theorem x4_unreadable_responses
    (JSON_parse : string -> option json) (ToString : value -> string)
    (raw : string) (st : State) :
  (JSON_parse raw = None ->
   processPaymentResponse JSON_parse ToString raw st =
     (Normal tt, failed_with st "Failed to process payment response")) /\
  (forall responseData : json,
      JSON_parse raw = Some responseData ->
      has_result responseData = false ->
      (forall s, responseData <> JStr s) ->
      processPaymentResponse JSON_parse ToString raw st =
        (Normal tt, failed_with st "Unrecognized payment response format")) /\
  (forall s : string,
      JSON_parse raw = Some (JStr s) ->
      nonempty_lines s = [] ->
      processPaymentResponse JSON_parse ToString raw st =
        (Normal tt, failed_with st "No valid payment response found")) /\
  (forall paymentData : json,
      JSON_parse raw = Some paymentData ->
      has_result paymentData = true ->
      processPaymentResponse JSON_parse ToString raw st =
      handlePaymentUpdate ToString paymentData st).
Proof.
  split; [|split; [|split]].
  - apply process_unparsable.
  - intros responseData. apply process_unrecognized.
  - intros s. apply process_blank_stream.
  - intros paymentData. apply process_object.
Qed.

Lemma x4_unreadable_responses_witness :
  processPaymentResponse Samples.sample_parse_blank Samples.sample_ToString
      "not json" Samples.send_waiting =
    (Normal tt, failed_with Samples.send_waiting "Failed to process payment response") /\
  processPaymentResponse Samples.sample_parse_blank Samples.sample_ToString
      Samples.line_no_result Samples.send_waiting =
    (Normal tt, failed_with Samples.send_waiting "Unrecognized payment response format") /\
  processPaymentResponse Samples.sample_parse_blank Samples.sample_ToString
      (Samples.json_string_literal Samples.stream_blank) Samples.send_waiting =
    (Normal tt, failed_with Samples.send_waiting "No valid payment response found") /\
  processPaymentResponse Samples.sample_parse_blank Samples.sample_ToString
      Samples.line_succeeded Samples.send_waiting =
    handlePaymentUpdate Samples.sample_ToString Samples.succeeded Samples.send_waiting.
Proof.
  split; [|split; [|split]].
  - apply (x4_unreadable_responses Samples.sample_parse_blank Samples.sample_ToString
             "not json" Samples.send_waiting). reflexivity.
  - apply (x4_unreadable_responses Samples.sample_parse_blank Samples.sample_ToString
             Samples.line_no_result Samples.send_waiting) with (responseData := Samples.no_result);
      [reflexivity|reflexivity|discriminate].
  - apply (x4_unreadable_responses Samples.sample_parse_blank Samples.sample_ToString
             (Samples.json_string_literal Samples.stream_blank) Samples.send_waiting)
      with (s := Samples.stream_blank); reflexivity.
  - apply (x4_unreadable_responses Samples.sample_parse_blank Samples.sample_ToString
             Samples.line_succeeded Samples.send_waiting); reflexivity.
Defined.

(** X5.  The check of the request in [sendPayment].  A request that is
    empty or made of white space (as [trim] removes it: spaces, tabs, line
    ends, no-break spaces and the other space characters) is not sent:
    whatever the node would answer, only the message "Please enter a valid
    lightning invoice" is set, and [loading], the payment result and the
    raw response stay as they were.  Any other request is passed to the
    node exactly as typed, white space around it included: the outcome is
    decided by the node's answer to that text. *)
Theorem x5_blank_request_is_not_sent
    (JSON_stringify : json -> string) (sendPaymentV2 : string -> option json) (st : State) :
  (trim (paymentRequest st) = "" ->
   sendPayment JSON_stringify sendPaymentV2 st =
     (Normal tt,
      {| paymentRequest := paymentRequest st; paymentResult := paymentResult st;
         loading := loading st; error := Some "Please enter a valid lightning invoice";
         rawResponse := rawResponse st |})) /\
  (trim (paymentRequest st) <> "" ->
   sendPayment JSON_stringify sendPaymentV2 st =
     (Normal tt,
      match sendPaymentV2 (paymentRequest st) with
      | Some result =>
          {| paymentRequest := paymentRequest st; paymentResult := None;
             loading := true; error := None; rawResponse := JSON_stringify result |}
      | None =>
          {| paymentRequest := paymentRequest st; paymentResult := None;
             loading := false;
             error := Some "Failed to send payment. Please check your invoice and node connection.";
             rawResponse := "" |}
      end)).
Proof.
  split.
  - apply sendPayment_blank.
  - intros Hb. pose proof (trim_nonblank_truthy _ Hb) as Ht.
    destruct (sendPaymentV2 (paymentRequest st)) as [result|] eqn:Hn.
    + apply sendPayment_answered; assumption.
    + apply sendPayment_rejected; assumption.
Qed.

Lemma x5_blank_request_is_not_sent_witness :
  trim (paymentRequest Samples.send_blank) = "" /\
  sendPayment Samples.sample_stringify Samples.node_streams_ok Samples.send_blank =
    (Normal tt,
     {| paymentRequest := "   "; paymentResult := Some Samples.succeeded;
        loading := false; error := Some "Please enter a valid lightning invoice";
        rawResponse := Samples.json_string_literal Samples.stream_ok |}) /\
  trim (paymentRequest Samples.send_ready) <> "" /\
  sendPayment Samples.sample_stringify Samples.node_down Samples.send_ready =
    (Normal tt,
     {| paymentRequest := "lnbc100n1demo"; paymentResult := None; loading := false;
        error := Some "Failed to send payment. Please check your invoice and node connection.";
        rawResponse := "" |}) /\
  trim (paymentRequest Samples.send_nbsp) = "" /\
  sendPayment Samples.sample_stringify Samples.node_streams_ok Samples.send_nbsp =
    (Normal tt,
     {| paymentRequest := Samples.nbsp; paymentResult := None; loading := false;
        error := Some "Please enter a valid lightning invoice"; rawResponse := "" |}).
Proof.
  assert (Hready : trim (paymentRequest Samples.send_ready) <> "") by discriminate.
  split; [reflexivity|]. split; [|split; [exact Hready|split; [|split; [reflexivity|]]]].
  - apply (x5_blank_request_is_not_sent Samples.sample_stringify Samples.node_streams_ok
             Samples.send_blank).
    reflexivity.
  - apply (x5_blank_request_is_not_sent Samples.sample_stringify Samples.node_down
             Samples.send_ready).
    exact Hready.
  - apply (x5_blank_request_is_not_sent Samples.sample_stringify Samples.node_streams_ok
             Samples.send_nbsp).
    reflexivity.
Defined.

(** X6.  After a click on "Send Payment" with a request that is not blank,
    what [renderUI] shows agrees with the state: the "Payment Successful"
    panel comes with [loading = false] and no error; the "Payment Failed"
    panel comes with [loading = false] and an error message; the form with
    its "Payment in progress..." note comes with [loading = true] and no
    error; and the plain form is shown only when no payment result is
    stored.  [reset] leads from any state to the plain form without error
    and with the send button disabled. *)
Theorem x6_view_agrees_with_state
    (JSON_parse : string -> option json) (JSON_stringify : json -> string)
    (ToString : value -> string) (sendPaymentV2 : string -> option json) (st : State) :
  (trim (paymentRequest st) <> "" ->
   exists st',
     pay JSON_parse JSON_stringify ToString sendPaymentV2 st = (Normal tt, st') /\
     match renderUI st' with
     | PaymentResultView true => loading st' = false /\ error st' = None
     | PaymentResultView false => loading st' = false /\ exists msg, error st' = Some msg
     | PaymentForm true => loading st' = true /\ error st' = None
     | PaymentForm false => paymentResult st' = None
     end) /\
  (exists st',
     reset st = (Normal tt, st') /\
     renderUI st' = PaymentForm false /\ error st' = None /\ send_disabled st' = true).
Proof.
  split.
  2:{ eexists. split; [reflexivity|]. unfold renderUI, send_disabled. cbn.
      destruct (loading st); repeat split. }
  intros Hb. pose proof (trim_nonblank_truthy _ Hb) as Ht.
  unfold pay. unfold mbind at 1, M_bind, bind.
  destruct (sendPaymentV2 (paymentRequest st)) as [answer|] eqn:Hn.
  - rewrite (sendPayment_answered JSON_stringify sendPaymentV2 st _ Ht Hb Hn).
    unfold rawResponse_effect. run. cbn [rawResponse].
    destruct (str_truthy (JSON_stringify answer)).
    + match goal with
      | |- context [processPaymentResponse _ _ ?raw ?s1] =>
          destruct (processPaymentResponse_cases JSON_parse ToString raw s1)
            as [(paymentData & result & Hr & Htr & ->)|(msg & ->)];
          [destruct (handlePaymentUpdate_outcome ToString paymentData result s1 Hr Htr)
             as (st' & -> & _ & _ & Hpr & Hcases)|]
      end.
      * exists st'. split; [reflexivity|]. unfold renderUI. rewrite Hpr.
        assert (Hpd : truthy (Some paymentData) = true).
        { destruct paymentData; try reflexivity; simpl in Hr; try discriminate;
            injection Hr as <-; discriminate Htr. }
        cbv zeta. rewrite Hpd, (opt_prop_inl _ _ _ Hr), Htr. cbn [negb orb].
        cbn [loading error] in Hcases.
        destruct Hcases as [(E1 & Hl & He)|[(E1 & E3 & Hl & He)|(E1 & E3 & Hl & He)]].
        -- rewrite Hl, E1. cbn. split; [reflexivity|exact He].
        -- rewrite Hl, E3. cbn. split; [reflexivity|exact He].
        -- rewrite Hl, E1. cbn. split; [reflexivity|exact He].
      * eexists. split; [reflexivity|]. reflexivity.
    + eexists. split; [reflexivity|]. reflexivity.
  - rewrite (sendPayment_rejected JSON_stringify sendPaymentV2 st Ht Hb Hn).
    eexists. split; [reflexivity|]. reflexivity.
Qed.

Lemma x6_view_agrees_with_state_witness :
  trim (paymentRequest Samples.send_ready) <> "" /\
  renderUI (snd (pay Samples.sample_parse Samples.sample_stringify Samples.sample_ToString
                   Samples.node_streams_ok Samples.send_ready)) = PaymentResultView true /\
  exists st',
    pay Samples.sample_parse Samples.sample_stringify Samples.sample_ToString
      Samples.node_streams_ok Samples.send_ready = (Normal tt, st') /\
    loading st' = false /\ error st' = None.
Proof.
  assert (Hb : trim (paymentRequest Samples.send_ready) <> "") by discriminate.
  split; [exact Hb|]. split; [reflexivity|].
  destruct (x6_view_agrees_with_state Samples.sample_parse Samples.sample_stringify
              Samples.sample_ToString Samples.node_streams_ok Samples.send_ready)
    as [Hpay _].
  destruct (Hpay Hb) as (st' & Hrun & Hview).
  exists st'. split; [exact Hrun|].
  assert (Hst : st' = snd (pay Samples.sample_parse Samples.sample_stringify
                             Samples.sample_ToString Samples.node_streams_ok
                             Samples.send_ready)) by (rewrite Hrun; reflexivity).
  assert (Hshown : renderUI st' = PaymentResultView true) by (rewrite Hst; reflexivity).
  rewrite Hshown in Hview. exact Hview.
Defined.

(** ** The receive form: failures of the node, and what a check may change *)

Import Receive EventBus.

(** One check, field by field. *)
Lemma checkInvoiceStatus_fields (lookupInvoiceV2 : string -> option bool) (st : State)
    (inv : Invoice) :
  invoice st = Some inv ->
  exists st',
    checkInvoiceStatus lookupInvoiceV2 st = (Normal tt, st') /\
    amount st' = amount st /\
    memo_input st' = memo_input st /\
    loading st' = false /\
    checkingPayment st' = true /\
    match lookupInvoiceV2 (payment_hash inv) with
    | Some isSettledNow =>
        invoice st' = Some (with_settled inv isSettledNow) /\
        error st' = error st /\
        emissions st' =
          emissions st ++
          (if negb (settled inv) && isSettledNow
           then [{| emitted_event := transaction_new;
                    emitted_payload := with_settled inv true |}]
           else []) /\
        successMessage st' =
          (if negb (settled inv) && isSettledNow then Some "Payment received!"
           else if negb isSettledNow
                then Some "Payment not detected yet. Please try again in a moment."
                else successMessage st)
    | None =>
        invoice st' = Some inv /\
        error st' = Some "Failed to check payment status." /\
        emissions st' = emissions st /\
        successMessage st' = successMessage st
    end.
Proof.
  intros Hinv. unfold checkInvoiceStatus. run_receive. rewrite Hinv.
  destruct (lookupInvoiceV2 (payment_hash inv)) as [[|]|] eqn:Hl.
  - destruct (settled inv) eqn:Hs; cbn [negb andb]; eexists; (split; [reflexivity|]);
      cbn; rewrite ?app_nil_r; rewrite ?Hinv; repeat split; reflexivity.
  - destruct (settled inv) eqn:Hs; cbn [negb andb]; eexists; (split; [reflexivity|]);
      cbn; rewrite ?app_nil_r; rewrite ?Hinv; repeat split; reflexivity.
  - eexists. split; [reflexivity|]. cbn. rewrite ?Hinv. repeat split; reflexivity.
Qed.

Lemma with_settled_twice (inv : Invoice) (a b : bool) :
  with_settled (with_settled inv a) b = with_settled inv b.
Proof. reflexivity. Qed.

Lemma with_settled_same (inv : Invoice) : with_settled inv (settled inv) = inv.
Proof. destruct inv; reflexivity. Qed.

(** Checks of one invoice: the stored invoice stays the created one up to
    its [settled] flag, and what is emitted is that invoice, settled. *)
Lemma check_all_invoice (lookups : list (string -> option bool)) :
  forall (st : State) (inv : Invoice),
    invoice st = Some inv ->
    exists st' flag emitted,
      check_all lookups st = (Normal tt, st') /\
      invoice st' = Some (with_settled inv flag) /\
      amount st' = amount st /\
      emissions st' = emissions st ++ emitted /\
      Forall (fun e => e = {| emitted_event := transaction_new;
                              emitted_payload := with_settled inv true |}) emitted.
Proof.
  induction lookups as [|lk lookups IH]; intros st inv Hinv.
  - exists st, (settled inv), []. rewrite with_settled_same, app_nil_r.
    repeat split; try assumption. constructor.
  - destruct (checkInvoiceStatus_fields lk st inv Hinv)
      as (st1 & Hrun & Ha & _ & _ & _ & Hcase).
    rewrite (check_all_cons _ _ _ _ Hrun).
    assert (Hstep : exists flag emitted,
               invoice st1 = Some (with_settled inv flag) /\
               emissions st1 = emissions st ++ emitted /\
               Forall (fun e => e = {| emitted_event := transaction_new;
                                       emitted_payload := with_settled inv true |}) emitted).
    { destruct (lk (payment_hash inv)) as [b|].
      - destruct Hcase as (Hi & _ & Hem & _). exists b. eexists. split; [exact Hi|].
        split; [exact Hem|]. destruct (negb (settled inv) && b); repeat constructor.
      - destruct Hcase as (Hi & _ & Hem & _). exists (settled inv), [].
        rewrite with_settled_same, app_nil_r. repeat split; try assumption. constructor. }
    destruct Hstep as (flag1 & emitted1 & Hi1 & Hem1 & Hall1).
    destruct (IH st1 (with_settled inv flag1) Hi1)
      as (st' & flag & emitted & Hrun' & Hi' & Ha' & Hem' & Hall').
    exists st', flag, (emitted1 ++ emitted). split; [exact Hrun'|].
    split; [rewrite Hi'; reflexivity|]. split; [congruence|].
    split; [rewrite Hem', Hem1, app_assoc; reflexivity|].
    apply Forall_app. split; [exact Hall1|exact Hall'].
Qed.

(** X7.  [createInvoice] always returns with [loading = false] and leaves
    the amount and the memo as typed.  When the node creates the invoice,
    the error is cleared, the invoice is stored and exactly one
    ['invoice:created'] event is emitted, carrying the stored invoice.  When
    the node fails, the message "Failed to create invoice. Please check your
    node connection." is set, the stored invoice stays as it was and nothing
    is emitted. *)
Theorem x7_invoice_created_event
    (addInvoice : AddInvoiceRequest -> option AddInvoiceResponse) (now_ms : Z) (st : State) :
  exists st',
    createInvoice addInvoice now_ms st = (Normal tt, st') /\
    loading st' = false /\
    amount st' = amount st /\
    memo_input st' = memo_input st /\
    match addInvoice (addInvoice_request st) with
    | Some response =>
        error st' = None /\
        exists inv,
          invoice st' = Some inv /\
          payment_hash inv = resp_r_hash response /\
          emissions st' =
            emissions st ++ [{| emitted_event := invoice_created; emitted_payload := inv |}]
    | None =>
        error st' = Some "Failed to create invoice. Please check your node connection." /\
        invoice st' = invoice st /\
        emissions st' = emissions st
    end.
Proof.
  unfold createInvoice. run_receive.
  change (addInvoice_request _) with (addInvoice_request st).
  destruct (addInvoice (addInvoice_request st)) as [response|].
  - eexists. split; [reflexivity|]. cbn. repeat split. eexists. repeat split.
  - eexists. split; [reflexivity|]. cbn. repeat split.
Qed.

(** X8.  Checking the status, any number of times and whatever the node
    answers (also when it fails), changes nothing of the stored invoice but
    its [settled] flag: the payment hash that is looked up, the payment
    request and the amount stay those of the created invoice, and every
    event emitted on the way is ['transaction:new'] with that invoice,
    settled.  Without a stored invoice a check does nothing at all. *)
Theorem x8_checks_keep_the_invoice (lookups : list (string -> option bool)) (st : State) :
  (forall inv : Invoice,
      invoice st = Some inv ->
      exists st' flag emitted,
        check_all lookups st = (Normal tt, st') /\
        invoice st' = Some (with_settled inv flag) /\
        amount st' = amount st /\
        emissions st' = emissions st ++ emitted /\
        Forall (fun e => e = {| emitted_event := transaction_new;
                                emitted_payload := with_settled inv true |}) emitted) /\
  (invoice st = None -> check_all lookups st = (Normal tt, st)).
Proof.
  split.
  - intros inv. apply check_all_invoice.
  - revert st. induction lookups as [|lk lookups IH]; intros st Hnone; [reflexivity|].
    assert (Hrun : checkInvoiceStatus lk st = (Normal tt, st)).
    { unfold checkInvoiceStatus. run_receive. rewrite Hnone. reflexivity. }
    rewrite (check_all_cons _ _ _ _ Hrun). apply IH. exact Hnone.
Qed.

Lemma x8_checks_keep_the_invoice_witness :
  exists inv st' flag,
    invoice Samples.receive_created = Some inv /\
    check_all [Samples.says None; Samples.says (Some true); Samples.says (Some false)]
      Samples.receive_created = (Normal tt, st') /\
    invoice st' = Some (with_settled inv flag) /\
    check_all [Samples.says (Some true)] Samples.receive_ready
      = (Normal tt, Samples.receive_ready).
Proof.
  destruct (x8_checks_keep_the_invoice
              [Samples.says None; Samples.says (Some true); Samples.says (Some false)]
              Samples.receive_created) as [Hkeep _].
  destruct (x8_checks_keep_the_invoice [Samples.says (Some true)] Samples.receive_ready)
    as [_ Hnone].
  destruct (Hkeep {| payment_request := "lnbc100n1demo"; payment_hash := "c0ffee";
                     value_msat := "10000"; timestamp := "1700000000"; expiry := "3600";
                     memo := Some "test"; settled := false |})
    as (st' & flag & emitted & Hrun & Hinv & _).
  { vm_compute. reflexivity. }
  eexists. exists st', flag. split; [vm_compute; reflexivity|].
  split; [exact Hrun|]. split; [exact Hinv|]. apply Hnone. reflexivity.
Defined.

(** X9.  A check the node fails to answer keeps the stored invoice and the
    success message, emits nothing, and sets the message "Failed to check
    payment status." with [loading = false].  A check the node answers
    leaves the error message as it was: [checkInvoiceStatus] never clears an
    error, so the message of a failed check stays on display after a later
    check succeeds. *)
Theorem x9_failed_check (st : State) (inv : Invoice) :
  invoice st = Some inv ->
  (forall lookupInvoiceV2 : string -> option bool,
      lookupInvoiceV2 (payment_hash inv) = None ->
      exists st',
        checkInvoiceStatus lookupInvoiceV2 st = (Normal tt, st') /\
        invoice st' = Some inv /\
        emissions st' = emissions st /\
        successMessage st' = successMessage st /\
        error st' = Some "Failed to check payment status." /\
        loading st' = false) /\
  (forall (lookupInvoiceV2 : string -> option bool) (answer : bool),
      lookupInvoiceV2 (payment_hash inv) = Some answer ->
      exists st',
        checkInvoiceStatus lookupInvoiceV2 st = (Normal tt, st') /\
        error st' = error st /\
        loading st' = false) /\
  (forall (failing answering : string -> option bool) (answer : bool),
      failing (payment_hash inv) = None ->
      answering (payment_hash inv) = Some answer ->
      exists st',
        check_all [failing; answering] st = (Normal tt, st') /\
        invoice st' = Some (with_settled inv answer) /\
        error st' = Some "Failed to check payment status.").
Proof.
  intros Hinv.
  assert (Hfail : forall lk : string -> option bool,
             lk (payment_hash inv) = None ->
             exists st',
               checkInvoiceStatus lk st = (Normal tt, st') /\
               invoice st' = Some inv /\
               emissions st' = emissions st /\
               successMessage st' = successMessage st /\
               error st' = Some "Failed to check payment status." /\
               loading st' = false).
  { intros lk Hl.
    destruct (checkInvoiceStatus_fields lk st inv Hinv)
      as (st' & Hrun & _ & _ & Hld & _ & Hcase).
    rewrite Hl in Hcase. destruct Hcase as (Hi & He & Hem & Hs).
    exists st'. repeat split; assumption. }
  split; [exact Hfail|]. split.
  - intros lk answer Hl.
    destruct (checkInvoiceStatus_fields lk st inv Hinv)
      as (st' & Hrun & _ & _ & Hld & _ & Hcase).
    rewrite Hl in Hcase. destruct Hcase as (_ & He & _).
    exists st'. repeat split; assumption.
  - intros failing answering answer Hf Ha.
    destruct (Hfail failing Hf) as (st1 & Hrun1 & Hi1 & _ & _ & He1 & _).
    rewrite (check_all_cons _ _ _ _ Hrun1).
    destruct (checkInvoiceStatus_fields answering st1 inv Hi1)
      as (st' & Hrun & _ & _ & _ & _ & Hcase).
    rewrite Ha in Hcase. destruct Hcase as (Hi & He & _).
    exists st'. split.
    + unfold check_all. cbn [forEach]. unfold bind. rewrite Hrun. reflexivity.
    + split; [exact Hi|]. rewrite He. exact He1.
Qed.

Lemma x9_failed_check_witness :
  exists st',
    check_all [Samples.says None; Samples.says (Some true)] Samples.receive_created
      = (Normal tt, st') /\
    error st' = Some "Failed to check payment status.".
Proof.
  destruct (x9_failed_check Samples.receive_created
              {| payment_request := "lnbc100n1demo"; payment_hash := "c0ffee";
                 value_msat := "10000"; timestamp := "1700000000"; expiry := "3600";
                 memo := Some "test"; settled := false |})
    as (_ & _ & Hboth).
  { vm_compute. reflexivity. }
  destruct (Hboth (Samples.says None) (Samples.says (Some true)) true eq_refl eq_refl)
    as (st' & Hrun & _ & He).
  exists st'. split; [exact Hrun|exact He].
Defined.

(** ** The history: changing the filters *)

Import History.

Lemma filter_keeps_all {A : Type} (f : A -> bool) (l : list A) :
  (forall x, In x l -> f x = true) -> List.filter f l = l.
Proof.
  induction l as [|x l IH]; intros H; cbn [List.filter]; [reflexivity|].
  rewrite (H x) by (left; reflexivity).
  rewrite IH; [reflexivity|]. intros y Hy. apply H. right. exact Hy.
Qed.

Lemma filter_drops (value : string) (l : list string) :
  ~ In value (List.filter (fun v => negb (String.eqb v value)) l).
Proof.
  intros H. apply List.filter_In in H as [_ H]. rewrite String.eqb_refl in H. discriminate.
Qed.

Lemma filter_other_values (value : string) (l : list string) :
  ~ In value l -> List.filter (fun v => negb (String.eqb v value)) l = l.
Proof.
  intros H. apply filter_keeps_all. intros x Hx.
  destruct (String.eqb_spec x value); [subst; contradiction|reflexivity].
Qed.

(** The values [toggleFilterValue] passes on are the single value "all", or
    values without "all". *)
Lemma toggled_normal (currentValues : list string) (value : string) :
  value <> "all" -> normal_set (toggled currentValues value).
Proof.
  intros Hv. unfold toggled.
  set (newValues := List.filter (fun v => negb (String.eqb v "all")) currentValues).
  assert (Hno : ~ In "all" newValues) by apply filter_drops.
  destruct (includes newValues value).
  - set (removed := List.filter (fun v => negb (String.eqb v value)) newValues).
    assert (Hrem : ~ In "all" removed).
    { intros H. apply List.filter_In in H as [H _]. contradiction. }
    destruct removed as [|x r] eqn:E; cbn [length Nat.eqb].
    + left. reflexivity.
    + right. split; [discriminate|exact Hrem].
  - right. split.
    + destruct newValues; discriminate.
    + intros H. apply in_app_or in H as [H|[H|[]]]; [contradiction|congruence].
Qed.

(** Selecting a value that was not selected, then clicking it again. *)
Lemma toggled_twice (currentValues : list string) (value : string) :
  value <> "all" ->
  ~ In value currentValues ->
  normal_set currentValues ->
  In value (toggled currentValues value) /\
  toggled (toggled currentValues value) value = currentValues.
Proof.
  intros Hv Hnew [->|[Hne Hno]].
  - split; [left; reflexivity|]. unfold toggled. cbn.
    rewrite (proj2 (String.eqb_neq _ _) Hv). cbn. rewrite String.eqb_refl. reflexivity.
  - assert (H1 : toggled currentValues value = currentValues ++ [value]).
    { unfold toggled. rewrite (filter_other_values "all") by exact Hno.
      destruct (includes currentValues value) eqn:E; [|reflexivity].
      apply includes_In in E. contradiction. }
    rewrite H1. split; [apply in_or_app; right; left; reflexivity|].
    unfold toggled.
    rewrite (filter_other_values "all")
      by (intros H; apply in_app_or in H as [H|[H|[]]]; [contradiction|congruence]).
    rewrite (proj2 (includes_In _ _)) by (apply in_or_app; right; left; reflexivity).
    rewrite List.filter_app, (filter_other_values value) by exact Hnew.
    cbn [List.filter]. rewrite String.eqb_refl. cbn [negb]. rewrite app_nil_r.
    destruct currentValues; [contradiction|reflexivity].
Qed.

(** [updateFilter], step by step. *)
Lemma updateFilter_run (pageSize : number) (calendar : LocalTime) (now_ms : Z)
    (u : FilterUpdate) (st : State) :
  exists st',
    updateFilter pageSize calendar now_ms u st = (Normal tt, st') /\
    filters st' = with_update (filters st) u /\
    transactions st' = transactions st /\
    filteredTransactions st' = filtered calendar (filters st) now_ms (transactions st) /\
    currentPage st' = int 1.
Proof.
  unfold updateFilter, applyFilters_in. run_history. eexists. split; [reflexivity|].
  cbn. repeat split; reflexivity.
Qed.

Lemma toggleFilterValue_run (pageSize : number) (calendar : LocalTime) (now_ms : Z)
    (filterType : ToggleKey) (value : string) (st : State) :
  toggleFilterValue pageSize calendar now_ms filterType value st =
  updateFilter pageSize calendar now_ms
    (toggle_update filterType
       (if String.eqb value "all" then ["all"]
        else toggled (toggle_current filterType (filters st)) value)) st.
Proof.
  unfold toggleFilterValue. unfold mbind at 1, M_bind, bind, gets.
  destruct (String.eqb value "all"); reflexivity.
Qed.

Lemma toggle_current_update (filterType : ToggleKey) (f : TransactionFilters)
    (v : list string) :
  toggle_current filterType (with_update f (toggle_update filterType v)) = v.
Proof. destruct filterType; reflexivity. Qed.

Lemma with_update_twice (filterType : ToggleKey) (f : TransactionFilters)
    (v : list string) :
  with_update (with_update f (toggle_update filterType v))
    (toggle_update filterType (toggle_current filterType f)) = f.
Proof. destruct filterType, f; reflexivity. Qed.

Lemma filtered_nil (calendar : LocalTime) (f : TransactionFilters) (now_ms : Z) :
  filtered calendar f now_ms [] = [].
Proof.
  unfold filtered, filterByTime, filterByStatus, filterByType.
  repeat match goal with |- context [if ?b then _ else _] => destruct b end; reflexivity.
Qed.

(** X10.  Whatever is clicked in the type or status filter, the selection
    stored for it is either the single value "all" or a non-empty list
    without "all": it is never empty and never mixes "all" with other
    values.  The other selections are not touched. *)
Theorem x10_toggle_keeps_selection_normal
    (pageSize : number) (calendar : LocalTime) (now_ms : Z)
    (filterType : ToggleKey) (value : string) (st : State) :
  exists st',
    toggleFilterValue pageSize calendar now_ms filterType value st = (Normal tt, st') /\
    normal_set (toggle_current filterType (filters st')) /\
    filter_timeRange (filters st') = filter_timeRange (filters st) /\
    match filterType with
    | KeyType => filter_status (filters st') = filter_status (filters st)
    | KeyStatus => filter_type (filters st') = filter_type (filters st)
    end.
Proof.
  rewrite toggleFilterValue_run.
  match goal with
  | |- context [updateFilter _ _ _ ?u st] =>
      destruct (updateFilter_run pageSize calendar now_ms u st) as (st' & Hrun & Hf & _)
  end.
  exists st'. split; [exact Hrun|]. rewrite Hf, toggle_current_update. split.
  - destruct (String.eqb_spec value "all") as [_|Hv]; [left; reflexivity|].
    apply toggled_normal. exact Hv.
  - destruct filterType; split; reflexivity.
Qed.

(** X11.  Clicking a value other than "all" that is not selected selects
    it, and clicking it again restores the filters exactly as they were,
    provided the selection was "all" alone or a list without "all". *)
Theorem x11_toggle_twice_restores
    (pageSize : number) (calendar : LocalTime) (now1 now2 : Z)
    (filterType : ToggleKey) (value : string) (st : State) :
  value <> "all" ->
  ~ In value (toggle_current filterType (filters st)) ->
  normal_set (toggle_current filterType (filters st)) ->
  exists st1 st2,
    toggleFilterValue pageSize calendar now1 filterType value st = (Normal tt, st1) /\
    In value (toggle_current filterType (filters st1)) /\
    toggleFilterValue pageSize calendar now2 filterType value st1 = (Normal tt, st2) /\
    filters st2 = filters st.
Proof.
  intros Hv Hnew Hnorm.
  destruct (toggled_twice _ _ Hv Hnew Hnorm) as [Hin Hback].
  rewrite toggleFilterValue_run. rewrite (proj2 (String.eqb_neq _ _) Hv).
  match goal with
  | |- context [updateFilter _ _ _ ?u st] =>
      destruct (updateFilter_run pageSize calendar now1 u st) as (st1 & Hrun1 & Hf1 & _)
  end.
  exists st1.
  destruct (updateFilter_run pageSize calendar now2
              (toggle_update filterType
                 (toggled (toggle_current filterType (filters st1)) value)) st1)
    as (st2 & Hrun2 & Hf2 & _).
  exists st2. split; [exact Hrun1|]. split.
  - rewrite Hf1, toggle_current_update. exact Hin.
  - split.
    + rewrite toggleFilterValue_run, (proj2 (String.eqb_neq _ _) Hv). exact Hrun2.
    + rewrite Hf2, Hf1, toggle_current_update, Hback. apply with_update_twice.
Qed.

Lemma x11_toggle_twice_restores_witness :
  exists st1 st2,
    toggleFilterValue (int 10) Samples.fixed_calendar 1700000060000 KeyType "received"
      Samples.history_only_sent = (Normal tt, st1) /\
    In "received" (filter_type (filters st1)) /\
    toggleFilterValue (int 10) Samples.fixed_calendar 1700000070000 KeyType "received" st1
      = (Normal tt, st2) /\
    filters st2 = Samples.only_sent.
Proof.
  apply (x11_toggle_twice_restores (int 10) Samples.fixed_calendar 1700000060000
           1700000070000 KeyType "received" Samples.history_only_sent).
  - discriminate.
  - cbn. intuition discriminate.
  - right. cbn. split; [discriminate|intuition discriminate].
Defined.

(** X12.  [updateFilter] stores the new filters but filters the list with
    the filters of the render it was called from, so right after it
    [filteredTransactions] still reflects the old filters.  The effect on
    [filters] that runs next repairs this: after it, [filteredTransactions]
    is the list of all transactions filtered by the new filters, and the
    first page is shown. *)
Theorem x12_filter_change_takes_effect
    (pageSize : number) (calendar : LocalTime) (now1 now2 : Z)
    (u : FilterUpdate) (st : State) :
  exists st1 st2,
    updateFilter pageSize calendar now1 u st = (Normal tt, st1) /\
    filters st1 = with_update (filters st) u /\
    filteredTransactions st1 = filtered calendar (filters st) now1 (transactions st) /\
    filters_effect pageSize calendar now2 st1 = (Normal tt, st2) /\
    filters st2 = with_update (filters st) u /\
    filteredTransactions st2 =
      filtered calendar (with_update (filters st) u) now2 (transactions st) /\
    transactions st2 = transactions st /\
    currentPage st2 = int 1.
Proof.
  destruct (updateFilter_run pageSize calendar now1 u st)
    as (st1 & Hrun1 & Hf1 & Ht1 & Hl1 & Hc1).
  exists st1. unfold filters_effect. unfold mbind at 1, M_bind, bind, gets.
  destruct (transactions st1) as [|tx txs] eqn:E.
  - exists st1. cbn [length Nat.ltb Nat.leb]. repeat split; try assumption.
    + rewrite Hl1, <- Ht1, !filtered_nil. reflexivity.
    + congruence.
  - destruct (applyFilters_filtered pageSize calendar now2 (tx :: txs) st1)
      as (st2 & Hrun2 & Hl2 & Hc2 & _ & Hf2 & Ht2 & _).
    exists st2. change (0 <? length (tx :: txs))%nat with true. cbv iota.
    repeat split; try assumption.
    + congruence.
    + rewrite Hl2, Hf1, <- Ht1. reflexivity.
    + congruence.
Qed.

(** ** The history: what the filters keep *)

Lemma filter_filter {A : Type} (f g : A -> bool) (l : list A) :
  List.filter g (List.filter f l) = List.filter (fun x => f x && g x) l.
Proof.
  induction l as [|x l IH]; cbn [List.filter]; [reflexivity|].
  destruct (f x); cbn [List.filter andb]; rewrite IH; reflexivity.
Qed.

Lemma filter_true {A : Type} (l : list A) : List.filter (fun _ => true) l = l.
Proof. apply filter_keeps_all. reflexivity. Qed.

Lemma filter_sublist {A : Type} (f : A -> bool) (l : list A) : sublist (List.filter f l) l.
Proof.
  induction l as [|x l IH]; cbn [List.filter]; [constructor|].
  destruct (f x); [apply sublist_skip|apply sublist_cons]; exact IH.
Qed.

(** The three successive filters are one filter. *)
Lemma filtered_passes (calendar : LocalTime) (f : TransactionFilters) (now_ms : Z)
    (l : list Transaction) :
  filtered calendar f now_ms l = List.filter (passes calendar f now_ms) l.
Proof.
  unfold filtered, filterByTime, filterByStatus, filterByType, passes.
  destruct (includes (filter_type f) "all"), (includes (filter_status f) "all"),
    (String.eqb (filter_timeRange f) "all"); cbn [negb orb andb];
    rewrite ?filter_filter;
    first [ reflexivity
          | symmetry; apply filter_true
          | apply List.filter_ext; intros tx; rewrite ?andb_true_r, ?andb_assoc; reflexivity ].
Qed.

(** In a list with valid dates, an entry of a descending list is not older
    than any entry after it. *)
Lemma Sorted_valid_StronglySorted (l : list Transaction) :
  Forall valid_date l -> Sorted date_ge l -> StronglySorted date_ge l.
Proof.
  induction l as [|x l IH]; intros Hv Hs; [constructor|].
  inversion Hv as [|? ? [tx Hx] Hvl]; subst. inversion Hs as [|? ? Hsl Hhd]; subst.
  specialize (IH Hvl Hsl). constructor; [exact IH|].
  destruct l as [|y r]; [constructor|].
  inversion Hhd as [|? ? Hxy]; subst. inversion Hvl as [|? ? [ty Hy] Hvr]; subst.
  inversion IH as [|? ? _ Hall]; subst.
  constructor; [exact Hxy|].
  apply (date_ge_dates x y tx ty Hx Hy) in Hxy.
  rewrite List.Forall_forall in Hall, Hvr |- *. intros z Hz.
  destruct (Hvr z Hz) as [tz Hzt].
  apply (date_ge_dates x z tx tz Hx Hzt).
  pose proof (proj1 (date_ge_dates y z ty tz Hy Hzt) (Hall z Hz)). lia.
Qed.

Lemma StronglySorted_filter {A : Type} (R : A -> A -> Prop) (f : A -> bool) (l : list A) :
  StronglySorted R l -> StronglySorted R (List.filter f l).
Proof.
  induction 1 as [|x l Hs IH Hall]; cbn [List.filter]; [constructor|].
  destruct (f x); [|exact IH]. constructor; [exact IH|].
  apply Forall_filter_keeps. exact Hall.
Qed.

(** X13.  The list stored by [applyFilters] is the given list with the
    entries removed that fail one of the three conditions (type, status,
    time range): the entries kept stay in their order, and none is added or
    repeated.  So a list in descending order of date, with valid dates, stays
    in descending order after filtering. *)
Theorem x13_filters_keep_the_order
    (pageSize : number) (calendar : LocalTime) (now_ms : Z)
    (txList : list Transaction) (st : State) :
  exists st',
    applyFilters pageSize calendar now_ms txList st = (Normal tt, st') /\
    filteredTransactions st' = List.filter (passes calendar (filters st) now_ms) txList /\
    sublist (filteredTransactions st') txList /\
    (Forall valid_date txList -> Sorted date_ge txList ->
     Sorted date_ge (filteredTransactions st')).
Proof.
  destruct (applyFilters_filtered pageSize calendar now_ms txList st)
    as (st' & Hrun & Hf & _).
  exists st'. split; [exact Hrun|]. rewrite Hf, filtered_passes.
  split; [reflexivity|]. split; [apply filter_sublist|].
  intros Hv Hs. apply StronglySorted_Sorted, StronglySorted_filter.
  apply Sorted_valid_StronglySorted; assumption.
Qed.

Lemma x13_filters_keep_the_order_witness :
  Forall valid_date Samples.two_transactions /\
  Sorted date_ge Samples.two_transactions /\
  Sorted date_ge
    (filteredTransactions
       (snd (applyFilters (int 10) Samples.fixed_calendar 1700000060000
               Samples.two_transactions Samples.history_only_sent))).
Proof.
  assert (Hv : Forall valid_date Samples.two_transactions).
  { repeat constructor; exists 1700000000000; number_eq. }
  assert (Hs : Sorted date_ge Samples.two_transactions).
  { repeat constructor. }
  split; [exact Hv|]. split; [exact Hs|].
  destruct (x13_filters_keep_the_order (int 10) Samples.fixed_calendar 1700000060000
              Samples.two_transactions Samples.history_only_sent)
    as (st' & Hrun & _ & _ & Hsorted).
  rewrite Hrun. apply Hsorted; assumption.
Defined.

(** X14.  An entry is in the filtered list exactly when it is in the given
    list and passes the three conditions.  With a status selection without
    "all", only entries whose status is selected are kept.  With a time
    range other than "all", only entries dated at or after the start date
    are kept, so entries with an invalid date are dropped; and for a time
    range that is none of "all", "today", "week", "month" the start date is
    the current instant. *)
Theorem x14_what_the_filters_keep
    (calendar : LocalTime) (f : TransactionFilters) (now_ms : Z) (l : list Transaction) :
  (forall tx : Transaction,
      In tx (filtered calendar f now_ms l) <-> In tx l /\ passes calendar f now_ms tx = true) /\
  (includes (filter_status f) "all" = false ->
   Forall (fun tx => In (tx_status tx) (filter_status f)) (filtered calendar f now_ms l)) /\
  (filter_timeRange f <> "all" ->
   Forall (fun tx => num_ge (getTime (tx_date tx)) (getTime (startDate calendar f now_ms)) = true
                     /\ getTime (tx_date tx) <> NaN)
     (filtered calendar f now_ms l)) /\
  (filter_timeRange f <> "today" -> filter_timeRange f <> "week" ->
   filter_timeRange f <> "month" ->
   startDate calendar f now_ms = new_Date (int now_ms)).
Proof.
  split; [|split; [|split]].
  - intros tx. rewrite filtered_passes. apply List.filter_In.
  - intros Hs. rewrite filtered_passes. apply List.Forall_forall. intros tx Hin.
    apply List.filter_In in Hin as [_ Hp]. unfold passes in Hp. rewrite Hs in Hp.
    apply andb_true_iff in Hp as [Hp _]. apply andb_true_iff in Hp as [_ Hp].
    apply includes_In. exact Hp.
  - intros Ht. rewrite filtered_passes. apply List.Forall_forall. intros tx Hin.
    apply List.filter_In in Hin as [_ Hp]. unfold passes in Hp.
    rewrite (proj2 (String.eqb_neq _ _) Ht) in Hp.
    apply andb_true_iff in Hp as [_ Hp]. cbn [orb] in Hp. split; [exact Hp|].
    intros Hnan. rewrite Hnan in Hp. unfold num_ge, num_le in Hp.
    destruct (getTime (startDate calendar f now_ms)); discriminate.
  - intros H1 H2 H3. unfold startDate.
    rewrite (proj2 (String.eqb_neq _ _) H1), (proj2 (String.eqb_neq _ _) H2),
      (proj2 (String.eqb_neq _ _) H3). reflexivity.
Qed.

Lemma x14_what_the_filters_keep_witness :
  let f := {| filter_type := ["all"]; filter_status := ["OPEN"];
              filter_timeRange := "custom" |} in
  Forall (fun tx => In (tx_status tx) ["OPEN"])
    (filtered Samples.fixed_calendar f 1700000060000 Samples.two_transactions) /\
  startDate Samples.fixed_calendar f 1700000060000 = new_Date (int 1700000060000).
Proof.
  intros f.
  destruct (x14_what_the_filters_keep Samples.fixed_calendar f 1700000060000
              Samples.two_transactions) as (_ & Hstatus & _ & Hstart).
  split.
  - apply Hstatus. reflexivity.
  - apply Hstart; discriminate.
Defined.

(** ** The history: walking through the pages *)

Lemma firstn_skipn_app {A : Type} (a b : nat) (l : list A) :
  firstn a l ++ firstn b (skipn a l) = firstn (a + b) l.
Proof.
  revert l. induction a as [|a IH]; intros l; [reflexivity|].
  destruct l as [|x l]; cbn [firstn skipn app Nat.add].
  - rewrite firstn_nil. reflexivity.
  - rewrite IH. reflexivity.
Qed.

(** Consecutive slices of equal size, put together. *)
Lemma pages_concat {A : Type} (p n : nat) (l : list A) :
  concat (map (fun i => firstn p (skipn (i * p) l)) (seq 0 n)) = firstn (n * p) l.
Proof.
  induction n as [|n IH]; [reflexivity|].
  rewrite seq_S, map_app, concat_app, IH. cbn [map concat Nat.add].
  rewrite app_nil_r, firstn_skipn_app. f_equal. lia.
Qed.

Lemma num_eqb_int (a b : Z) : num_eqb (int a) (int b) = (a =? b).
Proof.
  unfold num_eqb, int. destruct (Z.eqb_spec a b) as [->|Hne].
  - apply bool_decide_eq_true_2. reflexivity.
  - apply bool_decide_eq_false_2. intros H. apply Hne. apply int_inj.
    unfold int. rewrite H. reflexivity.
Qed.

(** The page shown after a click on a page number in range. *)
Lemma page_shown_int (ps k : Z) (st : State) :
  0 < ps ->
  pagination_ok ps st ->
  1 <= k <= Z.max 1 (ceil_div (Z.of_nat (length (filteredTransactions st))) ps) ->
  page_shown (int ps) st k =
    firstn (Z.to_nat ps) (skipn (Z.to_nat ((k - 1) * ps)) (filteredTransactions st)).
Proof.
  intros Hps (cp & Hcp & Htp & Hr) Hk. unfold page_shown.
  rewrite (handlePageChange_int k _ st Htp). cbn [snd].
  destruct (Z.ltb_spec k 1); [lia|].
  destruct (Z.ltb_spec
              (Z.max 1 (ceil_div (Z.of_nat (length (filteredTransactions st))) ps)) k);
    [lia|].
  cbn [orb].
  match goal with
  | |- getPaginatedTransactions _ ?s = _ =>
      destruct (getPaginatedTransactions_int ps k s Hps eq_refl) as [_ Hslice]
  end.
  rewrite Hslice by lia. reflexivity.
Qed.

(** X15.  With a consistent pagination state, clicking through the pages
    [1 .. totalPages] shows every filtered transaction exactly once and in
    order: the pages put end to end are the filtered list.  When the list is
    not empty, none of these pages is empty. *)
Theorem x15_pages_cover_the_list (ps : Z) (st : State) (n : nat) :
  0 < ps ->
  pagination_ok ps st ->
  totalPages st = int (Z.of_nat n) ->
  concat (map (page_shown (int ps) st) (page_numbers n)) = filteredTransactions st /\
  (filteredTransactions st <> [] ->
   Forall (fun k => page_shown (int ps) st k <> []) (page_numbers n)).
Proof.
  intros Hps Hok Hn. pose proof Hok as (cp & Hcp & Htp & Hr).
  set (l := filteredTransactions st) in *.
  assert (Htot : Z.of_nat n = Z.max 1 (ceil_div (Z.of_nat (length l)) ps)).
  { apply int_inj. rewrite <- Hn. exact Htp. }
  assert (Hcover : Z.of_nat (length l) <= Z.of_nat n * ps).
  { apply ceil_div_le; [exact Hps|]. lia. }
  assert (Hpage : forall i : nat, (i < n)%nat ->
            page_shown (int ps) st (Z.of_nat (S i)) =
            firstn (Z.to_nat ps) (skipn (i * Z.to_nat ps) l)).
  { intros i Hi. rewrite page_shown_int by (try assumption; fold l; lia).
    fold l. do 2 f_equal. nia. }
  unfold page_numbers. rewrite <- seq_shift, !map_map. split.
  - rewrite (map_ext_in _ (fun i => firstn (Z.to_nat ps) (skipn (i * Z.to_nat ps) l))).
    + rewrite pages_concat. apply firstn_all2. nia.
    + intros i Hi. apply in_seq in Hi. apply Hpage. lia.
  - intros Hne. apply List.Forall_forall. intros k Hk.
    apply in_map_iff in Hk as (i & <- & Hi). apply in_seq in Hi.
    rewrite Hpage by lia.
    assert (Hlen : (0 < length l)%nat) by (destruct l; [contradiction|cbn; lia]).
    assert (Hlast : ~ Z.of_nat (length l) <= (Z.of_nat n - 1) * ps).
    { intros H. apply (ceil_div_le _ _ _ Hps) in H.
      assert (Hpos : ~ ceil_div (Z.of_nat (length l)) ps <= 0).
      { intros H0. apply (ceil_div_le _ _ _ Hps) in H0. lia. }
      lia. }
    intros Hnil. apply (f_equal (@length Transaction)) in Hnil.
    rewrite length_firstn, length_skipn in Hnil. cbn [length] in Hnil. nia.
Qed.

Lemma x15_pages_cover_the_list_witness :
  let st := snd (applyFilters (int 1) Samples.fixed_calendar 1700000060000
                   Samples.two_transactions initial) in
  pagination_ok 1 st /\
  totalPages st = int 2 /\
  page_shown (int 1) st 1 ++ page_shown (int 1) st 2 = Samples.two_transactions.
Proof.
  intros st.
  assert (Hok : pagination_ok 1 st).
  { destruct (applyFilters_ok 1 Samples.fixed_calendar 1700000060000
                Samples.two_transactions initial) as (st' & Hrun & _ & _ & _ & Hok);
      [lia|].
    unfold st. rewrite Hrun. exact Hok. }
  assert (Htp : totalPages st = int (Z.of_nat 2)) by number_eq.
  split; [exact Hok|]. split; [exact Htp|].
  destruct (x15_pages_cover_the_list 1 st 2) as [Hcat _]; [lia|exact Hok|exact Htp|].
  cbn [page_numbers seq map concat Z.of_nat Pos.of_succ_nat Pos.succ] in Hcat.
  rewrite app_nil_r in Hcat. exact Hcat.
Defined.

(** The page of a consistent state is empty only when the filtered list is. *)
Lemma page_empty_iff (ps : Z) (st : State) :
  0 < ps ->
  pagination_ok ps st ->
  (getPaginatedTransactions (int ps) st = [] <-> filteredTransactions st = []).
Proof.
  intros Hps (cp & Hcp & _ & Hr).
  destruct (getPaginatedTransactions_int ps cp st Hps Hcp) as [_ Hpage].
  rewrite (Hpage ltac:(lia)). set (l := filteredTransactions st) in *.
  split.
  - intros He. apply (f_equal (@length _)) in He.
    rewrite length_firstn, length_skipn in He. cbn [length] in He.
    destruct l as [|x l']; [reflexivity|exfalso].
    remember (length (x :: l')) as n eqn:En.
    assert (Hn : (0 < n)%nat) by (subst n; cbn [length]; lia).
    assert (Hs : 0 <= (cp - 1) * ps) by nia.
    set (s := (cp - 1) * ps) in *.
    assert (Hlen : Z.of_nat n <= s) by lia.
    apply (ceil_div_le _ ps (cp - 1) Hps) in Hlen.
    assert (cp = 1) by lia. subst cp. unfold s in *. lia.
  - intros ->. rewrite skipn_nil, firstn_nil. reflexivity.
Qed.

(** X19.  What the table shows, on a consistent pagination state: the
    spinner while loading, else the error message when there is one, else
    the note that nothing matches when the page has no rows (with a positive
    page size: exactly when the filtered list is empty); in these three
    cases there are no page buttons.  Otherwise the rows of the page are
    shown, and the page buttons are hidden exactly when there is a single
    page; when shown, "Previous" is disabled exactly on the first page and
    "Next" exactly on the last one, never both, and a click on an enabled
    button always moves by one page and leaves the state consistent. *)
Theorem x19_page_buttons (ps : Z) (st : State) :
  pagination_ok ps st ->
  match TransactionTable (int ps) st with
  | LoadingView => loading st = true
  | ErrorView message =>
      loading st = false /\ error st = Some message /\ message <> ""
  | EmptyView =>
      loading st = false /\ opt_truthy (error st) = false /\
      getPaginatedTransactions (int ps) st = [] /\
      (0 < ps -> filteredTransactions st = [])
  | RowsView rows pagination =>
      loading st = false /\ opt_truthy (error st) = false /\
      rows = getPaginatedTransactions (int ps) st /\ rows <> [] /\
      pagination = renderPagination st /\
      match pagination with
      | None => totalPages st = int 1
      | Some buttons =>
          totalPages st <> int 1 /\
          (previous_disabled buttons = true <-> currentPage st = int 1) /\
          (next_disabled buttons = true <-> currentPage st = totalPages st) /\
          previous_disabled buttons && next_disabled buttons = false /\
          (previous_disabled buttons = false ->
           exists st',
             clickPrevious st = (Normal tt, st') /\
             currentPage st' = num_sub (currentPage st) (int 1) /\
             pagination_ok ps st') /\
          (next_disabled buttons = false ->
           exists st',
             clickNext st = (Normal tt, st') /\
             currentPage st' = num_add (currentPage st) (int 1) /\
             pagination_ok ps st')
      end
  end.
Proof.
  intros Hok. unfold TransactionTable. cbv zeta.
  destruct (loading st) eqn:El; [reflexivity|].
  destruct (opt_truthy (error st)) eqn:Ee.
  { destruct (error st) as [message|]; [|discriminate].
    split; [reflexivity|]. split; [reflexivity|].
    change (default "" (Some message)) with message. intros E. rewrite E in Ee.
    discriminate. }
  destruct (getPaginatedTransactions (int ps) st) as [|row rows] eqn:Ep.
  { cbn [length Nat.eqb]. repeat split. intros Hps.
    apply (page_empty_iff ps st Hps Hok). exact Ep. }
  cbn [length Nat.eqb]. split; [reflexivity|]. split; [reflexivity|].
  split; [reflexivity|]. split; [discriminate|]. split; [reflexivity|].
  pose proof Hok as (cp & Hcp & Htp & Hr).
  set (tp := Z.max 1 (ceil_div (Z.of_nat (length (filteredTransactions st))) ps)) in *.
  unfold renderPagination. rewrite Htp, Hcp, num_le_int, !num_eqb_int.
  destruct (Z.leb_spec tp 1) as [Hone|Hmany].
  - f_equal. lia.
  - cbn [previous_disabled next_disabled].
    assert (Hclick : forall page : Z,
               1 <= page <= tp ->
               exists st', handlePageChange (int page) st = (Normal tt, st') /\
                           currentPage st' = int page /\ pagination_ok ps st').
    { intros page Hp. rewrite (handlePageChange_int page tp st Htp).
      destruct (Z.ltb_spec page 1); [lia|]. destruct (Z.ltb_spec tp page); [lia|].
      cbn [orb]. eexists. split; [reflexivity|]. split; [reflexivity|].
      exists page. cbn. repeat split; try assumption; lia. }
    split; [intros H; apply int_inj in H; lia|].
    split; [rewrite Z.eqb_eq; split; [intros ->; reflexivity|apply int_inj]|].
    split; [rewrite Z.eqb_eq; split; [intros ->; reflexivity|apply int_inj]|].
    split; [destruct (Z.eqb_spec cp 1), (Z.eqb_spec cp tp); try reflexivity; lia|].
    split.
    + intros Hen. apply Z.eqb_neq in Hen.
      unfold clickPrevious. unfold mbind at 1, M_bind, bind, gets.
      rewrite Hcp, num_sub_int. apply Hclick. lia.
    + intros Hen. apply Z.eqb_neq in Hen.
      unfold clickNext. unfold mbind at 1, M_bind, bind, gets.
      rewrite Hcp, num_add_int. apply Hclick. lia.
Qed.

Lemma x19_page_buttons_witness :
  let st := Samples.table_loaded in
  pagination_ok 1 st /\
  TransactionTable (int 1) st
    = RowsView (getPaginatedTransactions (int 1) st)
        (Some {| previous_disabled := true; next_disabled := false |}) /\
  (exists st', clickNext st = (Normal tt, st') /\ pagination_ok 1 st') /\
  TransactionTable (int 1) initial = LoadingView.
Proof.
  intros st.
  assert (Hok : pagination_ok 1 st).
  { exists 1. split; [reflexivity|]. split; [number_eq|]. vm_compute. split; discriminate. }
  assert (Hb : TransactionTable (int 1) st
               = RowsView (getPaginatedTransactions (int 1) st)
                   (Some {| previous_disabled := true; next_disabled := false |}))
    by (vm_compute; reflexivity).
  split; [exact Hok|]. split; [exact Hb|]. split; [|reflexivity].
  pose proof (x19_page_buttons 1 st Hok) as H. rewrite Hb in H.
  destruct H as (_ & _ & _ & _ & _ & _ & _ & _ & _ & _ & Hnext).
  destruct (Hnext eq_refl) as (st' & Hrun & _ & Hok').
  exists st'. split; [exact Hrun|exact Hok'].
Defined.

(** ** The history: loading, and what a row shows *)

(** X16.  When one of the three calls to the node fails, [loadTransactions]
    keeps the transactions, the filtered list, the pages and the time of the
    last update as they were; it sets the message "Failed to load transaction
    history. Please try again later." and [loading = false].  When the three
    calls answer, the error is cleared, [loading] is [false], the time of
    the last update is the current time, the first page is shown, and the
    filtered list is the new list of transactions under the current
    filters. *)
Theorem x16_load_outcomes
    (pageSize : number) (calendar : LocalTime) (client : LndClient) (now_ms : Z)
    (st : State) :
  (listPayments client = None \/ listInvoices client false = None \/
   listInvoices client true = None ->
   loadTransactions pageSize calendar (Some client) now_ms st =
     (Normal tt,
      {| transactions := transactions st;
         filteredTransactions := filteredTransactions st;
         loading := false;
         error := Some "Failed to load transaction history. Please try again later.";
         currentPage := currentPage st; totalPages := totalPages st;
         lastUpdated := lastUpdated st; filters := filters st |})) /\
  (forall (pr : PaymentsResponse) (sr pe : InvoicesResponse),
      listPayments client = Some pr ->
      listInvoices client false = Some sr ->
      listInvoices client true = Some pe ->
      exists st',
        loadTransactions pageSize calendar (Some client) now_ms st = (Normal tt, st') /\
        error st' = None /\
        loading st' = false /\
        lastUpdated st' = Some (new_Date (int now_ms)) /\
        currentPage st' = int 1 /\
        filters st' = filters st /\
        filteredTransactions st' =
          filtered calendar (filters st) now_ms (transactions st')).
Proof.
  split.
  - intros Hfail. unfold loadTransactions. run_history.
    destruct (listPayments client) as [pr|]; [|reflexivity].
    destruct (listInvoices client false) as [sr|]; [|reflexivity].
    destruct (listInvoices client true) as [pe|]; [|reflexivity].
    destruct Hfail as [H|[H|H]]; discriminate H.
  - intros pr sr pe H1 H2 H3. unfold loadTransactions. run_history. rewrite H1, H2, H3.
    match goal with
    | |- context [applyFilters pageSize calendar now_ms ?l ?s] =>
        destruct (applyFilters_filtered pageSize calendar now_ms l s)
          as (st1 & Hrun & Hl & Hcp & _ & Hf & Ht & _ & He)
    end.
    rewrite Hrun. eexists. split; [reflexivity|]. cbn.
    rewrite He, Hcp, Hf, Hl, Ht. repeat split.
Qed.

Lemma x16_load_outcomes_witness :
  loadTransactions (int 10) Samples.fixed_calendar (Some Samples.offline_client)
      1700000060000 Samples.history_only_sent =
    (Normal tt,
     {| transactions := []; filteredTransactions := []; loading := false;
        error := Some "Failed to load transaction history. Please try again later.";
        currentPage := int 3; totalPages := int 4; lastUpdated := None;
        filters := Samples.only_sent |}).
Proof.
  apply (x16_load_outcomes (int 10) Samples.fixed_calendar Samples.offline_client
           1700000060000 Samples.history_only_sent).
  left. reflexivity.
Defined.

Lemma or_default_truthy (o : option string) (d : string) :
  str_truthy d = true -> str_truthy (or_default o d) = true.
Proof.
  intros Hd. destruct o as [s|]; cbn [or_default]; [|exact Hd].
  destruct (str_truthy s) eqn:E; [exact E|exact Hd].
Qed.

(** X17.  Every transaction of the list has a description that is not
    empty: a sent payment shows the decoded description, "No description",
    "Unable to decode", "Payment to " and the last hop, or "Lightning
    payment"; an invoice shows its memo or "Lightning invoice".  So the
    description cell of the table shows the description itself, never its
    own fallback. *)
Theorem x17_descriptions_are_not_empty
    (client : LndClient) (currentTime : number) (tx : Transaction) :
  listed client currentTime tx ->
  tx_description tx <> "" /\ table_description tx = tx_description tx.
Proof.
  intros Hl.
  assert (Ht : str_truthy (tx_description tx) = true).
  { destruct Hl as [[p ->]|[i ->]].
    - cbn [paymentToTransaction tx_description].
      destruct (opt_truthy (pay_payment_request p)).
      + unfold decodePaymentRequest.
        destruct (decodePayReq client _) as [d|]; [|reflexivity].
        apply or_default_truthy. reflexivity.
      + destruct (last_hop p); reflexivity.
    - cbn [invoiceToTransaction tx_description]. apply or_default_truthy. reflexivity. }
  split.
  - intros E. rewrite E in Ht. discriminate.
  - unfold table_description. rewrite Ht. reflexivity.
Qed.

Lemma x17_descriptions_are_not_empty_witness :
  tx_description (paymentToTransaction Samples.offline_client Samples.payment_later)
    = "Payment to 03bb" /\
  table_description (paymentToTransaction Samples.offline_client Samples.payment_later)
    = "Payment to 03bb".
Proof.
  assert (Hd : tx_description (paymentToTransaction Samples.offline_client
                                 Samples.payment_later) = "Payment to 03bb") by reflexivity.
  split; [exact Hd|].
  destruct (x17_descriptions_are_not_empty Samples.offline_client (int 1700000300)
              (paymentToTransaction Samples.offline_client Samples.payment_later))
    as [_ Htable].
  - left. exists Samples.payment_later. reflexivity.
  - rewrite Htable. exact Hd.
Defined.

(** X18.  The status cell of a transaction of the list, whatever
    [toUpperCase] does: the lines "Waiting for payment..." and "Payment
    window closed" are never shown together; for status "OPEN" exactly one
    of them is shown, for any other status neither.  "Payment window closed"
    is shown only under the amber badge "EXPIRED", on a received entry that
    the type column still calls "Receiving".  The tooltip never shows the
    display state: it is empty, or, on a sent payment, " - HTLC: " followed
    by the state of the last HTLC. *)
Theorem x18_status_cell
    (toUpperCase : string -> string) (client : LndClient) (currentTime : number)
    (tx : Transaction) :
  listed client currentTime tx ->
  let cell := renderStatus toUpperCase tx in
  waiting_line cell && closed_line cell = false /\
  (tx_status tx = "OPEN" -> xorb (waiting_line cell) (closed_line cell) = true) /\
  (tx_status tx <> "OPEN" -> waiting_line cell = false /\ closed_line cell = false) /\
  (closed_line cell = true ->
   displayText cell = "EXPIRED" /\ statusClass cell = "text-amber-600" /\
   tx_type tx = received /\ getTransactionTypeDisplay tx = "Receiving") /\
  (tooltipText cell = "" \/
   tx_type tx = sent /\
   exists htlcState, tx_htlcState tx = Some htlcState /\ htlcState <> "" /\
                tooltipText cell = " - HTLC: " +:+ htlcState).
Proof.
  intros [[p ->]|[i ->]] cell; subst cell.
  - unfold renderStatus.
    cbn [paymentToTransaction tx_status tx_isExpired tx_displayState tx_htlcState tx_type
         is_true default from_option id andb negb opt_truthy waiting_line closed_line
         tooltipText].
    rewrite andb_true_r, andb_false_r. split; [reflexivity|]. split; [|split; [|split]].
    + intros ->. reflexivity.
    + intros H. rewrite (proj2 (String.eqb_neq _ _) H). split; reflexivity.
    + discriminate.
    + rewrite String.eqb_refl, andb_false_r.
      match goal with |- context [str_truthy ?h] => destruct (str_truthy h) eqn:E end.
      * right. split; [reflexivity|]. eexists. split; [reflexivity|]. split; [|reflexivity].
        intros H. rewrite H in E. discriminate.
      * left. reflexivity.
  - unfold renderStatus.
    cbn [invoiceToTransaction tx_status tx_isExpired tx_displayState tx_htlcState tx_type
         is_true default from_option id opt_truthy waiting_line closed_line tooltipText
         statusClass displayText].
    set (expired := num_gt currentTime (expiryTimestamp i)).
    assert (Htip : str_truthy (inv_state i)
                   && negb (String.eqb (inv_state i) (invoice_status i)) = false).
    { unfold invoice_status. destruct (str_truthy (inv_state i)); [|reflexivity].
      rewrite String.eqb_refl. reflexivity. }
    rewrite Htip.
    destruct (String.eqb_spec (invoice_status i) "OPEN") as [Ho|Ho].
    + rewrite Ho. cbn [andb negb String.eqb].
      destruct expired; cbn;
        (split; [reflexivity|]); (split; [intros _; reflexivity|]);
        (split; [intros H; exfalso; apply H; reflexivity|]);
        (split; [first [discriminate | intros _; rewrite ?Ho; repeat split]
                |left; reflexivity]).
    + cbn [andb negb].
      split; [reflexivity|]. split; [intros H; contradiction|].
      split; [intros _; split; reflexivity|]. split; [discriminate|].
      left. reflexivity.
Qed.

Lemma x18_status_cell_witness :
  let tx := invoiceToTransaction (int 1700003601) Samples.invoice_open in
  let cell := renderStatus (fun s => s) tx in
  displayText cell = "EXPIRED" /\ closed_line cell = true /\ waiting_line cell = false /\
  getTransactionTypeDisplay tx = "Receiving".
Proof.
  intros tx cell.
  assert (Hc : closed_line cell = true) by (vm_compute; reflexivity).
  destruct (x18_status_cell (fun s => s) Samples.offline_client (int 1700003601) tx)
    as (Hnot & _ & _ & Hclosed & _).
  { right. exists Samples.invoice_open. reflexivity. }
  destruct (Hclosed Hc) as (Htext & _ & _ & Htype).
  fold cell in Hnot. rewrite Hc, andb_true_r in Hnot.
  split; [exact Htext|]. split; [exact Hc|]. split; [exact Hnot|exact Htype].
Defined.

(** ** From the receive form to the history *)

(** X20.  An invoice created by the receive form for an integer amount of
    [A] satoshis, with [A * 1000] at most 2^53 in magnitude, is listed in the
    history with amount [A], provided the node reports the invoice with the
    [value_msat] it was asked for: the string sent to the node is the
    decimal notation of [A * 1000], it reads back as [A * 1000], and the
    division by 1000 gives [A]. *)
Theorem x20_created_amount_is_listed
    (st : Receive.State) (invoice : Invoice) (currentTime : number) (A : Z) :
  Receive.amount st = int A ->
  Z.abs (A * 1000) <= 2 ^ 53 ->
  inv_value_msat invoice = Some (Receive.req_value_msat (Receive.addInvoice_request st)) ->
  tx_amount (invoiceToTransaction currentTime invoice) = int A /\
  tx_type (invoiceToTransaction currentTime invoice) = received.
Proof.
  intros HA Hr Hv. split; [|reflexivity].
  cbn [Receive.addInvoice_request Receive.req_value_msat] in Hv.
  rewrite HA, (value_msat_decimal A Hr) in Hv.
  cbn [invoiceToTransaction tx_amount].
  assert (Ha : invoice_amount invoice = int A).
  { unfold invoice_amount. rewrite Hv. cbn [opt_truthy default from_option id].
    rewrite pretty_Z_truthy.
    apply (mSatsToSats_int_iff _ (A * 1000) A); [|exact Hr|reflexivity].
    cbn [Number_]. apply StringToNumber_pretty. exact Hr. }
  rewrite Ha. destruct (String.eqb _ _); reflexivity.
Qed.

Lemma x20_created_amount_is_listed_witness :
  inv_value_msat Samples.invoice_open
    = Some (Receive.req_value_msat (Receive.addInvoice_request Samples.receive_ready)) /\
  tx_amount (invoiceToTransaction (int 1700000050) Samples.invoice_open) = int 10.
Proof.
  assert (Hv : inv_value_msat Samples.invoice_open
               = Some (Receive.req_value_msat
                         (Receive.addInvoice_request Samples.receive_ready)))
    by reflexivity.
  split; [exact Hv|].
  apply (x20_created_amount_is_listed Samples.receive_ready Samples.invoice_open
           (int 1700000050) 10); [reflexivity|vm_compute; discriminate|exact Hv].
Defined.
